(** * Organic nomenclature practice: the quiz session of [streamlit_app.py]

    A shallow embedding of the quiz logic of the Streamlit application
    (answer normalisation and checking, quiz set-up with filtering and
    sampling, the per-problem callbacks, and the post-processing of the
    generated explanation), followed by the properties proved about it. *)

From Stdlib Require Import ZArith NArith Ascii String List Lia Permutation.
From stdpp Require Import base decidable option numbers list.

Local Open Scope N_scope.

(** ** Python strings

    A Python [str] is a sequence of Unicode code points; a code point is a
    natural number.  String literals of the source that are plain ASCII are
    written with [lit]. *)

Abbreviation codepoint := N (only parsing).
Abbreviation str := (list N) (only parsing).

Definition lit (s : string) : str :=
  N_of_ascii <$> list_ascii_of_string s.

Module Char.
Definition space : codepoint := 32.       (* " " *)
Definition hyphen : codepoint := 45.      (* "-" *)
Definition asterisk : codepoint := 42.    (* "*" *)
Definition newline : codepoint := 10.     (* "\n" *)
Definition cross_mark : codepoint := 10060. (* U+274C, the incorrect marker *)
Definition check_mark : codepoint := 9989.  (* U+2705, the correct marker *)
End Char.

(** [Py_UNICODE_ISSPACE]: the characters removed by [str.strip()] and
    matched by [\s] in a [re] pattern over [str]. *)
Definition is_space (c : codepoint) : bool :=
  ((9 <=? c) && (c <=? 13)) || ((28 <=? c) && (c <=? 32))
  || (c =? 133) || (c =? 160) || (c =? 5760)
  || ((8192 <=? c) && (c <=? 8202))
  || (c =? 8232) || (c =? 8233) || (c =? 8239) || (c =? 8287)
  || (c =? 12288).

(** [str.lower()].  On text of Basic Latin and Latin-1 Supplement (U+0000
    to U+00FF) the built-in works one code point at a time: A-Z,
    U+00C0-U+00D6 and U+00D8-U+00DE move up by 32 and every other code
    point stays; [lower_cp] is that table.  On text with a code point
    above U+00FF the result depends on the Unicode tables of the
    interpreter and on the context of a character, and may be longer than
    the text; there the built-in is the parameter [lower_unicode] of
    [lower], about which nothing is assumed. *)
Definition lower_cp (c : codepoint) : codepoint :=
  if ((65 <=? c) && (c <=? 90))
     || ((192 <=? c) && (c <=? 214))
     || ((216 <=? c) && (c <=? 222))
  then c + 32 else c.

Definition is_latin1 (s : str) : bool := forallb (fun c => c <=? 255) s.

Definition lower (lower_unicode : str -> str) (s : str) : str :=
  if is_latin1 s then lower_cp <$> s else lower_unicode s.

Fixpoint drop_while (p : codepoint -> bool) (s : str) : str :=
  match s with
  | [] => []
  | c :: s' => if p c then drop_while p s' else s
  end.

Definition lstrip (s : str) : str := drop_while is_space s.
Definition rstrip (s : str) : str := reverse (drop_while is_space (reverse s)).

(** [s.strip()]: leading and trailing whitespace removed. *)
Definition strip (s : str) : str := rstrip (lstrip s).

(** [s.replace(old, new)] for a pattern [old] of one character, which is
    the only way the application calls it. *)
Definition replace (old : codepoint) (new : str) (s : str) : str :=
  s ≫= (fun c => if c =? old then new else [c]).

Definition startswith (p s : str) : bool := bool_decide (p `prefix_of` s).
Definition endswith (p s : str) : bool := bool_decide (p `suffix_of` s).

(** [s.split(sep)] for a separator of one character: never empty. *)
Fixpoint split (sep : codepoint) (s : str) : list str :=
  match s with
  | [] => [[]]
  | c :: s' =>
      if c =? sep then [] :: split sep s'
      else match split sep s' with
           | [] => [[c]]
           | l :: ls => (c :: l) :: ls
           end
  end.

(** [sep.join(parts)]. *)
Fixpoint join (sep : str) (parts : list str) : str :=
  match parts with
  | [] => []
  | [p] => p
  | p :: ps => p ++ sep ++ join sep ps
  end.

(** Truth value of a string or [None]: falsy when [None] or empty. *)
Definition truthy (o : option str) : bool :=
  match o with
  | Some (_ :: _) => true
  | _ => false
  end.

(** [l[i]] on a Python list: a negative index counts from the end, an
    index out of range raises [IndexError] ([None] here). *)
Definition getitem {A} (l : list A) (i : Z) : option A :=
  if (0 <=? i)%Z then l !! Z.to_nat i
  else if (- Z.of_nat (length l) <=? i)%Z
       then l !! Z.to_nat (Z.of_nat (length l) + i)
       else None.

(** ** Name normalisation

    [x.lower().strip().replace(" ", "").replace("-", "")], the chain applied
    in [handle_answer_submission_st] to the student's answer, the correct
    name, every alternative name and every common-error key. *)
Definition normalize (lower_unicode : str -> str) (s : str) : str :=
  replace Char.hyphen [] (replace Char.space [] (strip (lower lower_unicode s))).

(** ** Post-processing of the generated explanation *)

(** [re.sub(r'^[*-]\s*', '', line)]: a leading [*] or [-] and the
    whitespace after it are removed; the pattern is anchored at the start,
    so at most one bullet goes. *)
Definition re_sub_bullet (line : str) : str :=
  match line with
  | c :: rest =>
      if (c =? Char.asterisk) || (c =? Char.hyphen)
      then drop_while is_space rest
      else line
  | [] => []
  end.

(** [processed_line_content] of a raw [line]. *)
Definition processed_line_content (line : str) : str :=
  let cleaned_line_for_processing := strip line in
  re_sub_bullet cleaned_line_for_processing.

Definition is_step (p : str) : bool := startswith (lit "Step ") p.
Definition is_error_step (p : str) : bool :=
  startswith (lit "Step ") p && endswith [Char.cross_mark] p.
Definition is_comment (p : str) : bool := startswith (lit "Comment:") p.

(** One iteration of the [for line in lines] loop on the pair
    [(result_lines, last_step_was_error)]. *)
Definition extract_line (acc : list str * bool) (line : str) : list str * bool :=
  let '(result_lines, last_step_was_error) := acc in
  let p := processed_line_content line in
  if is_error_step p then (result_lines ++ [p], true)
  else if is_step p then (result_lines, false)
  else if is_comment p && last_step_was_error
       then (result_lines ++ [p], last_step_was_error)
       else (result_lines, last_step_was_error).

(** The lines of the block and the value of [result_lines] after the loop. *)
Definition lines_of (text_block : str) : list str :=
  split Char.newline (strip text_block).

Definition result_lines (text_block : str) : list str :=
  (foldl extract_line ([], false) (lines_of text_block)).1.

Definition html_list_item (res_line : str) : str :=
  lit "<li>"
  ++ replace Char.check_mark (Char.check_mark :: lit " (Correct)")
       (replace Char.cross_mark (Char.cross_mark :: lit " (Incorrect)") res_line)
  ++ lit "</li>".

Definition extract_error_steps_and_comments (text_block : str) : str :=
  match result_lines text_block with
  | [] => []
  | rl => lit "<ul>" ++ join [] (html_list_item <$> rl) ++ lit "</ul>"
  end.

(** The loop again, as a recursion on the processed lines: what is appended
    to [result_lines] from a list of processed lines when the loop reaches
    it with the flag [last_step_was_error]. *)
Fixpoint retained (last_step_was_error : bool) (processed : list str) : list str :=
  match processed with
  | [] => []
  | p :: rest =>
      if is_error_step p then p :: retained true rest
      else if is_step p then retained false rest
      else if is_comment p && last_step_was_error
           then p :: retained last_step_was_error rest
           else retained last_step_was_error rest
  end.

(** ** The question bank *)

Local Open Scope Z_scope.

Record common_error := CommonError {
  incorrect_name : str;
  explanation : str
}.

(** The value under the key ['alternative_names'] of a problem: the key may
    be missing, and may hold one string or a list of strings. *)
Inductive alternative_names_value :=
| AltMissing
| AltStr (alt : str)
| AltList (alts : list str).

(** A problem of the bank: a dictionary with the keys ['smiles'] and
    ['name'], which are read with [p[...]], and the keys read with
    [p.get(...)] or tested with [in], which may be missing. *)
Record problem := Problem {
  smiles : str;
  name : str;
  condensed : option str;
  category : option str;
  difficulty : option str;
  alternative_names : alternative_names_value;
  common_errors : option (list common_error)
}.

Global Instance common_error_eq_dec : EqDecision common_error.
Proof. solve_decision. Defined.
Global Instance alternative_names_value_eq_dec : EqDecision alternative_names_value.
Proof. solve_decision. Defined.
Global Instance problem_eq_dec : EqDecision problem.
Proof. solve_decision. Defined.

(** A dictionary literal of the bank, with its five keys. *)
Definition mk_problem (smiles name condensed category difficulty : string) : problem :=
  {| smiles := lit smiles; name := lit name; condensed := Some (lit condensed);
     category := Some (lit category); difficulty := Some (lit difficulty);
     alternative_names := AltMissing; common_errors := None |}.

Definition practice_problems : list problem := [
    mk_problem "C" "methane" "CH4" "Straight-chain Alkane" "Easy";
    mk_problem "CC" "ethane" "CH3CH3" "Straight-chain Alkane" "Easy";
    mk_problem "CCC" "propane" "CH3CH2CH3" "Straight-chain Alkane" "Easy";
    mk_problem "CCCC" "butane" "CH3CH2CH2CH3" "Straight-chain Alkane" "Medium";
    mk_problem "CCCCC" "pentane" "CH3(CH2)3CH3" "Straight-chain Alkane" "Medium";
    mk_problem "CCCCCC" "hexane" "CH3(CH2)4CH3" "Straight-chain Alkane" "Medium";
    mk_problem "CCCCCCC" "heptane" "CH3(CH2)5CH3" "Straight-chain Alkane" "Difficult";
    mk_problem "CCCCCCCC" "octane" "CH3(CH2)6CH3" "Straight-chain Alkane" "Difficult";
    mk_problem "CC(C)C" "2-methylpropane" "CH3CH(CH3)CH3" "Branched Alkane" "Easy";
    mk_problem "CC(C)CC" "2-methylbutane" "CH3CH(CH3)CH2CH3" "Branched Alkane" "Medium";
    mk_problem "CCC(C)CC" "3-methylpentane" "CH3CH2CH(CH3)CH2CH3" "Branched Alkane" "Medium";
    mk_problem "CC(C)(C)C" "2,2-dimethylpropane" "C(CH3)4" "Branched Alkane" "Medium";
    mk_problem "CC(C)CCC" "2-methylpentane" "CH3CH(CH3)CH2CH2CH3" "Branched Alkane" "Medium";
    mk_problem "CC(C)C(C)C" "2,3-dimethylbutane" "CH3CH(CH3)CH(CH3)CH3" "Branched Alkane" "Hard";
    mk_problem "CCC(C)(C)CC" "3,3-dimethylpentane" "CH3CH2C(CH3)2CH2CH3" "Branched Alkane" "Hard";
    mk_problem "CC(C)CC(C)C" "2,4-dimethylpentane" "CH3CH(CH3)CH2CH(CH3)CH3" "Branched Alkane" "Hard";
    mk_problem "CCC(CC)CCC" "4-ethylheptane" "CH3CH2CH2CH(CH2CH3)CH2CH2CH3" "Branched Alkane" "Hard";
    mk_problem "CC(C)(C)CC(C)C" "2,2,4-trimethylpentane" "(CH3)3CCH2CH(CH3)CH3" "Branched Alkane" "Hard";
    mk_problem "C=C" "ethene" "CH2=CH2" "Alkene" "Easy";
    mk_problem "CC=C" "propene" "CH3CH=CH2" "Alkene" "Easy";
    mk_problem "C=CCC" "but-1-ene" "CH2=CHCH2CH3" "Alkene" "Medium";
    mk_problem "CC=CC" "but-2-ene" "CH3CH=CHCH3" "Alkene" "Medium";
    mk_problem "C=CCCC" "pent-1-ene" "CH2=CHCH2CH2CH3" "Alkene" "Medium";
    mk_problem "CC=CCC" "pent-2-ene" "CH3CH=CHCH2CH3" "Alkene" "Medium";
    mk_problem "CC(C)C=C" "3-methylbut-1-ene" "CH3CH(CH3)CH=CH2" "Alkene" "Medium";
    mk_problem "C=C(C)CC" "2-methylbut-1-ene" "CH2=C(CH3)CH2CH3" "Alkene" "Hard";
    mk_problem "CC=C(C)C" "2-methylbut-2-ene" "CH3CH=C(CH3)CH3" "Alkene" "Hard";
    mk_problem "CCC(C)=CCC" "3-methylhex-3-ene" "CH3CH2C(CH3)=CHCH2CH3" "Alkene" "Hard";
    mk_problem "C(Cl)" "chloromethane" "CH3Cl" "Haloalkane" "Easy";
    mk_problem "CCBr" "bromoethane" "CH3CH2Br" "Haloalkane" "Easy";
    mk_problem "CI" "iodomethane" "CH3I" "Haloalkane" "Easy";
    mk_problem "CF" "fluoromethane" "CH3F" "Haloalkane" "Easy";
    mk_problem "CCCI" "1-iodopropane" "CH3CH2CH2I" "Haloalkane" "Medium";
    mk_problem "CC(I)C" "2-iodopropane" "CH3CHICH3" "Haloalkane" "Medium";
    mk_problem "CCCCl" "1-chloropropane" "CH3CH2CH2Cl" "Haloalkane" "Medium";
    mk_problem "CC(Cl)C" "2-chloropropane" "CH3CHClCH3" "Haloalkane" "Medium";
    mk_problem "C(F)(F)F" "trifluoromethane" "CHF3" "Haloalkane" "Medium";
    mk_problem "CC(Br)CC" "2-bromobutane" "CH3CHBrCH2CH3" "Haloalkane" "Medium";
    mk_problem "ClCCBr" "1-bromo-2-chloroethane" "ClCH2CH2Br" "Haloalkane" "Hard";
    mk_problem "CC(Cl)(I)C" "2-chloro-2-iodopropane" "CH3C(Cl)(I)CH3" "Haloalkane" "Hard";
    mk_problem "FC(Cl)I" "chlorofluoroiodomethane" "CHFClI" "Haloalkane" "Hard";
    mk_problem "CO" "methanol" "CH3OH" "Alkanol" "Easy";
    mk_problem "CCO" "ethanol" "CH3CH2OH" "Alkanol" "Easy";
    mk_problem "CCCO" "propan-1-ol" "CH3CH2CH2OH" "Alkanol" "Medium";
    mk_problem "CC(O)C" "propan-2-ol" "CH3CH(OH)CH3" "Alkanol" "Medium";
    mk_problem "CCCCO" "butan-1-ol" "CH3CH2CH2CH2OH" "Alkanol" "Medium";
    mk_problem "CC(O)CC" "butan-2-ol" "CH3CH(OH)CH2CH3" "Alkanol" "Medium";
    mk_problem "CC(C)(O)C" "2-methylpropan-2-ol" "(CH3)3COH" "Alkanol" "Hard";
    mk_problem "CC(C)CO" "2-methylpropan-1-ol" "CH3CH(CH3)CH2OH" "Alkanol" "Hard";
    mk_problem "CCC(O)CC" "pentan-3-ol" "CH3CH2CH(OH)CH2CH3" "Alkanol" "Hard";
    mk_problem "CC(O)C(O)C" "butane-2,3-diol" "CH3CH(OH)CH(OH)CH3" "Alkanol" "Hard";
    mk_problem "C(=O)O" "methanoic acid" "HCOOH" "Carboxylic Acid" "Easy";
    mk_problem "CC(=O)O" "ethanoic acid" "CH3COOH" "Carboxylic Acid" "Easy";
    mk_problem "CCC(=O)O" "propanoic acid" "CH3CH2COOH" "Carboxylic Acid" "Medium";
    mk_problem "CCCC(=O)O" "butanoic acid" "CH3CH2CH2COOH" "Carboxylic Acid" "Medium";
    mk_problem "CC(C)C(=O)O" "2-methylpropanoic acid" "CH3CH(CH3)COOH" "Carboxylic Acid" "Medium";
    mk_problem "CCCCC(=O)O" "pentanoic acid" "CH3CH2CH2CH2COOH" "Carboxylic Acid" "Hard";
    mk_problem "CC(C)CC(=O)O" "3-methylbutanoic acid" "CH3CH(CH3)CH2COOH" "Carboxylic Acid" "Hard";
    mk_problem "C(C(=O)O)C(=O)O" "propanedioic acid" "HOOCCH2COOH" "Carboxylic Acid" "Hard";
    mk_problem "CC(Cl)C(=O)O" "2-chloropropanoic acid" "CH3CH(Cl)COOH" "Carboxylic Acid" "Hard";
    mk_problem "CC(O)C=C" "but-3-en-2-ol" "CH2=CHCH(OH)CH3" "Mixed Functional Groups" "Medium";
    mk_problem "C=CCCO" "but-3-en-1-ol" "CH2=CHCH2CH2OH" "Mixed Functional Groups" "Medium";
    mk_problem "CC=CC(O)C" "pent-3-en-2-ol" "CH3CH=CHCH(OH)CH3" "Mixed Functional Groups" "Hard";
    mk_problem "C=C(C)CO" "2-methylprop-2-en-1-ol" "CH2=C(CH3)CH2OH" "Mixed Functional Groups" "Hard";
    mk_problem "OCCBr" "2-bromoethanol" "HOCH2CH2Br" "Mixed Functional Groups" "Medium";
    mk_problem "ClCC(O)C" "1-chloropropan-2-ol" "ClCH2CH(OH)CH3" "Mixed Functional Groups" "Medium";
    mk_problem "CC(O)CI" "1-iodopropan-2-ol" "ICH2CH(OH)CH3" "Mixed Functional Groups" "Hard";
    mk_problem "C=CC(Br)CO" "2-bromobut-3-en-1-ol" "CH2=CHCH(Br)CH2OH" "Mixed Functional Groups" "Hard";
    mk_problem "C=CCl" "chloroethene" "CH2=CHCl" "Mixed Functional Groups" "Easy";
    mk_problem "BrC=C" "bromoethene" "CHBr=CH2" "Mixed Functional Groups" "Easy";
    mk_problem "C=CI" "iodoethene" "CH2=CHI" "Mixed Functional Groups" "Easy";
    mk_problem "ClC=CCl" "1,2-dichloroethene" "CHCl=CHCl" "Mixed Functional Groups" "Medium";
    mk_problem "C=CCBr" "3-bromoprop-1-ene" "CH2=CHCH2Br" "Mixed Functional Groups" "Medium";
    mk_problem "C=CC(=O)O" "propenoic acid" "CH2=CHCOOH" "Mixed Functional Groups" "Medium";
    mk_problem "CC=CC(=O)O" "but-2-enoic acid" "CH3CH=CHCOOH" "Mixed Functional Groups" "Medium";
    mk_problem "C=C(C)C(=O)O" "2-methylpropenoic acid" "CH2=C(CH3)COOH" "Mixed Functional Groups" "Hard";
    mk_problem "ClCC(=O)O" "chloroethanoic acid" "ClCH2COOH" "Mixed Functional Groups" "Medium";
    mk_problem "BrCCC(=O)O" "3-bromopropanoic acid" "BrCH2CH2COOH" "Mixed Functional Groups" "Medium";
    mk_problem "CC(I)C(=O)O" "2-iodopropanoic acid" "CH3CH(I)COOH" "Mixed Functional Groups" "Hard";
    mk_problem "ClC(Cl)C(=O)O" "2,2-dichloroethanoic acid" "Cl2CHCOOH" "Mixed Functional Groups" "Hard";
    mk_problem "ClC=CC(O)C" "1-chlorobut-1-en-3-ol" "ClCH=CHCH(OH)CH3" "Mixed Functional Groups" "Hard";
    mk_problem "CC(Br)=CC(=O)O" "3-bromobut-2-enoic acid" "CH3C(Br)=CHCOOH" "Mixed Functional Groups" "Hard";
    mk_problem "OCC(Cl)C=C" "3-chlorobut-3-en-1-ol" "HOCH2CH(Cl)C=CH2" "Mixed Functional Groups" "Hard";
    mk_problem "CC(O)C(C)C(=O)O" "2-hydroxy-3-methylbutanoic acid" "CH3CH(OH)CH(CH3)COOH" "Mixed Functional Groups" "Hard";
    mk_problem "C=C(Cl)C(C)(O)C" "3-chloro-2-methylbut-3-en-2-ol" "CH2=C(Cl)C(CH3)(OH)CH3" "Mixed Functional Groups" "Hard";
    mk_problem "BrC(C)=CC(O)C" "4-bromopent-3-en-2-ol" "BrCH(CH3)C=CHCH(OH)CH3" "Mixed Functional Groups" "Hard";
    mk_problem "CC(O)C=C(Br)C" "4-bromopent-3-en-2-ol" "CH3CH(OH)CH=C(Br)CH3" "Mixed Functional Groups" "Hard";
    mk_problem "CCC(O)C=C" "pent-1-en-3-ol" "CH3CH2CH(OH)CH=CH2" "Mixed Functional Groups" "Medium";
    mk_problem "CC(Cl)C(O)CC" "2-chloropentan-3-ol" "CH3CH(Cl)CH(OH)CH2CH3" "Mixed Functional Groups" "Hard";
    mk_problem "C=C(Br)CCC(=O)O" "4-bromopent-4-enoic acid" "CH2=C(Br)CH2CH2COOH" "Mixed Functional Groups" "Hard";
    mk_problem "OCC=CCO" "but-2-ene-1,4-diol" "HOCH2CH=CHCH2OH" "Mixed Functional Groups" "Hard";
    mk_problem "ClCC(Cl)CO" "2,3-dichloropropan-1-ol" "ClCH2CH(Cl)CH2OH" "Mixed Functional Groups" "Hard";
    mk_problem "C=CC(Br)CO" "2-bromobut-3-en-1-ol" "CH2=CHCH(Br)CH2OH" "Mixed Functional Groups" "Hard";
    mk_problem "CC(Cl)=CCC(=O)O" "4-chloropent-3-enoic acid" "CH3C(Cl)=CHCH2COOH" "Mixed Functional Groups" "Hard";
    mk_problem "CC(I)C=C" "3-iodobut-1-ene" "CH3CH(I)CH=CH2" "Mixed Functional Groups" "Hard";
    mk_problem "O=C(O)C=CC(=O)O" "butenedioic acid" "HOOCCH=CHCOOH" "Mixed Functional Groups" "Hard"
].

(** ** The session state *)

Inductive stage := Setup | Quiz | Results.
Inductive formula_type := Skeletal | Full | Condensed.

Global Instance stage_eq_dec : EqDecision stage.
Proof. solve_decision. Defined.


Record session := Session {
  app_stage : stage;
  selected_categories : list str;
  selected_difficulties : list str;
  num_problems_requested : Z;
  quiz_problems_list : list problem;
  problem_index : Z;
  total_problems_in_quiz : Z;
  current_score : Z;
  current_mol_smiles : option str;
  current_correct_name : str;
  current_alternative_names : list str;
  student_answer : str;
  is_current_problem_answered : bool;
  is_current_problem_correct : bool;
  feedback_message : str;
  ai_explanation : str;
  last_selected_formula_type : formula_type;
  disable_answer_input : bool;
  disable_formula_dropdown : bool
}.

(** Assignment to one key of [st.session_state]. *)
Definition set_app_stage (v : stage) (s : session) : session :=
  let 'Session _ x1 x2 x3 x4 x5 x6 x7 x8 x9 x10 x11 x12 x13 x14 x15 x16 x17 x18 := s in
  Session v x1 x2 x3 x4 x5 x6 x7 x8 x9 x10 x11 x12 x13 x14 x15 x16 x17 x18.
Definition set_selected_categories (v : list str) (s : session) : session :=
  let 'Session x0 _ x2 x3 x4 x5 x6 x7 x8 x9 x10 x11 x12 x13 x14 x15 x16 x17 x18 := s in
  Session x0 v x2 x3 x4 x5 x6 x7 x8 x9 x10 x11 x12 x13 x14 x15 x16 x17 x18.
Definition set_selected_difficulties (v : list str) (s : session) : session :=
  let 'Session x0 x1 _ x3 x4 x5 x6 x7 x8 x9 x10 x11 x12 x13 x14 x15 x16 x17 x18 := s in
  Session x0 x1 v x3 x4 x5 x6 x7 x8 x9 x10 x11 x12 x13 x14 x15 x16 x17 x18.
Definition set_num_problems_requested (v : Z) (s : session) : session :=
  let 'Session x0 x1 x2 _ x4 x5 x6 x7 x8 x9 x10 x11 x12 x13 x14 x15 x16 x17 x18 := s in
  Session x0 x1 x2 v x4 x5 x6 x7 x8 x9 x10 x11 x12 x13 x14 x15 x16 x17 x18.
Definition set_quiz_problems_list (v : list problem) (s : session) : session :=
  let 'Session x0 x1 x2 x3 _ x5 x6 x7 x8 x9 x10 x11 x12 x13 x14 x15 x16 x17 x18 := s in
  Session x0 x1 x2 x3 v x5 x6 x7 x8 x9 x10 x11 x12 x13 x14 x15 x16 x17 x18.
Definition set_problem_index (v : Z) (s : session) : session :=
  let 'Session x0 x1 x2 x3 x4 _ x6 x7 x8 x9 x10 x11 x12 x13 x14 x15 x16 x17 x18 := s in
  Session x0 x1 x2 x3 x4 v x6 x7 x8 x9 x10 x11 x12 x13 x14 x15 x16 x17 x18.
Definition set_total_problems_in_quiz (v : Z) (s : session) : session :=
  let 'Session x0 x1 x2 x3 x4 x5 _ x7 x8 x9 x10 x11 x12 x13 x14 x15 x16 x17 x18 := s in
  Session x0 x1 x2 x3 x4 x5 v x7 x8 x9 x10 x11 x12 x13 x14 x15 x16 x17 x18.
Definition set_current_score (v : Z) (s : session) : session :=
  let 'Session x0 x1 x2 x3 x4 x5 x6 _ x8 x9 x10 x11 x12 x13 x14 x15 x16 x17 x18 := s in
  Session x0 x1 x2 x3 x4 x5 x6 v x8 x9 x10 x11 x12 x13 x14 x15 x16 x17 x18.
Definition set_current_mol_smiles (v : option str) (s : session) : session :=
  let 'Session x0 x1 x2 x3 x4 x5 x6 x7 _ x9 x10 x11 x12 x13 x14 x15 x16 x17 x18 := s in
  Session x0 x1 x2 x3 x4 x5 x6 x7 v x9 x10 x11 x12 x13 x14 x15 x16 x17 x18.
Definition set_current_correct_name (v : str) (s : session) : session :=
  let 'Session x0 x1 x2 x3 x4 x5 x6 x7 x8 _ x10 x11 x12 x13 x14 x15 x16 x17 x18 := s in
  Session x0 x1 x2 x3 x4 x5 x6 x7 x8 v x10 x11 x12 x13 x14 x15 x16 x17 x18.
Definition set_current_alternative_names (v : list str) (s : session) : session :=
  let 'Session x0 x1 x2 x3 x4 x5 x6 x7 x8 x9 _ x11 x12 x13 x14 x15 x16 x17 x18 := s in
  Session x0 x1 x2 x3 x4 x5 x6 x7 x8 x9 v x11 x12 x13 x14 x15 x16 x17 x18.
Definition set_student_answer (v : str) (s : session) : session :=
  let 'Session x0 x1 x2 x3 x4 x5 x6 x7 x8 x9 x10 _ x12 x13 x14 x15 x16 x17 x18 := s in
  Session x0 x1 x2 x3 x4 x5 x6 x7 x8 x9 x10 v x12 x13 x14 x15 x16 x17 x18.
Definition set_is_current_problem_answered (v : bool) (s : session) : session :=
  let 'Session x0 x1 x2 x3 x4 x5 x6 x7 x8 x9 x10 x11 _ x13 x14 x15 x16 x17 x18 := s in
  Session x0 x1 x2 x3 x4 x5 x6 x7 x8 x9 x10 x11 v x13 x14 x15 x16 x17 x18.
Definition set_is_current_problem_correct (v : bool) (s : session) : session :=
  let 'Session x0 x1 x2 x3 x4 x5 x6 x7 x8 x9 x10 x11 x12 _ x14 x15 x16 x17 x18 := s in
  Session x0 x1 x2 x3 x4 x5 x6 x7 x8 x9 x10 x11 x12 v x14 x15 x16 x17 x18.
Definition set_feedback_message (v : str) (s : session) : session :=
  let 'Session x0 x1 x2 x3 x4 x5 x6 x7 x8 x9 x10 x11 x12 x13 _ x15 x16 x17 x18 := s in
  Session x0 x1 x2 x3 x4 x5 x6 x7 x8 x9 x10 x11 x12 x13 v x15 x16 x17 x18.
Definition set_ai_explanation (v : str) (s : session) : session :=
  let 'Session x0 x1 x2 x3 x4 x5 x6 x7 x8 x9 x10 x11 x12 x13 x14 _ x16 x17 x18 := s in
  Session x0 x1 x2 x3 x4 x5 x6 x7 x8 x9 x10 x11 x12 x13 x14 v x16 x17 x18.
Definition set_last_selected_formula_type (v : formula_type) (s : session) : session :=
  let 'Session x0 x1 x2 x3 x4 x5 x6 x7 x8 x9 x10 x11 x12 x13 x14 x15 _ x17 x18 := s in
  Session x0 x1 x2 x3 x4 x5 x6 x7 x8 x9 x10 x11 x12 x13 x14 x15 v x17 x18.
Definition set_disable_answer_input (v : bool) (s : session) : session :=
  let 'Session x0 x1 x2 x3 x4 x5 x6 x7 x8 x9 x10 x11 x12 x13 x14 x15 x16 _ x18 := s in
  Session x0 x1 x2 x3 x4 x5 x6 x7 x8 x9 x10 x11 x12 x13 x14 x15 x16 v x18.
Definition set_disable_formula_dropdown (v : bool) (s : session) : session :=
  let 'Session x0 x1 x2 x3 x4 x5 x6 x7 x8 x9 x10 x11 x12 x13 x14 x15 x16 x17 _ := s in
  Session x0 x1 x2 x3 x4 x5 x6 x7 x8 x9 x10 x11 x12 x13 x14 x15 x16 x17 v.

(** [initialize_session_state]: the defaults. *)
Definition defaults : session :=
  {| app_stage := Setup;
     selected_categories := [];
     selected_difficulties := [];
     num_problems_requested := 5;
     quiz_problems_list := [];
     problem_index := 0;
     total_problems_in_quiz := 0;
     current_score := 0;
     current_mol_smiles := None;
     current_correct_name := [];
     current_alternative_names := [];
     student_answer := [];
     is_current_problem_answered := false;
     is_current_problem_correct := false;
     feedback_message := [];
     ai_explanation := [];
     last_selected_formula_type := Skeletal;
     disable_answer_input := false;
     disable_formula_dropdown := false |}.

(** ** Effects

    A function of the application reads and assigns [st.session_state],
    shows messages, calls the generation service, and may raise. *)

(** The texts shown by [st.warning] and [st.error]. *)
Inductive message :=
| NoProblemsFoundForCriteria   (* "No problems found for the selected criteria. ..." *)
| NoProblemsMatchCombination   (* "No problems match your specific combination ..." *)
| NoPracticeProblemsAtAll      (* "No practice problems available at all. ..." *)
| NotEnoughProblems            (* "Not enough problems available to run the quiz ..." *)
| ErrorLoadingSmiles (smiles : option str) (number : Z)
| ErrorCallingGemini (e : str)
| CurrentProblemCouldNotBeLoaded (* "The current problem could not be loaded. ..." *)
| QuizNotProperlyInitialized.  (* "Quiz not properly initialized. Returning to setup." *)

Inductive event :=
| st_warning (m : message)
| st_error (m : message)
| st_balloons
| generate_content_request (student_answer correct_iupac_name : str).

Inductive exn := IndexError | ValueError.

Inductive outcome (A : Type) :=
| Returned (a : A) (s : session) (out : list event)
| Raised (e : exn) (s : session) (out : list event).
Arguments Returned {A} a s out.
Arguments Raised {A} e s out.

Definition state_of {A} (o : outcome A) : session :=
  match o with Returned _ s _ | Raised _ s _ => s end.
Definition events_of {A} (o : outcome A) : list event :=
  match o with Returned _ _ out | Raised _ _ out => out end.
Definition returned {A} (o : outcome A) : bool :=
  match o with Returned _ _ _ => true | Raised _ _ _ => false end.

Definition M (A : Type) : Type := session -> outcome A.

Global Instance M_ret : MRet M := fun A a s => Returned a s [].
Global Instance M_bind : MBind M := fun A B f m s =>
  match m s with
  | Returned a s' out =>
      match f a s' with
      | Returned b s'' out' => Returned b s'' (out ++ out')
      | Raised e s'' out' => Raised e s'' (out ++ out')
      end
  | Raised e s' out => Raised e s' out
  end.

Definition gets {A} (f : session -> A) : M A := fun s => Returned (f s) s [].
Definition modify (f : session -> session) : M unit := fun s => Returned () (f s) [].
Definition emit (e : event) : M unit := fun s => Returned () s [e].
Definition raise {A} (e : exn) : M A := fun s => Raised e s [].
Definition pass : M unit := mret ().

Definition nonempty {A} (l : list A) : bool :=
  match l with [] => false | _ :: _ => true end.

(** ** Sampling

    [random.sample(population, k)] raises [ValueError] unless
    [0 <= k <= len(population)], and otherwise returns the elements at [k]
    pairwise distinct positions of the population, chosen by the generator.
    The raw draws of the generator are the stream [draws]; the positions
    are derived from them as in the library's pool loop:
    [j = randbelow(n - i); result[i] = pool[j]; pool[j] = pool[n - i - 1]]. *)
Fixpoint sample_pool {A} (draws : nat -> nat) (i : nat) (pool : list A) (k : nat)
  : list A :=
  match k with
  | O => []
  | S k' =>
      let m := length pool in
      let j := (draws i mod m)%nat in
      match pool !! j, pool !! (m - 1)%nat with
      | Some x, Some y =>
          x :: sample_pool draws (S i) (take (m - 1)%nat (<[j := y]> pool)) k'
      | _, _ => []
      end
  end.

Definition random_sample {A} (draws : nat -> nat) (population : list A) (k : Z)
  : option (list A) :=
  if (0 <=? k) && (k <=? Z.of_nat (length population))
  then Some (sample_pool draws 0%nat population (Z.to_nat k))
  else None.

(** ** Sessions used as examples *)

Definition propan_2_ol : problem :=
  mk_problem "CC(O)C" "propan-2-ol" "CH3CH(OH)CH3" "Alkanol" "Medium".

(** A quiz of one problem, loaded and waiting for the answer typed in. *)
Definition waiting_session (problem_spec : problem) (typed : string) : session :=
  {| app_stage := Quiz;
     selected_categories := [];
     selected_difficulties := [];
     num_problems_requested := 1;
     quiz_problems_list := [problem_spec];
     problem_index := 0;
     total_problems_in_quiz := 1;
     current_score := 0;
     current_mol_smiles := Some (smiles problem_spec);
     current_correct_name := name problem_spec;
     current_alternative_names :=
       match alternative_names problem_spec with
       | AltMissing => []
       | AltStr alt_names => [alt_names]
       | AltList alt_names => alt_names
       end;
     student_answer := lit typed;
     is_current_problem_answered := false;
     is_current_problem_correct := false;
     feedback_message := [];
     ai_explanation := [];
     last_selected_formula_type := Skeletal;
     disable_answer_input := false;
     disable_formula_dropdown := false |}.

(** Propan-2-ol with one alternative name held as a plain string and two
    curated explanations whose keys normalise to the same text. *)
Definition propan_2_ol_curated : problem :=
  {| smiles := lit "CC(O)C"; name := lit "propan-2-ol";
     condensed := Some (lit "CH3CH(OH)CH3");
     category := Some (lit "Alkanol"); difficulty := Some (lit "Medium");
     alternative_names := AltStr (lit "isopropanol");
     common_errors := Some [
       {| incorrect_name := lit "propan-1-ol";
          explanation := lit "The hydroxyl group is on carbon 2." |};
       {| incorrect_name := lit "Propan 1 ol";
          explanation := lit "#2: number from the end nearer to the OH group." |}
     ] |}.

(** ** The application *)

(** An entry of the store of [st.cache_data] for
    [get_ai_nomenclature_explanation_st]: the value the earlier call
    returned, and the texts it showed with [st.error], which Streamlit
    shows again when the entry is used (it replays the static elements of
    a cached call).  Nothing is assumed about an entry: it may hold any
    value and any texts, none included. *)
Record cached_call := CachedCall {
  cached_value : str;
  cached_messages : list message
}.

(** What the store holds, when a call is made, for each
    [(student_answer, correct_iupac_name, smiles_string)].  The store
    belongs to the server process and is shared by every session. *)
Definition explanation_cache : Type :=
  str -> str -> option str -> option cached_call.

(** The messages of a cached call, shown again. *)
Definition replay (messages : list message) : M unit :=
  fun s => Returned () s (st_error <$> messages).

Section App.

(** The global [practice_problems]; the bank shipped with the application
    is [practice_problems] above. *)
Variable catalog : list problem.
(** The raw draws of the random generator during one quiz set-up. *)
Variable draws : nat -> nat.
(** Whether [Chem.MolFromSmiles] returns a molecule for a SMILES string. *)
Variable MolFromSmiles : str -> bool.
(** The global [genai_service_available]; [genai_model] is set with it. *)
Variable genai_service_available : bool.
(** [genai_model.models.generate_content] for the prompt built from the
    student's answer and the correct name: the text of the response, or
    the text of the exception it raises. *)
Variable generate_content : str -> str -> str + str.
(** [str.lower()] on a text with a code point above U+00FF. *)
Variable lower_unicode : str -> str.

(** [get_ai_nomenclature_explanation_st] under [@st.cache_data]: when the
    store [cache_data] has an entry for the three arguments the body does
    not run, the entry's messages are shown again and its value is
    returned; otherwise the body runs (and Streamlit stores its result,
    which later calls find in their [cache_data]). *)
Definition get_ai_nomenclature_explanation_st (cache_data : explanation_cache)
    (student_answer correct_iupac_name : str) (smiles_string : option str)
  : M str :=
  match cache_data student_answer correct_iupac_name smiles_string with
  | Some entry =>
      replay (cached_messages entry);;
      mret (cached_value entry)
  | None =>
      if negb genai_service_available
      then mret (lit "AI explanation service is not available.")
      else
        emit (generate_content_request student_answer correct_iupac_name);;
        match generate_content student_answer correct_iupac_name with
        | inl explanation => mret (extract_error_steps_and_comments explanation)
        | inr e =>
            emit (st_error (ErrorCallingGemini e));;
            mret (lit "Error calling Gemini API: " ++ e)
        end
  end.

(** The header put before a curated explanation. *)
Definition explanation_part (error_entry : common_error) : str :=
  lit "<hr><b>Explanation for your answer:</b><br>" ++ explanation error_entry.

(** The loop over [problem_spec['common_errors']], which stops at the
    first entry whose key matches: the feedback parts and
    [custom_explanation_found]. *)
Fixpoint scan_common_errors (processed_student_answer : str)
    (entries : list common_error) (feedback_parts : list str)
  : list str * bool :=
  match entries with
  | [] => (feedback_parts, false)
  | error_entry :: rest =>
      let processed_incorrect_name :=
        normalize lower_unicode (incorrect_name error_entry) in
      if bool_decide (processed_student_answer = processed_incorrect_name)
      then (feedback_parts ++ [explanation_part error_entry], true)
      else scan_common_errors processed_student_answer rest feedback_parts
  end.

(** [feedback_parts] as first built for an incorrect answer. *)
Definition incorrect_feedback_parts
    (student_answer correct_name : str) (alternative_names : list str)
  : list str := [
    lit "<p style='color:red; font-weight:bold; font-size:1.1em;'>Incorrect.</p>";
    lit "Your answer: <code>" ++ student_answer ++ lit "</code>";
    lit "Correct answer(s): <strong><code>" ++ correct_name
      ++ lit "</code></strong>"
      ++ (if nonempty alternative_names
          then lit " or <strong><code>"
               ++ join (lit ", ") alternative_names
               ++ lit "</code></strong>"
          else [])
  ].

Definition handle_answer_submission_st (cache_data : explanation_cache)
  : M unit :=
  answered ← gets is_current_problem_answered;
  if answered : bool then pass
  else
    student_answer ← gets student_answer;
    correct_name ← gets current_correct_name;
    alternative_names ← gets current_alternative_names;
    let processed_student_answer := normalize lower_unicode student_answer in
    let processed_correct_name := normalize lower_unicode correct_name in
    let processed_alt_names := normalize lower_unicode <$> alternative_names in
    let is_correct :=
      bool_decide (processed_student_answer = processed_correct_name)
      || bool_decide (processed_student_answer ∈ processed_alt_names) in
    modify (set_is_current_problem_answered true);;
    modify (set_disable_answer_input true);;
    modify (set_disable_formula_dropdown true);;
    if is_correct then
      modify (set_is_current_problem_correct true);;
      modify (fun s => set_current_score (current_score s + 1) s);;
      modify (set_feedback_message
                (lit "<p style='color:green; font-weight:bold; font-size:1.1em;'>Correct! The name is "
                 ++ correct_name ++ lit ".</p>"));;
      emit st_balloons
    else
      modify (set_is_current_problem_correct false);;
      let feedback_parts :=
        incorrect_feedback_parts student_answer correct_name alternative_names in
      problems ← gets quiz_problems_list;
      index ← gets problem_index;
      match getitem problems index with
      | None => raise IndexError
      | Some problem_spec =>
          let '(feedback_parts, custom_explanation_found) :=
            match common_errors problem_spec with
            | Some entries =>
                scan_common_errors processed_student_answer entries feedback_parts
            | None => (feedback_parts, false)
            end in
          modify (set_feedback_message (join (lit "<br>") feedback_parts));;
          if negb custom_explanation_found && genai_service_available then
            current_smiles ← gets current_mol_smiles;
            text ← get_ai_nomenclature_explanation_st cache_data
                     student_answer correct_name current_smiles;
            modify (set_ai_explanation text)
          else
            modify (set_ai_explanation [])
      end.

(** [load_current_problem_details].  The keys of the session state all
    exist once [initialize_session_state] has run, so the test for
    missing keys at its head never fires. *)
Definition load_current_problem_details : M unit :=
  index ← gets problem_index;
  total ← gets total_problems_in_quiz;
  if index <? total then
    problems ← gets quiz_problems_list;
    match getitem problems index with
    | None => raise IndexError
    | Some problem_spec =>
        modify (set_current_mol_smiles (Some (smiles problem_spec)));;
        modify (set_current_correct_name (name problem_spec));;
        modify (set_current_alternative_names
                  match alternative_names problem_spec with
                  | AltMissing => []
                  | AltStr alt_names => [alt_names]
                  | AltList alt_names => alt_names
                  end);;
        if negb (MolFromSmiles (smiles problem_spec)) then
          emit (st_error (ErrorLoadingSmiles (Some (smiles problem_spec)) (index + 1)));;
          modify (set_is_current_problem_answered true);;
          modify (set_disable_answer_input true);;
          modify (set_disable_formula_dropdown true);;
          modify (set_feedback_message
                    (lit "<p style='color:orange; font-weight:bold;'>Problem Loading Error: This problem could not be loaded and will be skipped. Please click 'Next Problem'.</p>"));;
          modify (set_current_mol_smiles None)
        else pass
    end
  else
    modify (set_current_mol_smiles None).

Definition go_to_next_problem_callback : M unit :=
  modify (fun s => set_problem_index (problem_index s + 1) s);;
  modify (set_student_answer []);;
  modify (set_is_current_problem_answered false);;
  modify (set_is_current_problem_correct false);;
  modify (set_feedback_message []);;
  modify (set_ai_explanation []);;
  modify (set_disable_answer_input false);;
  modify (set_disable_formula_dropdown false);;
  index ← gets problem_index;
  total ← gets total_problems_in_quiz;
  if total <=? index then modify (set_app_stage Results)
  else load_current_problem_details.

Definition in_selection (tag : option str) (selected : list str) : bool :=
  match tag with
  | Some t => bool_decide (t ∈ selected)
  | None => false
  end.

(** [filtered_problems] after the two list comprehensions. *)
Definition filtered_problems (selected_cats selected_diffs : list str)
  : list problem :=
  let filtered := catalog in
  let filtered :=
    if nonempty selected_cats
    then filter (fun p => in_selection (category p) selected_cats) filtered
    else filtered in
  if nonempty selected_diffs
  then filter (fun p => in_selection (difficulty p) selected_diffs) filtered
  else filtered.

(** The part of [setup_new_quiz_st] from [num_req = ...] on. *)
Definition start_quiz (filtered_problems : list problem) : M unit :=
  num_req ← gets num_problems_requested;
  let actual_num_problems := Z.min num_req (Z.of_nat (length filtered_problems)) in
  if actual_num_problems =? 0 then emit (st_error NotEnoughProblems)
  else
    match random_sample draws filtered_problems actual_num_problems with
    | None => raise ValueError
    | Some sampled =>
        modify (set_quiz_problems_list sampled);;
        modify (set_total_problems_in_quiz actual_num_problems);;
        modify (set_problem_index 0);;
        modify (set_current_score 0);;
        modify (set_app_stage Quiz);;
        modify (set_student_answer []);;
        modify (set_is_current_problem_answered false);;
        modify (set_is_current_problem_correct false);;
        modify (set_feedback_message []);;
        modify (set_ai_explanation []);;
        modify (set_disable_answer_input false);;
        modify (set_disable_formula_dropdown false);;
        load_current_problem_details
    end.

Definition setup_new_quiz_st : M unit :=
  selected_cats ← gets selected_categories;
  selected_diffs ← gets selected_difficulties;
  let filtered := filtered_problems selected_cats selected_diffs in
  if negb (nonempty filtered) then
    emit (st_warning NoProblemsFoundForCriteria);;
    if nonempty selected_cats || nonempty selected_diffs
    then emit (st_error NoProblemsMatchCombination)
    else
      let filtered := catalog in
      if negb (nonempty filtered)
      then emit (st_error NoPracticeProblemsAtAll)
      else start_quiz filtered
  else start_quiz filtered.

(** *** The pages

    The state changes made while the script draws the quiz page, before
    its widgets: [display_quiz_page_st] up to the progress bar and the
    block that handles a failed load. *)
Definition display_quiz_page_st : M unit :=
  current_smiles ← gets current_mol_smiles;
  index ← gets problem_index;
  total ← gets total_problems_in_quiz;
  problems ← gets quiz_problems_list;
  (if negb (truthy current_smiles) && (index <? total) && nonempty problems
   then load_current_problem_details else pass);;
  current_smiles ← gets current_mol_smiles;
  if negb (truthy current_smiles) && (index <? total)
  then
    feedback ← gets feedback_message;
    (if nonempty feedback then pass
     else emit (st_error CurrentProblemCouldNotBeLoaded));;
    modify (set_is_current_problem_answered true)
  else pass.

(** One run of the script: the router under [__main__].  A quiz stage
    without problems falls back to the setup page.  Of a page only the
    changes to the session state and the messages of the functions above
    are kept; what it draws is left out. *)
Definition run_script : M unit :=
  app_stage ← gets app_stage;
  match app_stage with
  | Setup => pass
  | Quiz =>
      problems ← gets quiz_problems_list;
      total ← gets total_problems_in_quiz;
      if negb (nonempty problems) || (total =? 0) then
        emit (st_warning QuizNotProperlyInitialized);;
        modify (set_app_stage Setup)
      else display_quiz_page_st
  | Results => pass
  end.

(** *** What the user can do

    The "Start Practice" button of the setup page
    ([display_setup_page_st]), the "Submit Answer" button of the form and
    the "Next Problem" button of the quiz page.  A button that is drawn
    with [disabled=True], or on a page that is not drawn, cannot be
    pressed. *)
Inductive action :=
| start_practice
| submitAnswer (text : str)
| advance.

Definition enabled (a : action) (s : session) : bool :=
  match a with
  | start_practice => bool_decide (app_stage s = Setup)
  | submitAnswer _ =>
      bool_decide (app_stage s = Quiz)
      && negb (is_current_problem_answered s || negb (truthy (current_mol_smiles s)))
  | advance =>
      bool_decide (app_stage s = Quiz)
      && negb (negb (is_current_problem_answered s))
  end.

Definition perform (cache_data : explanation_cache) (a : action) : M unit :=
  match a with
  | start_practice =>
      setup_new_quiz_st;;
      app_stage ← gets app_stage;
      if bool_decide (app_stage = Quiz) then run_script else pass
  | submitAnswer text =>
      (* the text input is bound to the key 'student_answer' *)
      input_disabled ← gets (fun s =>
        disable_answer_input s || negb (truthy (current_mol_smiles s)));
      (if input_disabled : bool then pass else modify (set_student_answer text));;
      run_script;;
      app_stage ← gets app_stage;
      if bool_decide (app_stage = Quiz)
      then handle_answer_submission_st cache_data;; run_script
      else pass
  | advance =>
      (* on_click callback, then the script runs again *)
      go_to_next_problem_callback;;
      run_script
  end.

(** The sessions reached from [s0] by actions the pages allow, whatever
    the store of [st.cache_data] holds when each action is taken. *)
Inductive reachable (s0 : session) : session -> Prop :=
| reachable_here : reachable s0 s0
| reachable_step s a cache_data :
    reachable s0 s -> a <> start_practice -> enabled a s = true ->
    reachable s0 (state_of (perform cache_data a s)).

End App.

(** ** The invariant of a running quiz

    The total is the length of the problem list and the score is not
    negative; on the quiz page the index points into the list and the score
    is at most the number of problems answered so far; elsewhere the score
    is at most the total. *)
Definition quiz_invariant (s : session) : Prop :=
  total_problems_in_quiz s = Z.of_nat (length (quiz_problems_list s))
  /\ 0 <= current_score s
  /\ match app_stage s with
     | Quiz =>
         0 <= problem_index s < total_problems_in_quiz s
         /\ current_score s
            <= problem_index s + (if is_current_problem_answered s then 1 else 0)
     | Setup | Results => current_score s <= total_problems_in_quiz s
     end.

(** An outcome that returns, keeps the invariant and does not lower the
    score of the session [s] it started from. *)
Definition keeps_quiz (s : session) (o : outcome unit) : Prop :=
  returned o = true
  /\ quiz_invariant (state_of o)
  /\ current_score s <= current_score (state_of o).
From Stdlib Require Import Sorted.


(** ** The rest of the pages and the validation of the bank *)

(** [current_alternative_names] as [load_current_problem_details] derives
    it from a problem. *)
Definition alternative_names_list (problem_spec : problem) : list str :=
  match alternative_names problem_spec with
  | AltMissing => []
  | AltStr alt_names => [alt_names]
  | AltList alt_names => alt_names
  end.

(** The rule of the extraction, looking back from a line instead of
    carrying a flag: a processed line [p] with the processed lines [before]
    it is kept when it is an incorrect step, or when it is a comment and
    the most recent step line before it is an incorrect step. *)
Definition most_recent_step (before : list str) : option str :=
  last (filter (fun p => is_step p = true) before).

Definition keeps_line (before : list str) (p : str) : bool :=
  is_error_step p
  || (is_comment p
      && match most_recent_step before with
         | Some step => is_error_step step
         | None => false
         end).

Fixpoint kept_from (before rest : list str) : list str :=
  match rest with
  | [] => []
  | p :: rest' =>
      (if keeps_line before p then [p] else [])
      ++ kept_from (before ++ [p]) rest'
  end.

Definition kept_by_rule (processed : list str) : list str :=
  kept_from [] processed.

(** Values of the parameters for text of Latin-1 and a server whose store
    is empty: beyond Latin-1 nothing is lowered, and no call is cached. *)
Definition lower_nothing : str -> str := fun s => s.
Definition empty_cache : explanation_cache := fun _ _ _ => None.

(** Text of Latin-1 characters whose only whitespace is the space U+0020,
    as an answer typed into the one-line field usually is. *)
Definition plain_text (s : str) : Prop :=
  Forall (fun c => (c < 256)%N /\ (is_space c = true -> c = Char.space)) s.

(** The list comprehension of [display_setup_page_st] behind
    [ordered_categories_options] and [ordered_difficulties_options]: the
    truthy values of a key in the order of their first appearance, [seen]
    being the set of the values met so far. *)
Fixpoint ordered_options (tags : list (option str)) (seen : list str) : list str :=
  match tags with
  | [] => []
  | Some (c :: t) :: rest =>
      if bool_decide ((c :: t) ∈ seen) then ordered_options rest seen
      else (c :: t) :: ordered_options rest ((c :: t) :: seen)
  | _ :: rest => ordered_options rest seen
  end.

Definition ordered_categories_options (catalog : list problem) : list str :=
  ordered_options (category <$> catalog) [].

Definition ordered_difficulties_options (catalog : list problem) : list str :=
  ordered_options (difficulty <$> catalog) [].

(** [generate_condensed_formula]: the formula of the first problem of the
    bank with that SMILES string and a truthy ['condensed']. *)
Fixpoint generate_condensed_formula (catalog : list problem) (mol_smiles : str)
  : str :=
  match catalog with
  | [] => lit "Condensed formula not found for SMILES: " ++ mol_smiles
  | p :: rest =>
      match condensed p with
      | Some (c :: formula) =>
          if bool_decide (smiles p = mol_smiles) then c :: formula
          else generate_condensed_formula rest mol_smiles
      | _ => generate_condensed_formula rest mol_smiles
      end
  end.

(** The label of the button that calls [go_to_next_problem_callback], as
    [display_quiz_page_st] chooses it. *)
Inductive button_text := NextProblem | FinishPractice.

Definition next_button_text (s : session) : button_text :=
  if total_problems_in_quiz s <=? problem_index s + 1
  then FinishPractice else NextProblem.

(** *** [validate_smiles_in_practice_problems] *)

Inductive error_detail :=
| MissingSMILES                 (* "Missing SMILES" *)
| GeneralParsingError           (* "General parsing error." *)
| SmilesSyntaxError             (* "SMILES syntax error (failed even without sanitization)." *)
| SanitizationError (e : str).  (* "Sanitization error: " followed by the exception *)

(** An element of [invalid_smiles_entries]: the problem with the keys
    ['index'], ['error_type'] and, for a string that does not parse,
    ['original_smiles'] added. *)
Record invalid_smiles_entry := InvalidEntry {
  invalid_problem : problem;
  index : Z;
  error_type : error_detail;
  original_smiles : option str
}.

(** The lines of [validation_messages]. *)
Inductive validation_message :=
| ValidatingSmilesStrings       (* "--- Validating SMILES Strings ---" *)
| ProblemsListIsEmpty           (* "Practice problems list is empty." *)
| EntryHasNoSmiles (number : Z) (name : str)
| InvalidSmilesAtEntry (number : Z) (name smiles : str) (detail : error_detail)
| ZeroAtomsWarning (number : Z) (name smiles : str)
| AllSmilesValid                (* "All SMILES strings are valid!" *)
| FoundEntriesWithErrors (count : Z)
| ValidationComplete.           (* "--- Validation Complete ---" *)

Section Validation.

(** [Chem.MolFromSmiles(smiles, sanitize=True)]: [None], or the number of
    atoms of the molecule. *)
Variable MolFromSmiles_sanitized : str -> option Z.
(** Whether [Chem.MolFromSmiles(smiles, sanitize=False)] gives a molecule. *)
Variable MolFromSmiles_unsanitized : str -> bool.
(** The text of the exception [Chem.SanitizeMol] raises on that molecule,
    if it raises. *)
Variable SanitizeMol_exception : str -> option str.

(** The body of the loop for the problem at position [i] (from 0): the
    entries and the messages it appends. *)
Definition validate_problem (i : Z) (problem_spec : problem)
  : list invalid_smiles_entry * list validation_message :=
  let smiles := smiles problem_spec in
  let name := name problem_spec in
  if negb (nonempty smiles) then
    ([InvalidEntry problem_spec (i + 1) MissingSMILES None],
     [EntryHasNoSmiles (i + 1) name])
  else
    match MolFromSmiles_sanitized smiles with
    | None =>
        let error_detail :=
          if negb (MolFromSmiles_unsanitized smiles) then SmilesSyntaxError
          else match SanitizeMol_exception smiles with
               | Some e => SanitizationError e
               | None => GeneralParsingError
               end in
        ([InvalidEntry problem_spec (i + 1) error_detail (Some smiles)],
         [InvalidSmilesAtEntry (i + 1) name smiles error_detail])
    | Some atoms =>
        if (atoms =? 0) && nonempty (strip smiles)
        then ([], [ZeroAtomsWarning (i + 1) name smiles])
        else ([], [])
    end.

(** [for i, problem in enumerate(problems_list)], from position [i] on. *)
Fixpoint validate_from (i : Z) (problems_list : list problem)
  : list invalid_smiles_entry * list validation_message :=
  match problems_list with
  | [] => ([], [])
  | problem_spec :: rest =>
      let '(entries, messages) := validate_problem i problem_spec in
      let '(entries', messages') := validate_from (i + 1) rest in
      (entries ++ entries', messages ++ messages')
  end.

Definition validate_smiles_in_practice_problems (problems_list : list problem)
  : list invalid_smiles_entry * list validation_message :=
  if negb (nonempty problems_list)
  then ([], [ValidatingSmilesStrings; ProblemsListIsEmpty])
  else
    let '(invalid_smiles_entries, messages) := validate_from 0 problems_list in
    (invalid_smiles_entries,
     [ValidatingSmilesStrings] ++ messages
     ++ [if negb (nonempty invalid_smiles_entries) then AllSmilesValid
         else FoundEntriesWithErrors (Z.of_nat (length invalid_smiles_entries))]
     ++ [ValidationComplete]).

(** The problems the loop counts as errors: no SMILES string, or one that
    the sanitizing parser does not accept. *)
Definition smiles_rejected (problem_spec : problem) : Prop :=
  smiles problem_spec = [] \/ MolFromSmiles_sanitized (smiles problem_spec) = None.

#[global] Instance smiles_rejected_dec (problem_spec : problem) :
  Decision (smiles_rejected problem_spec).
Proof. unfold smiles_rejected. apply _. Defined.

(** What an entry of the report says about its problem. *)
Definition entry_describes (e : invalid_smiles_entry) : Prop :=
  (error_type e = MissingSMILES <-> smiles (invalid_problem e) = [])
  /\ original_smiles e
     = (if nonempty (smiles (invalid_problem e))
        then Some (smiles (invalid_problem e)) else None)
  /\ (forall text, error_type e = SanitizationError text ->
        MolFromSmiles_unsanitized (smiles (invalid_problem e)) = true
        /\ SanitizeMol_exception (smiles (invalid_problem e)) = Some text)
  /\ (error_type e = SmilesSyntaxError ->
        MolFromSmiles_unsanitized (smiles (invalid_problem e)) = false)
  /\ (error_type e = GeneralParsingError ->
        MolFromSmiles_unsanitized (smiles (invalid_problem e)) = true
        /\ SanitizeMol_exception (smiles (invalid_problem e)) = None).

End Validation.

(** The lines of the log that report an error of one entry. *)
Definition is_entry_error (message : validation_message) : bool :=
  match message with
  | EntryHasNoSmiles _ _ | InvalidSmilesAtEntry _ _ _ _ => true
  | _ => false
  end.

(** The lines of the log that the loop over the entries writes. *)
Definition is_entry_line (message : validation_message) : bool :=
  match message with
  | EntryHasNoSmiles _ _ | InvalidSmilesAtEntry _ _ _ _
  | ZeroAtomsWarning _ _ _ => true
  | _ => false
  end.

(** ** What a running quiz shows

    On the quiz page the names held in the session are those of the problem
    under the index, and a molecule that did not load leaves the problem
    answered, not correct and without a SMILES string; the answer field is
    disabled only for an answered problem. *)
Definition shows_current_problem (MolFromSmiles : str -> bool) (s : session) : Prop :=
  quiz_invariant s
  /\ (disable_answer_input s = true -> is_current_problem_answered s = true)
  /\ (app_stage s = Quiz ->
      exists problem_spec,
        getitem (quiz_problems_list s) (problem_index s) = Some problem_spec
        /\ current_correct_name s = name problem_spec
        /\ current_alternative_names s = alternative_names_list problem_spec
        /\ if MolFromSmiles (smiles problem_spec)
           then current_mol_smiles s = Some (smiles problem_spec)
           else current_mol_smiles s = None
                /\ is_current_problem_answered s = true
                /\ is_current_problem_correct s = false).

Definition keeps_shown (MolFromSmiles : str -> bool) (o : outcome unit) : Prop :=
  returned o = true /\ shows_current_problem MolFromSmiles (state_of o).

(** A quiz on the list [quiz_list] that is under way or over: the quiz
    page shows the current problem, and the results page comes with the
    index at the total. *)
Definition quiz_under_way (MolFromSmiles : str -> bool)
    (quiz_list : list problem) (s : session) : Prop :=
  shows_current_problem MolFromSmiles s
  /\ quiz_problems_list s = quiz_list
  /\ app_stage s <> Setup
  /\ (app_stage s = Results -> problem_index s = total_problems_in_quiz s).

(** A function of the application that leaves a key of the session, or a
    value computed from the session, as it found it, also when it raises. *)
Definition field_kept {A B} (f : session -> A) (m : M B) : Prop :=
  forall s, f (state_of (m s)) = f s.

(** The sessions of a quiz that was started with the button of the setup
    page and then used through the buttons of the quiz page. *)
Definition in_started_quiz
    (catalog : list problem) (draws : nat -> nat) (MolFromSmiles : str -> bool)
    (genai_service_available : bool) (generate_content : str -> str -> str + str)
    (lower_unicode : str -> str) (s : session) : Prop :=
  exists s_setup cache_data,
    app_stage s_setup = Setup
    /\ app_stage (state_of (perform catalog draws MolFromSmiles
                              genai_service_available generate_content
                              lower_unicode cache_data
                              start_practice s_setup)) = Quiz
    /\ reachable catalog draws MolFromSmiles genai_service_available
         generate_content lower_unicode
         (state_of (perform catalog draws MolFromSmiles genai_service_available
                      generate_content lower_unicode cache_data
                      start_practice s_setup))
         s.

(** * Properties *)

(** ** Strings *)

(** A decidable closed proposition settled by evaluating its decision. *)
Ltac decide_by_computation :=
  match goal with
  | |- ?P =>
      let H := fresh in
      assert (H : bool_decide P = true) by (vm_compute; reflexivity);
      exact (bool_decide_eq_true_1 P H)
  end.

Local Open Scope N_scope.

Example normalize_2_methylpropan_1_ol :
  normalize lower_nothing (lit "2-methylpropan-1-ol") = lit "2methylpropan1ol".
Proof. reflexivity. Qed.

Example normalize_mixed_case :
  normalize lower_nothing (lit "  Propan-2-OL ") = lit "propan2ol".
Proof. reflexivity. Qed.

Example normalize_propanol2 :
  normalize lower_nothing (lit "PROPANOL2")
  <> normalize lower_nothing (lit "propan-2-ol").
Proof. vm_compute. discriminate. Qed.

Example split_lines_example :
  split Char.newline (lit "ab" ++ [Char.newline] ++ lit "c" ++ [Char.newline])
  = [lit "ab"; lit "c"; []].
Proof. reflexivity. Qed.

Lemma replace_empty_filter old s :
  replace old [] s = filter (fun c => c <> old) s.
Proof.
  unfold replace. induction s as [|c s IH]; [done|].
  cbn [mbind list_bind]. rewrite filter_cons.
  destruct (N.eqb_spec c old) as [->|Hne].
  - rewrite decide_False by auto. exact IH.
  - rewrite decide_True by done. cbn. by f_equal.
Qed.






Lemma drop_while_split p s :
  exists w, s = w ++ drop_while p s
            /\ Forall (fun c => p c = true) w
            /\ (forall c, head (drop_while p s) = Some c -> p c = false).
Proof.
  induction s as [|c s (w & Hs & Hw & Hhead)]; cbn.
  - exists []. by repeat split.
  - destruct (p c) eqn:E.
    + exists (c :: w). split; [by rewrite Hs at 1|]. split; [by constructor|done].
    + exists []. repeat split; [constructor|]. by intros ? [= <-].
Qed.

(** [strip] removes the whitespace at both ends, all of it and nothing
    else. *)
Lemma strip_spec s :
  exists leading trailing,
    s = leading ++ strip s ++ trailing
    /\ Forall (fun c => is_space c = true) leading
    /\ Forall (fun c => is_space c = true) trailing
    /\ (forall c, head (strip s) = Some c -> is_space c = false)
    /\ (forall c, last (strip s) = Some c -> is_space c = false).
Proof.
  unfold strip, rstrip, lstrip.
  destruct (drop_while_split is_space s) as (w & Hs & Hw & Hhead).
  set (t := drop_while is_space s) in *.
  destruct (drop_while_split is_space (reverse t)) as (w' & Ht & Hw' & Hlast).
  set (d := drop_while is_space (reverse t)) in *.
  assert (Ht' : t = reverse d ++ reverse w').
  { by rewrite <- reverse_app, <- Ht, reverse_involutive. }
  exists w, (reverse w'). split; [by rewrite <- Ht'|].
  split; [done|]. split; [by apply Forall_reverse|]. split.
  - intros c Hc. apply Hhead. rewrite Ht'.
    destruct (reverse d); [done|]. exact Hc.
  - intros c Hc. apply Hlast. by rewrite last_reverse in Hc.
Qed.

Local Open Scope N_scope.

Lemma is_space_spec c :
  is_space c = true <->
  (9 <= c <= 13 \/ 28 <= c <= 32 \/ c = 133 \/ c = 160 \/ c = 5760
   \/ 8192 <= c <= 8202 \/ c = 8232 \/ c = 8233 \/ c = 8239 \/ c = 8287
   \/ c = 12288).
Proof.
  unfold is_space.
  rewrite !orb_true_iff, !andb_true_iff, !N.leb_le, !N.eqb_eq. lia.
Qed.

Lemma lower_cp_cases c :
  (lower_cp c = c /\ ~ (65 <= c <= 90 \/ 192 <= c <= 214 \/ 216 <= c <= 222))
  \/ (lower_cp c = c + 32 /\ (65 <= c <= 90 \/ 192 <= c <= 214 \/ 216 <= c <= 222)).
Proof.
  unfold lower_cp.
  match goal with |- context [if ?b then _ else _] => destruct b eqn:E end.
  - right. split; [done|].
    rewrite !orb_true_iff, !andb_true_iff, !N.leb_le in E. lia.
  - left. split; [done|].
    rewrite !orb_false_iff, !andb_false_iff, !N.leb_gt in E. lia.
Qed.

Lemma lower_cp_idem c : lower_cp (lower_cp c) = lower_cp c.
Proof.
  destruct (lower_cp_cases c) as [[E _]|[E H]]; rewrite !E; [done|].
  destruct (lower_cp_cases (c + 32)) as [[-> _]|[_ H']]; [done|lia].
Qed.

Lemma is_space_lower_cp c : is_space (lower_cp c) = is_space c.
Proof.
  destruct (lower_cp_cases c) as [[-> _]|[-> H]]; [done|].
  apply Bool.eq_iff_eq_true. rewrite !is_space_spec. lia.
Qed.




Lemma fmap_fixed {A} (f : A -> A) (l : list A) :
  (forall x, x ∈ l -> f x = x) -> f <$> l = l.
Proof.
  induction l as [|x l IH]; intros Hl; [done|].
  cbn. rewrite Hl by left. f_equal. apply IH. intros y Hy. apply Hl. by right.
Qed.


Lemma is_latin1_spec s : is_latin1 s = true <-> Forall (fun c => c < 256) s.
Proof.
  unfold is_latin1. rewrite forallb_forall, Forall_forall.
  split; intros H c Hc.
  - apply list_elem_of_In, H, N.leb_le in Hc. lia.
  - apply N.leb_le. apply list_elem_of_In, H in Hc. lia.
Qed.

Lemma lower_latin1 (lower_unicode : list N -> list N) s :
  is_latin1 s = true -> lower lower_unicode s = lower_cp <$> s.
Proof. intros H. unfold lower. by rewrite H. Qed.

Lemma lower_cp_latin1 c : c < 256 -> lower_cp c < 256.
Proof. destruct (lower_cp_cases c) as [[-> _]|[-> H]]; lia. Qed.

(** The normalisation keeps, in order, the characters of the lowercased,
    stripped string other than the space and the hyphen. *)
Lemma normalize_filter (lower_unicode : list N -> list N) s :
  normalize lower_unicode s =
  filter (fun c => c <> Char.space /\ c <> Char.hyphen)
    (strip (lower lower_unicode s)).
Proof.
  unfold normalize. rewrite !replace_empty_filter, list_filter_filter.
  apply list_filter_iff. tauto.
Qed.





Local Open Scope N_scope.




(** ** Running the session monad *)

Local Open Scope Z_scope.

Ltac unfold_session :=
  cbv beta iota delta
    [mbind M_bind mret M_ret gets modify emit raise pass
     state_of events_of returned
     set_app_stage set_selected_categories set_selected_difficulties
     set_num_problems_requested set_quiz_problems_list set_problem_index
     set_total_problems_in_quiz set_current_score set_current_mol_smiles
     set_current_correct_name set_current_alternative_names
     set_student_answer set_is_current_problem_answered
     set_is_current_problem_correct set_feedback_message set_ai_explanation
     set_last_selected_formula_type set_disable_answer_input
     set_disable_formula_dropdown
     app_stage selected_categories selected_difficulties
     num_problems_requested quiz_problems_list problem_index
     total_problems_in_quiz current_score current_mol_smiles
     current_correct_name current_alternative_names student_answer
     is_current_problem_answered is_current_problem_correct feedback_message
     ai_explanation last_selected_formula_type disable_answer_input
     disable_formula_dropdown].

Tactic Notation "unfold_session" "in" hyp(H) :=
  cbv beta iota delta
    [mbind M_bind mret M_ret gets modify emit raise pass
     state_of events_of returned
     set_app_stage set_selected_categories set_selected_difficulties
     set_num_problems_requested set_quiz_problems_list set_problem_index
     set_total_problems_in_quiz set_current_score set_current_mol_smiles
     set_current_correct_name set_current_alternative_names
     set_student_answer set_is_current_problem_answered
     set_is_current_problem_correct set_feedback_message set_ai_explanation
     set_last_selected_formula_type set_disable_answer_input
     set_disable_formula_dropdown
     app_stage selected_categories selected_difficulties
     num_problems_requested quiz_problems_list problem_index
     total_problems_in_quiz current_score current_mol_smiles
     current_correct_name current_alternative_names student_answer
     is_current_problem_answered is_current_problem_correct feedback_message
     ai_explanation last_selected_formula_type disable_answer_input
     disable_formula_dropdown] in H.

Ltac destruct_session s :=
  destruct s as [stage0 cats0 diffs0 requested0 problems0 index0 total0 score0
                 smiles0 correct_name0 alt_names0 answer0 answered0 correct0
                 feedback0 ai0 formula0 input_off0 dropdown_off0].

(** ** Checking an answer *)

Lemma is_correct_iff (lower_unicode : list N -> list N)
    (answer correct : list N) (alts : list (list N)) :
  bool_decide (normalize lower_unicode answer = normalize lower_unicode correct)
  || bool_decide (normalize lower_unicode answer
                  ∈ normalize lower_unicode <$> alts) = true
  <-> normalize lower_unicode answer = normalize lower_unicode correct
      \/ exists alt, alt ∈ alts
                     /\ normalize lower_unicode answer
                        = normalize lower_unicode alt.
Proof.
  rewrite orb_true_iff, !bool_decide_eq_true, list_elem_of_fmap.
  split; (intros [H|(alt & H1 & H2)]; [by left|right; by exists alt]).
Qed.

Lemma handle_correct_flag
    (genai_service_available : bool)
    (generate_content : list N -> list N -> list N + list N)
    (lower_unicode : list N -> list N) (cache_data : explanation_cache)
    (s : session) :
  is_current_problem_answered s = false ->
  is_current_problem_correct
    (state_of (handle_answer_submission_st
                 genai_service_available generate_content lower_unicode
                 cache_data s))
  = bool_decide (normalize lower_unicode (student_answer s)
                 = normalize lower_unicode (current_correct_name s))
    || bool_decide (normalize lower_unicode (student_answer s)
                    ∈ normalize lower_unicode <$> current_alternative_names s).
Proof.
  intros Hunanswered. destruct_session s; cbn in Hunanswered; subst.
  unfold handle_answer_submission_st. unfold_session.
  destruct (bool_decide _ || _) eqn:E; [done|].
  destruct (getitem _ _) as [problem_spec|]; [|done].
  destruct (match common_errors problem_spec with Some _ => _ | None => _ end)
    as [parts found].
  unfold get_ai_nomenclature_explanation_st, replay. unfold_session.
  destruct (negb found && genai_service_available) eqn:E'; [|done].
  destruct (cache_data _ _ _); [done|].
  apply andb_true_iff in E' as [_ ->]. cbn [negb].
  by destruct (generate_content _ _).
Qed.

(** C1: an answer that is submitted for a problem not yet answered is
    marked correct exactly when its normalised form is the normalised
    correct name or the normalised form of one of the alternative names.
    The normalisation takes the lowercased text ([str.lower()], whatever
    it does beyond Latin-1), leaves out the whitespace at its two ends, all
    of it and nothing else, and keeps of the rest, in place, every
    character other than the space and the hyphen.  On text of Latin-1 the
    lowercasing moves A to Z, U+00C0 to U+00D6 and U+00D8 to U+00DE up by
    32 and keeps every other character.  The whitespace is that of
    [str.isspace]. *)
Theorem answer_correct_iff_normalized_match
    (genai_service_available : bool)
    (generate_content : list N -> list N -> list N + list N)
    (lower_unicode : list N -> list N) (cache_data : explanation_cache)
    (s : session) :
  is_current_problem_answered s = false ->
  (is_current_problem_correct
     (state_of (handle_answer_submission_st
                  genai_service_available generate_content lower_unicode
                  cache_data s)) = true
   <-> normalize lower_unicode (student_answer s)
       = normalize lower_unicode (current_correct_name s)
       \/ exists alt, alt ∈ current_alternative_names s
                      /\ normalize lower_unicode (student_answer s)
                         = normalize lower_unicode alt)
  /\ (forall x : list N,
        exists leading core trailing,
          lower lower_unicode x = leading ++ core ++ trailing
          /\ Forall (fun c => is_space c = true) leading
          /\ Forall (fun c => is_space c = true) trailing
          /\ (forall c, head core = Some c -> is_space c = false)
          /\ (forall c, last core = Some c -> is_space c = false)
          /\ normalize lower_unicode x
             = filter (fun c => c <> Char.space /\ c <> Char.hyphen) core)
  /\ (forall x : list N,
        Forall (fun c => (c < 256)%N) x ->
        lower lower_unicode x
        = (fun c => if decide ((65 <= c <= 90)%N \/ (192 <= c <= 214)%N
                               \/ (216 <= c <= 222)%N)
                    then (c + 32)%N else c) <$> x)
  /\ (forall c : N,
        is_space c = true
        <-> (9 <= c <= 13 \/ 28 <= c <= 32 \/ c = 133 \/ c = 160 \/ c = 5760
             \/ 8192 <= c <= 8202 \/ c = 8232 \/ c = 8233 \/ c = 8239
             \/ c = 8287 \/ c = 12288)%N).
Proof.
  intros Hunanswered. split; [|split; [|split; [|exact is_space_spec]]].
  - rewrite handle_correct_flag by done. apply is_correct_iff.
  - intros x.
    destruct (strip_spec (lower lower_unicode x))
      as (leading & trailing & Hx & Hl & Ht & Hhead & Hlast).
    exists leading, (strip (lower lower_unicode x)), trailing.
    split; [done|]. split; [done|]. split; [done|]. split; [done|].
    split; [done|]. apply normalize_filter.
  - intros x Hx. rewrite lower_latin1 by (by apply is_latin1_spec).
    apply list_fmap_ext. intros _ c _.
    destruct (lower_cp_cases c) as [[-> Hc]|[-> Hc]].
    + by rewrite decide_False.
    + by rewrite decide_True.
Qed.

Lemma answer_correct_iff_normalized_match_witness :
  is_current_problem_correct
    (state_of (handle_answer_submission_st true (fun _ _ => inl [])
    lower_nothing empty_cache
                 (waiting_session propan_2_ol "Propan-2-ol"))) = true.
Proof.
  apply (answer_correct_iff_normalized_match true (fun _ _ => inl [])
  lower_nothing empty_cache
           (waiting_session propan_2_ol "Propan-2-ol")); [reflexivity|].
  left. vm_compute. reflexivity.
Defined.

(** C7: once the current problem is answered, submitting again changes
    nothing: the handler returns at once, with the same session, no message
    and no exception, whatever text has been typed in. *)
Theorem submit_when_answered_is_noop
    (genai_service_available : bool)
    (generate_content : list N -> list N -> list N + list N)
    (lower_unicode : list N -> list N) (cache_data : explanation_cache)
    (s : session) (typed : list N) :
  is_current_problem_answered s = true ->
  handle_answer_submission_st genai_service_available generate_content
  lower_unicode cache_data s
  = Returned () s []
  /\ let s' := state_of (handle_answer_submission_st
                           genai_service_available generate_content
                           lower_unicode cache_data
                           (set_student_answer typed s)) in
     current_score s' = current_score s
     /\ is_current_problem_answered s' = is_current_problem_answered s
     /\ is_current_problem_correct s' = is_current_problem_correct s
     /\ feedback_message s' = feedback_message s
     /\ ai_explanation s' = ai_explanation s
     /\ problem_index s' = problem_index s
     /\ quiz_problems_list s' = quiz_problems_list s
     /\ total_problems_in_quiz s' = total_problems_in_quiz s
     /\ app_stage s' = app_stage s.
Proof.
  intros Hanswered. destruct_session s; cbn in Hanswered; subst.
  unfold handle_answer_submission_st. unfold_session. done.
Qed.

Lemma submit_when_answered_is_noop_witness :
  handle_answer_submission_st true (fun _ _ => inl []) lower_nothing empty_cache
    (set_is_current_problem_answered true
       (waiting_session propan_2_ol "propane"))
  = Returned ()
      (set_is_current_problem_answered true
         (waiting_session propan_2_ol "propane")) [].
Proof.
  apply (submit_when_answered_is_noop true (fun _ _ => inl [])
  lower_nothing empty_cache
           (set_is_current_problem_answered true
              (waiting_session propan_2_ol "propane")) []).
  reflexivity.
Defined.

(** ** Loading a problem *)

Lemma getitem_lookup {A} (l : list A) (i : Z) :
  0 <= i -> getitem l i = l !! Z.to_nat i.
Proof. intros Hi. unfold getitem. by rewrite (proj2 (Z.leb_le 0 i)). Qed.


Lemma load_current_problem_details_fields
    (MolFromSmiles : list N -> bool) (s : session) (problem_spec : problem) :
  problem_index s < total_problems_in_quiz s ->
  getitem (quiz_problems_list s) (problem_index s) = Some problem_spec ->
  let o := load_current_problem_details MolFromSmiles s in
  returned o = true
  /\ current_correct_name (state_of o) = name problem_spec
  /\ current_alternative_names (state_of o)
     = match alternative_names problem_spec with
       | AltMissing => []
       | AltStr alt_names => [alt_names]
       | AltList alt_names => alt_names
       end
  /\ is_current_problem_answered (state_of o)
     = is_current_problem_answered s || negb (MolFromSmiles (smiles problem_spec))
  /\ current_score (state_of o) = current_score s
  /\ quiz_problems_list (state_of o) = quiz_problems_list s
  /\ problem_index (state_of o) = problem_index s
  /\ total_problems_in_quiz (state_of o) = total_problems_in_quiz s
  /\ app_stage (state_of o) = app_stage s
  /\ current_mol_smiles (state_of o)
     = (if MolFromSmiles (smiles problem_spec)
        then Some (smiles problem_spec) else None)
  /\ events_of o
     = (if MolFromSmiles (smiles problem_spec) then []
        else [st_error (ErrorLoadingSmiles (Some (smiles problem_spec))
                          (problem_index s + 1))]).
Proof.
  intros Hlt Hget. destruct_session s; cbn in Hlt, Hget.
  unfold load_current_problem_details. unfold_session.
  rewrite (proj2 (Z.ltb_lt _ _) Hlt), Hget.
  destruct (MolFromSmiles _); cbn [negb app];
    rewrite ?orb_true_r, ?orb_false_r; done.
Qed.

(** C9: loading a problem whose ['alternative_names'] is one string leaves
    the one-element list of that string in the session, the same list as
    for a problem holding that one-element list, and an answer that
    normalises to that name is then marked correct; a missing key gives the
    empty list. *)
Theorem load_wraps_single_alternative_name
    (MolFromSmiles : list N -> bool)
    (genai_service_available : bool)
    (generate_content : list N -> list N -> list N + list N)
    (lower_unicode : list N -> list N) (cache_data : explanation_cache)
    (s : session) (problem_spec : problem) :
  problem_index s < total_problems_in_quiz s ->
  getitem (quiz_problems_list s) (problem_index s) = Some problem_spec ->
  let s' := state_of (load_current_problem_details MolFromSmiles s) in
  returned (load_current_problem_details MolFromSmiles s) = true
  /\ (forall alt, alternative_names problem_spec = AltStr alt ->
        current_alternative_names s' = [alt]
        /\ forall typed,
             is_current_problem_answered s' = false ->
             normalize lower_unicode typed = normalize lower_unicode alt ->
             is_current_problem_correct
               (state_of (handle_answer_submission_st
                            genai_service_available generate_content
                            lower_unicode cache_data
                            (set_student_answer typed s'))) = true)
  /\ (forall alts, alternative_names problem_spec = AltList alts ->
        current_alternative_names s' = alts)
  /\ (alternative_names problem_spec = AltMissing ->
        current_alternative_names s' = []).
Proof.
  intros Hlt Hget s'.
  destruct (load_current_problem_details_fields MolFromSmiles s problem_spec
              Hlt Hget) as (Hret & _ & Halts & _).
  fold s' in Halts. split; [done|]. rewrite Halts.
  split; [|split]; [|by intros alts ->|by intros ->].
  intros alt Halt. rewrite Halt in Halts |- *. split; [done|].
  intros typed Hunanswered Hmatch.
  rewrite handle_correct_flag by (by destruct s').
  apply is_correct_iff. right. exists alt.
  destruct s'; cbn in *. subst. split; [left|done].
Qed.

Lemma load_wraps_single_alternative_name_witness :
  current_alternative_names
    (state_of (load_current_problem_details (fun _ => true)
                 (waiting_session propan_2_ol_curated "")))
  = [lit "isopropanol"].
Proof.
  destruct (load_wraps_single_alternative_name (fun _ => true) true
              (fun _ _ => inl [])
              lower_nothing empty_cache (waiting_session propan_2_ol_curated "")
              propan_2_ol_curated) as (_ & Hstr & _); [reflexivity..|].
  apply (Hstr (lit "isopropanol")). reflexivity.
Defined.

(** ** Curated explanations *)





(** ** Filtering the bank *)

Lemma in_selection_spec (tag : option (list N)) (selected : list (list N)) :
  in_selection tag selected = true <-> exists t, tag = Some t /\ t ∈ selected.
Proof.
  destruct tag as [t|]; cbn.
  - rewrite bool_decide_eq_true. split; [eauto|]. by intros (? & [= <-] & ?).
  - split; [done|]. by intros (? & ? & _).
Qed.

Lemma nonempty_true {A} (l : list A) : nonempty l = true <-> l <> [].
Proof. by destruct l. Qed.

Lemma elem_of_filtered_problems
    (catalog : list problem) (cats diffs : list (list N)) (p : problem) :
  p ∈ filtered_problems catalog cats diffs
  <-> p ∈ catalog
      /\ (cats <> [] -> exists c, category p = Some c /\ c ∈ cats)
      /\ (diffs <> [] -> exists d, difficulty p = Some d /\ d ∈ diffs).
Proof.
  unfold filtered_problems.
  destruct cats as [|c cats], diffs as [|d diffs]; cbn [nonempty];
    rewrite ?list_elem_of_filter, ?Is_true_true, ?in_selection_spec;
    intuition congruence.
Qed.

(** C2: with both selections empty the whole bank is eligible; otherwise a
    problem is eligible exactly when its category is among the selected
    categories (if any are selected) and its difficulty among the selected
    difficulties (if any are selected); and when a selection is made and
    nothing is eligible, the set-up stops with the "no problems match"
    error and leaves the session as it was, on the setup page. *)
Theorem filter_policy_and_no_match
    (catalog : list problem) (draws : nat -> nat)
    (MolFromSmiles : list N -> bool) (genai_service_available : bool)
    (generate_content : list N -> list N -> list N + list N)
    (lower_unicode : list N -> list N) (cache_data : explanation_cache) :
  filtered_problems catalog [] [] = catalog
  /\ (forall cats diffs p,
        p ∈ filtered_problems catalog cats diffs
        <-> p ∈ catalog
            /\ (cats <> [] -> exists c, category p = Some c /\ c ∈ cats)
            /\ (diffs <> [] -> exists d, difficulty p = Some d /\ d ∈ diffs))
  /\ (forall s,
        selected_categories s <> [] \/ selected_difficulties s <> [] ->
        filtered_problems catalog (selected_categories s)
          (selected_difficulties s) = [] ->
        setup_new_quiz_st catalog draws MolFromSmiles s
        = Returned () s [st_warning NoProblemsFoundForCriteria;
                         st_error NoProblemsMatchCombination]
        /\ (app_stage s = Setup ->
            perform catalog draws MolFromSmiles genai_service_available
              generate_content lower_unicode cache_data start_practice s
            = Returned () s [st_warning NoProblemsFoundForCriteria;
                             st_error NoProblemsMatchCombination])).
Proof.
  split; [done|]. split; [apply elem_of_filtered_problems|].
  intros s Hsel Hnone.
  assert (Hsetup : setup_new_quiz_st catalog draws MolFromSmiles s
                   = Returned () s [st_warning NoProblemsFoundForCriteria;
                                    st_error NoProblemsMatchCombination]).
  { destruct_session s; cbn in Hsel, Hnone. unfold setup_new_quiz_st. unfold_session.
    rewrite Hnone. cbn [nonempty negb].
    assert (nonempty cats0 || nonempty diffs0
            = true) as ->; [|done].
    apply orb_true_iff. by rewrite !nonempty_true. }
  split; [done|]. intros Hstage.
  cbn [perform]. unfold mbind at 1, M_bind. rewrite Hsetup.
  destruct_session s; cbn in Hstage; subst. unfold_session. done.
Qed.

Lemma filter_policy_and_no_match_witness :
  setup_new_quiz_st practice_problems (fun _ => O) (fun _ => true)
    (set_selected_categories [lit "Alkanol"]
       (set_selected_difficulties [lit "Difficult"] defaults))
  = Returned ()
      (set_selected_categories [lit "Alkanol"]
         (set_selected_difficulties [lit "Difficult"] defaults))
      [st_warning NoProblemsFoundForCriteria;
       st_error NoProblemsMatchCombination].
Proof.
  destruct (filter_policy_and_no_match practice_problems (fun _ => O)
              (fun _ => true) true (fun _ _ => inl [])
              lower_nothing empty_cache) as (_ & _ & H).
  destruct (H (set_selected_categories [lit "Alkanol"]
                 (set_selected_difficulties [lit "Difficult"] defaults)))
    as [Hsetup _].
  - left. discriminate.
  - vm_compute. reflexivity.
  - exact Hsetup.
Defined.

(** ** Sampling without replacement *)

Local Open Scope nat_scope.

Lemma pool_step_permutation_snoc {A} (init : list A) (j : nat) (x y : A) :
  (init ++ [y]) !! j = Some x ->
  init ++ [y] ≡ₚ x :: take (length init) (<[j := y]> (init ++ [y])).
Proof.
  intros Hx.
  assert (Hj : j < length (init ++ [y])) by by eapply lookup_lt_Some.
  rewrite length_app in Hj. cbn in Hj.
  destruct (decide (j = length init)) as [->|Hne].
  - rewrite list_lookup_middle in Hx by done. injection Hx as ->.
    rewrite list_insert_id by (by apply list_lookup_middle).
    rewrite take_app_length. by rewrite Permutation_app_comm.
  - rewrite lookup_app_l in Hx by lia.
    rewrite insert_app_l by lia.
    rewrite take_app_length' by (by rewrite length_insert).
    rewrite insert_take_drop by lia.
    rewrite <- (take_drop_middle init j x) at 1 by done.
    rewrite <- !app_assoc. cbn.
    rewrite (Permutation_app_comm (drop (S j) init) [y]). cbn.
    by rewrite <- !Permutation_middle.
Qed.

Lemma pool_step_permutation {A} (pool : list A) (j : nat) (x y : A) :
  pool !! j = Some x ->
  pool !! (length pool - 1) = Some y ->
  pool ≡ₚ x :: take (length pool - 1) (<[j := y]> pool).
Proof.
  intros Hx Hy.
  assert (Hj : j < length pool) by by eapply lookup_lt_Some.
  assert (exists init, pool = init ++ [y]) as [init ->].
  { exists (take (length pool - 1) pool).
    rewrite <- (take_drop_middle pool (length pool - 1) y) at 1 by done.
    f_equal. rewrite drop_ge by lia. done. }
  rewrite length_app. cbn [length].
  replace (length init + 1 - 1) with (length init) by lia.
  by apply pool_step_permutation_snoc.
Qed.

Lemma sample_pool_length {A} (draws : nat -> nat) (k i : nat) (pool : list A) :
  k <= length pool -> length (sample_pool draws i pool k) = k.
Proof.
  revert i pool. induction k as [|k IH]; intros i pool Hk; [done|].
  cbn [sample_pool].
  assert (Hj : draws i mod length pool < length pool)
    by (apply Nat.mod_upper_bound; lia).
  destruct (lookup_lt_is_Some_2 pool _ Hj) as [x ->].
  destruct (lookup_lt_is_Some_2 pool (length pool - 1)) as [y ->]; [lia|].
  cbn. f_equal. apply IH. rewrite length_take, length_insert. lia.
Qed.

Lemma sample_pool_permutation {A} (draws : nat -> nat) (k i : nat) (pool : list A) :
  k <= length pool ->
  exists rest, pool ≡ₚ sample_pool draws i pool k ++ rest.
Proof.
  revert i pool. induction k as [|k IH]; intros i pool Hk; [by exists pool|].
  cbn [sample_pool].
  assert (Hj : draws i mod length pool < length pool)
    by (apply Nat.mod_upper_bound; lia).
  destruct (lookup_lt_is_Some_2 pool _ Hj) as [x Hx].
  destruct (lookup_lt_is_Some_2 pool (length pool - 1)) as [y Hy]; [lia|].
  rewrite Hx, Hy.
  destruct (IH (S i) (take (length pool - 1) (<[draws i mod length pool := y]> pool)))
    as [rest Hrest]; [rewrite length_take, length_insert; lia|].
  exists rest. rewrite (pool_step_permutation pool _ x y Hx Hy) at 1.
  cbn. by rewrite <- Hrest.
Qed.

Lemma sample_pool_fmap {A B} (f : A -> B) (draws : nat -> nat)
    (k i : nat) (pool : list A) :
  sample_pool draws i (f <$> pool) k = f <$> sample_pool draws i pool k.
Proof.
  revert i pool. induction k as [|k IH]; intros i pool; [done|].
  cbn [sample_pool]. rewrite length_fmap, !list_lookup_fmap.
  destruct (pool !! _) as [x|]; [|done].
  destruct (pool !! _) as [y|]; [|done].
  cbn. f_equal. rewrite <- IH. f_equal.
  by rewrite fmap_take, list_fmap_insert.
Qed.

Lemma sample_pool_elem_of {A} (draws : nat -> nat) (k i : nat) (pool : list A) x :
  k <= length pool -> x ∈ sample_pool draws i pool k -> x ∈ pool.
Proof.
  intros Hk Hx. destruct (sample_pool_permutation draws k i pool Hk) as [rest Hp].
  rewrite Hp. apply elem_of_app. by left.
Qed.

Lemma sample_pool_NoDup {A} (draws : nat -> nat) (k i : nat) (pool : list A) :
  k <= length pool -> NoDup pool -> NoDup (sample_pool draws i pool k).
Proof.
  intros Hk Hnd. destruct (sample_pool_permutation draws k i pool Hk) as [rest Hp].
  rewrite Hp in Hnd. by apply NoDup_app in Hnd as [? _].
Qed.

(** The sample is the population read at pairwise distinct positions. *)
Lemma sample_pool_positions {A} (draws : nat -> nat) (k : nat) (pool : list A) :
  k <= length pool ->
  exists positions : list nat,
    NoDup positions
    /\ Forall2 (fun j x => pool !! j = Some x) positions
         (sample_pool draws 0 pool k).
Proof.
  intros Hk.
  set (indexed := zip (seq 0 (length pool)) pool).
  assert (Hlen : length indexed = length pool).
  { unfold indexed. rewrite length_zip, length_seq. lia. }
  exists ((sample_pool draws 0 indexed k).*1). split.
  - rewrite <- sample_pool_fmap. unfold indexed.
    rewrite fst_zip by (rewrite length_seq; lia).
    apply sample_pool_NoDup; [rewrite length_seq; lia|apply NoDup_seq].
  - replace (sample_pool draws 0 pool k)
      with ((sample_pool draws 0 indexed k).*2).
    2:{ rewrite <- sample_pool_fmap. unfold indexed.
        by rewrite snd_zip by (rewrite length_seq; lia). }
    assert (Hall : Forall (fun jx => pool !! jx.1 = Some jx.2)
                     (sample_pool draws 0 indexed k)).
    { apply Forall_forall. intros [j x] Hjx.
      apply sample_pool_elem_of in Hjx; [|lia].
      apply list_elem_of_lookup in Hjx as [n Hn]. unfold indexed in Hn.
      apply lookup_zip_with_Some in Hn as (j' & x' & [= <- <-] & Hseq & Hx).
      apply lookup_seq in Hseq as [-> _]. done. }
    induction Hall as [|[j x] l Hjx _ IH]; cbn; constructor; done.
Qed.

Local Open Scope Z_scope.

Lemma random_sample_Some {A} (draws : nat -> nat) (population : list A) (k : Z) :
  0 <= k <= Z.of_nat (length population) ->
  random_sample draws population k
  = Some (sample_pool draws 0 population (Z.to_nat k)).
Proof.
  intros [H0 Hk]. unfold random_sample.
  by rewrite (proj2 (Z.leb_le _ _) H0), (proj2 (Z.leb_le _ _) Hk).
Qed.

(** ** Starting a quiz *)

Lemma setup_new_quiz_st_success
    (catalog : list problem) (draws : nat -> nat)
    (MolFromSmiles : list N -> bool) (s : session) :
  let eligible := filtered_problems catalog (selected_categories s)
                    (selected_difficulties s) in
  let actual := Z.min (num_problems_requested s) (Z.of_nat (length eligible)) in
  (1 <= length eligible)%nat ->
  1 <= num_problems_requested s ->
  let o := setup_new_quiz_st catalog draws MolFromSmiles s in
  exists first,
    quiz_problems_list (state_of o) !! O = Some first
    /\ returned o = true
    /\ app_stage (state_of o) = Quiz
    /\ quiz_problems_list (state_of o)
       = sample_pool draws 0 eligible (Z.to_nat actual)
    /\ total_problems_in_quiz (state_of o) = actual
    /\ problem_index (state_of o) = 0
    /\ current_score (state_of o) = 0
    /\ is_current_problem_answered (state_of o)
       = negb (MolFromSmiles (smiles first))
    /\ current_mol_smiles (state_of o)
       = (if MolFromSmiles (smiles first) then Some (smiles first) else None)
    /\ events_of o
       = (if MolFromSmiles (smiles first) then []
          else [st_error (ErrorLoadingSmiles (Some (smiles first)) 1)]).
Proof.
  intros eligible actual Hn Hr o.
  assert (Hactual : 1 <= actual <= Z.of_nat (length eligible)) by lia.
  assert (Hlen : length (sample_pool draws 0 eligible (Z.to_nat actual))
                 = Z.to_nat actual)
    by (apply sample_pool_length; lia).
  destruct (lookup_lt_is_Some_2
              (sample_pool draws 0 eligible (Z.to_nat actual)) O)
    as [first Hfirst]; [lia|].
  exists first. revert Hfirst. subst actual eligible.
  assert (Ho : o = setup_new_quiz_st catalog draws MolFromSmiles s) by done.
  clearbody o. revert Ho.
  destruct_session s; cbn [selected_categories selected_difficulties
                           num_problems_requested] in *.
  set (eligible := filtered_problems catalog cats0 diffs0) in *.
  intros Ho Hfirst.
  unfold setup_new_quiz_st in Ho. unfold_session in Ho. cbv zeta in Ho.
  fold eligible in Ho.
  assert (nonempty eligible = true) as Hne
    by (apply nonempty_true; intros E; rewrite E in Hn; cbn in Hn; lia).
  rewrite Hne in Ho. cbn [negb] in Ho.
  unfold start_quiz in Ho. unfold_session in Ho. cbv zeta in Ho.
  assert ((Z.min requested0 (Z.of_nat (length eligible)) =? 0) = false) as Hz
    by (apply Z.eqb_neq; lia).
  rewrite Hz, random_sample_Some in Ho by lia.
  match type of Ho with
  | context [load_current_problem_details _ ?s1] =>
      pose proof (load_current_problem_details_fields MolFromSmiles s1 first)
        as Hload;
      destruct (load_current_problem_details MolFromSmiles s1)
  end; cbn [problem_index total_problems_in_quiz quiz_problems_list
            is_current_problem_answered current_score app_stage] in Hload;
    (destruct Hload as (Hret & _ & _ & Hans & Hscore & Hlist & Hidx & Htot
                        & Hstage & Hsmiles & Hev);
     [lia|by rewrite getitem_lookup by done|]);
    subst o; cbn [returned state_of events_of] in *; [|done].
  rewrite Hlist, Htot, Hidx, Hscore, Hstage, Hans, Hsmiles, Hev.
  cbn [app orb]. done.
Qed.

(** C3 as stated fails on the shipped bank: the record of
    2-bromobut-3-en-1-ol is listed twice (entries 68 and 93), and a quiz of
    two problems can draw both, so the problem list holds the same record
    twice. *)
Lemma same_record_drawn_twice :
  let draws := fun i => match i with O => 67%nat | _ => 92%nat end in
  let s := set_num_problems_requested 2 defaults in
  let s' := state_of (setup_new_quiz_st practice_problems draws
                        (fun _ => true) s) in
  let p := mk_problem "C=CC(Br)CO" "2-bromobut-3-en-1-ol" "CH2=CHCH(Br)CH2OH"
             "Mixed Functional Groups" "Hard" in
  length (filtered_problems practice_problems (selected_categories s)
            (selected_difficulties s)) = 96%nat
  /\ app_stage s' = Quiz
  /\ quiz_problems_list s' = [p; p]
  /\ ~ NoDup (quiz_problems_list s').
Proof.
  cbv zeta.
  assert (H : quiz_problems_list
                (state_of (setup_new_quiz_st practice_problems
                             (fun i => match i with O => 67%nat | _ => 92%nat end)
                             (fun _ => true)
                             (set_num_problems_requested 2 defaults)))
              = [mk_problem "C=CC(Br)CO" "2-bromobut-3-en-1-ol"
                   "CH2=CHCH(Br)CH2OH" "Mixed Functional Groups" "Hard";
                 mk_problem "C=CC(Br)CO" "2-bromobut-3-en-1-ol"
                   "CH2=CHCH(Br)CH2OH" "Mixed Functional Groups" "Hard"])
    by (vm_compute; reflexivity).
  split; [vm_compute; reflexivity|]. split; [vm_compute; reflexivity|].
  split; [exact H|]. rewrite H. intros Hnd.
  apply NoDup_cons in Hnd as [Hnotin _]. apply Hnotin. left.
Qed.

(** C3, amended: when at least one problem is eligible and at least one is
    requested, the set-up succeeds; the problem list has the length
    [min(R, N)], is read off the eligible list at pairwise distinct
    positions (so it has no duplicates whenever the eligible list has
    none), holds eligible problems only, and the index and the score are 0;
    a request above [N] is clamped to [N], without an error message. *)
Theorem quiz_start_samples_distinct_positions
    (catalog : list problem) (draws : nat -> nat)
    (MolFromSmiles : list N -> bool) (s : session) :
  let eligible := filtered_problems catalog (selected_categories s)
                    (selected_difficulties s) in
  let requested := num_problems_requested s in
  (1 <= length eligible)%nat ->
  1 <= requested ->
  let o := setup_new_quiz_st catalog draws MolFromSmiles s in
  returned o = true
  /\ app_stage (state_of o) = Quiz
  /\ Z.of_nat (length (quiz_problems_list (state_of o)))
     = Z.min requested (Z.of_nat (length eligible))
  /\ total_problems_in_quiz (state_of o)
     = Z.min requested (Z.of_nat (length eligible))
  /\ (exists positions : list nat,
        NoDup positions
        /\ Forall2 (fun j p => eligible !! j = Some p) positions
             (quiz_problems_list (state_of o)))
  /\ (forall p, p ∈ quiz_problems_list (state_of o) -> p ∈ eligible)
  /\ (NoDup eligible -> NoDup (quiz_problems_list (state_of o)))
  /\ problem_index (state_of o) = 0
  /\ current_score (state_of o) = 0
  /\ (forall m, st_error m ∈ events_of o ->
        exists smiles_string, m = ErrorLoadingSmiles smiles_string 1).
Proof.
  intros eligible requested Hn Hr o.
  destruct (setup_new_quiz_st_success catalog draws MolFromSmiles s Hn Hr)
    as (first & _ & Hret & Hstage & Hlist & Htot & Hidx & Hscore & _ & _ & Hev).
  fold eligible requested o in Hret, Hstage, Hlist, Htot, Hidx, Hscore, Hev.
  assert (Hk : (Z.to_nat (Z.min requested (Z.of_nat (length eligible)))
                <= length eligible)%nat) by lia.
  rewrite Hlist. repeat split; try done.
  - rewrite sample_pool_length by done. lia.
  - by apply sample_pool_positions.
  - intros p. by apply sample_pool_elem_of.
  - by apply sample_pool_NoDup.
  - intros m Hm. rewrite Hev in Hm. destruct (MolFromSmiles _).
    + by apply elem_of_nil in Hm.
    + apply list_elem_of_singleton in Hm. injection Hm as ->. eauto.
Qed.

Lemma quiz_start_samples_distinct_positions_witness :
  Z.of_nat (length (quiz_problems_list
                      (state_of (setup_new_quiz_st practice_problems
                                   (fun i => i) (fun _ => true)
                                   (set_num_problems_requested 200 defaults)))))
  = 96.
Proof.
  destruct (quiz_start_samples_distinct_positions practice_problems
              (fun i => i) (fun _ => true)
              (set_num_problems_requested 200 defaults))
    as (_ & _ & Hlen & _).
  - vm_compute. lia.
  - vm_compute. discriminate.
  - rewrite Hlen. vm_compute. reflexivity.
Defined.

(** ** The score of a running quiz *)

Lemma gets_bind {A B} (f : session -> A) (k : A -> M B) (s : session) :
  (gets f ≫= k) s = k (f s) s.
Proof. unfold mbind, M_bind, gets. by destruct (k (f s) s). Qed.

Lemma modify_bind {B} (g : session -> session) (k : unit -> M B) (s : session) :
  (modify g ≫= k) s = k () (g s).
Proof. unfold mbind, M_bind, modify. by destruct (k () (g s)). Qed.


Lemma keeps_quiz_bind (m k : M unit) (s : session) :
  keeps_quiz s (m s) ->
  (forall s1, quiz_invariant s1 -> keeps_quiz s1 (k s1)) ->
  keeps_quiz s ((m ≫= fun _ => k) s).
Proof.
  intros (Hret & Hinv & Hscore) Hk. unfold mbind, M_bind.
  destruct (m s) as [[] s1 out|]; cbn in Hret, Hinv, Hscore; [|done].
  destruct (Hk s1 Hinv) as (Hret' & Hinv' & Hscore').
  destruct (k s1); cbn in Hret', Hinv', Hscore'; [|done].
  unfold keeps_quiz. cbn. split; [done|]. split; [done|lia].
Qed.

Lemma keeps_quiz_pass (s : session) : quiz_invariant s -> keeps_quiz s (pass s).
Proof. intros H. split; [done|]. split; [done|cbn; lia]. Qed.

Lemma quiz_invariant_lookup (s : session) :
  quiz_invariant s -> app_stage s = Quiz ->
  exists problem_spec,
    getitem (quiz_problems_list s) (problem_index s) = Some problem_spec
    /\ nonempty (quiz_problems_list s) = true
    /\ (total_problems_in_quiz s =? 0) = false
    /\ (problem_index s <? total_problems_in_quiz s) = true.
Proof.
  intros (Htot & _ & Hstage) Hquiz. rewrite Hquiz in Hstage.
  destruct Hstage as [Hidx _].
  destruct (lookup_lt_is_Some_2 (quiz_problems_list s)
              (Z.to_nat (problem_index s))) as [p Hp]; [lia|].
  exists p. rewrite getitem_lookup by lia. split; [done|]. split.
  - apply nonempty_true. intros E. rewrite E in Hp. done.
  - split; [apply Z.eqb_neq|apply Z.ltb_lt]; lia.
Qed.

Lemma load_current_problem_details_keeps
    (MolFromSmiles : list N -> bool) (s : session) :
  quiz_invariant s -> app_stage s = Quiz ->
  keeps_quiz s (load_current_problem_details MolFromSmiles s).
Proof.
  intros Hinv Hquiz.
  destruct (quiz_invariant_lookup s Hinv Hquiz) as (p & Hp & _ & _ & Hlt).
  apply Z.ltb_lt in Hlt.
  destruct (load_current_problem_details_fields MolFromSmiles s p Hlt Hp)
    as (Hret & _ & _ & Hans & Hscore & Hlist & Hidx & Htot & Hstage & _).
  destruct Hinv as (Ht & H0 & Hs). rewrite Hquiz in Hs.
  split; [done|]. split; [|lia].
  unfold quiz_invariant. rewrite Hlist, Htot, Hscore, Hstage, Hquiz, Hidx, Hans.
  repeat split; try lia.
  destruct (is_current_problem_answered s), (MolFromSmiles _); cbn; lia.
Qed.

Lemma set_answered_keeps (s : session) :
  quiz_invariant s ->
  keeps_quiz s (modify (set_is_current_problem_answered true) s).
Proof.
  intros (Ht & H0 & Hs). destruct_session s. unfold keeps_quiz, quiz_invariant.
  unfold_session. cbn in *. repeat split; try lia.
  destruct stage0; [lia| |lia]. destruct answered0; lia.
Qed.

Lemma display_quiz_page_st_keeps
    (MolFromSmiles : list N -> bool) (s : session) :
  quiz_invariant s -> app_stage s = Quiz ->
  keeps_quiz s (display_quiz_page_st MolFromSmiles s).
Proof.
  intros Hinv Hquiz. unfold display_quiz_page_st.
  rewrite !gets_bind. apply keeps_quiz_bind.
  - destruct (_ && _); [by apply load_current_problem_details_keeps|].
    by apply keeps_quiz_pass.
  - intros s1 Hinv1. rewrite gets_bind.
    destruct (_ && _); [|by apply keeps_quiz_pass].
    rewrite gets_bind. apply keeps_quiz_bind.
    + destruct (nonempty _); [by apply keeps_quiz_pass|].
      split; [done|]. split; [done|cbn; lia].
    + intros s2 Hinv2. by apply set_answered_keeps.
Qed.

Lemma run_script_keeps (MolFromSmiles : list N -> bool) (s : session) :
  quiz_invariant s -> keeps_quiz s (run_script MolFromSmiles s).
Proof.
  intros Hinv. unfold run_script. rewrite gets_bind.
  destruct (app_stage s) eqn:Hstage; [by apply keeps_quiz_pass| |by apply keeps_quiz_pass].
  rewrite !gets_bind.
  destruct (quiz_invariant_lookup s Hinv Hstage) as (_ & _ & -> & -> & _).
  cbn [negb orb]. by apply display_quiz_page_st_keeps.
Qed.


Lemma keeps_quiz_same_score (s s1 : session) (o : outcome unit) :
  current_score s = current_score s1 -> keeps_quiz s1 o -> keeps_quiz s o.
Proof. intros Hs (? & ? & ?). split; [done|]. split; [done|lia]. Qed.

Lemma handle_answer_submission_st_keeps
    (genai_service_available : bool)
    (generate_content : list N -> list N -> list N + list N)
    (lower_unicode : list N -> list N) (cache_data : explanation_cache)
    (s : session) :
  quiz_invariant s -> app_stage s = Quiz ->
  keeps_quiz s (handle_answer_submission_st
                  genai_service_available generate_content lower_unicode
                  cache_data s).
Proof.
  intros Hinv Hquiz.
  destruct (quiz_invariant_lookup s Hinv Hquiz) as (p & Hp & _).
  destruct Hinv as (Ht & H0 & Hs). rewrite Hquiz in Hs.
  destruct_session s. cbn in Ht, H0, Hs, Hp, Hquiz. subst stage0.
  unfold handle_answer_submission_st, keeps_quiz, quiz_invariant.
  unfold_session. destruct answered0.
  { cbn. repeat split; lia. }
  destruct (bool_decide _ || _).
  { cbn. repeat split; lia. }
  rewrite Hp.
  destruct (match common_errors p with Some _ => _ | None => _ end)
    as [parts found].
  unfold get_ai_nomenclature_explanation_st, replay. unfold_session.
  destruct (negb found && genai_service_available) eqn:E.
  - destruct (cache_data _ _ _); [cbn; repeat split; lia|].
    apply andb_true_iff in E as [_ ->]. cbn [negb].
    destruct (generate_content _ _); cbn; repeat split; lia.
  - cbn. repeat split; lia.
Qed.

Lemma go_to_next_problem_callback_keeps
    (MolFromSmiles : list N -> bool) (s : session) :
  quiz_invariant s -> app_stage s = Quiz ->
  keeps_quiz s (go_to_next_problem_callback MolFromSmiles s).
Proof.
  intros (Ht & H0 & Hs) Hquiz. rewrite Hquiz in Hs.
  unfold go_to_next_problem_callback.
  rewrite !modify_bind, !gets_bind.
  destruct_session s. cbn in Ht, H0, Hs, Hquiz. subst stage0.
  unfold_session.
  destruct (Z.leb_spec total0 (index0 + 1)) as [Hend|Hmore].
  - unfold keeps_quiz, quiz_invariant. cbn.
    destruct answered0; repeat split; lia.
  - eapply keeps_quiz_same_score;
      [|apply load_current_problem_details_keeps; [|done]]; [done|].
    unfold quiz_invariant. cbn. destruct answered0; repeat split; lia.
Qed.

Lemma set_student_answer_keeps (text : list N) (s : session) :
  quiz_invariant s -> keeps_quiz s (modify (set_student_answer text) s).
Proof.
  intros (Ht & H0 & Hs). destruct_session s. unfold keeps_quiz, quiz_invariant.
  unfold_session. cbn in *. repeat split; try lia. destruct stage0; lia.
Qed.

Lemma perform_keeps
    (catalog : list problem) (draws : nat -> nat)
    (MolFromSmiles : list N -> bool) (genai_service_available : bool)
    (generate_content : list N -> list N -> list N + list N)
    (lower_unicode : list N -> list N) (cache_data : explanation_cache)
    (a : action) (s : session) :
  a <> start_practice -> quiz_invariant s -> enabled a s = true ->
  keeps_quiz s (perform catalog draws MolFromSmiles genai_service_available
                  generate_content lower_unicode cache_data a s).
Proof.
  intros Ha Hinv Hen. destruct a as [|text|]; [done| |]; cbn [perform enabled] in *.
  - rewrite gets_bind. apply keeps_quiz_bind.
    { destruct (disable_answer_input s || _); [by apply keeps_quiz_pass|].
      by apply set_student_answer_keeps. }
    intros s1 Hinv1. apply keeps_quiz_bind; [by apply run_script_keeps|].
    intros s2 Hinv2. rewrite gets_bind.
    destruct (bool_decide (app_stage s2 = Quiz)) eqn:Hstage.
    + apply bool_decide_eq_true in Hstage.
      apply keeps_quiz_bind; [by apply handle_answer_submission_st_keeps|].
      intros s3 Hinv3. by apply run_script_keeps.
    + by apply keeps_quiz_pass.
  - apply andb_true_iff in Hen as [Hstage _].
    apply bool_decide_eq_true in Hstage.
    apply keeps_quiz_bind; [by apply go_to_next_problem_callback_keeps|].
    intros s1 Hinv1. by apply run_script_keeps.
Qed.

Lemma setup_new_quiz_st_failure
    (catalog : list problem) (draws : nat -> nat)
    (MolFromSmiles : list N -> bool) (s : session) :
  let eligible := filtered_problems catalog (selected_categories s)
                    (selected_difficulties s) in
  ~ ((1 <= length eligible)%nat /\ 1 <= num_problems_requested s) ->
  state_of (setup_new_quiz_st catalog draws MolFromSmiles s) = s.
Proof.
  intros eligible Hfail. subst eligible.
  destruct_session s. cbn [selected_categories selected_difficulties
                           num_problems_requested] in Hfail.
  unfold setup_new_quiz_st. unfold_session. cbv zeta.
  destruct (filtered_problems catalog cats0 diffs0) as [|p eligible] eqn:E;
    cbn [nonempty negb].
  - destruct cats0 as [|c cats0], diffs0 as [|d diffs0]; cbn [nonempty orb];
      try done.
    change (filtered_problems catalog [] []) with catalog in E. rewrite E.
    done.
  - cbn [length] in Hfail. unfold start_quiz. unfold_session. cbv zeta.
    destruct (Z.eqb_spec (Z.min requested0 (Z.of_nat (length (p :: eligible)))) 0)
      as [|Hne]; [done|].
    unfold random_sample.
    assert ((0 <=? Z.min requested0 (Z.of_nat (length (p :: eligible)))) = false)
      as -> by (apply Z.leb_gt; cbn [length] in *; lia).
    done.
Qed.

Lemma perform_start_practice_invariant
    (catalog : list problem) (draws : nat -> nat)
    (MolFromSmiles : list N -> bool) (genai_service_available : bool)
    (generate_content : list N -> list N -> list N + list N)
    (lower_unicode : list N -> list N) (cache_data : explanation_cache)
    (s : session) :
  app_stage s = Setup ->
  app_stage (state_of (perform catalog draws MolFromSmiles
                         genai_service_available generate_content
                         lower_unicode cache_data start_practice s)) = Quiz ->
  quiz_invariant (state_of (perform catalog draws MolFromSmiles
                              genai_service_available generate_content
                              lower_unicode cache_data start_practice s)).
Proof.
  intros Hsetup. cbn [perform].
  match goal with |- app_stage ?x = _ -> _ => remember x as s' eqn:Hs' end.
  destruct (decide ((1 <= length (filtered_problems catalog
                                    (selected_categories s)
                                    (selected_difficulties s)))%nat
                    /\ 1 <= num_problems_requested s)) as [[Hn Hr]|Hfail].
  - destruct (setup_new_quiz_st_success catalog draws MolFromSmiles s Hn Hr)
      as (first & _ & Hret & Hstage & Hlist & Htot & Hidx & Hscore & _).
    assert (Hlen : length (sample_pool draws 0
                             (filtered_problems catalog (selected_categories s)
                                (selected_difficulties s))
                             (Z.to_nat (Z.min (num_problems_requested s)
                                (Z.of_nat (length (filtered_problems catalog
                                   (selected_categories s)
                                   (selected_difficulties s)))))))
                   = Z.to_nat (Z.min (num_problems_requested s)
                                (Z.of_nat (length (filtered_problems catalog
                                   (selected_categories s)
                                   (selected_difficulties s))))))
      by (apply sample_pool_length; lia).
    unfold mbind at 1, M_bind in Hs'.
    destruct (setup_new_quiz_st catalog draws MolFromSmiles s)
      as [[] s1 out|]; cbn in Hret, Hstage, Hlist, Htot, Hidx, Hscore; [|done].
    rewrite gets_bind, Hstage in Hs'.
    rewrite bool_decide_eq_true_2 in Hs' by done.
    assert (Hinv1 : quiz_invariant s1).
    { unfold quiz_invariant. rewrite Hstage, Htot, Hidx, Hscore, Hlist, Hlen.
      destruct (is_current_problem_answered s1); repeat split; lia. }
    destruct (run_script_keeps MolFromSmiles s1 Hinv1) as (_ & Hinv & _).
    intros _. subst s'. by destruct (run_script MolFromSmiles s1).
  - pose proof (setup_new_quiz_st_failure catalog draws MolFromSmiles s Hfail)
      as Hsame.
    unfold mbind at 1, M_bind in Hs'.
    destruct (setup_new_quiz_st catalog draws MolFromSmiles s)
      as [[] s1 out|e s1 out]; cbn in Hsame; subst s1.
    + rewrite gets_bind, Hsetup in Hs'.
      rewrite bool_decide_eq_false_2 in Hs' by done.
      cbn in Hs'. subst s'. by rewrite Hsetup.
    + cbn in Hs'. subst s'. by rewrite Hsetup.
Qed.

(** C5: in every session reached from a started quiz by submitting answers
    and moving on, as far as the buttons of the quiz page allow it, the
    score lies between 0 and the length of the problem list, and every
    further such action returns without lowering the score; this holds
    whatever the store of [st.cache_data] holds at each action. *)
Theorem score_bounded_and_never_decreases
    (catalog : list problem) (draws : nat -> nat)
    (MolFromSmiles : list N -> bool) (genai_service_available : bool)
    (generate_content : list N -> list N -> list N + list N)
    (lower_unicode : list N -> list N) (cache_data : explanation_cache)
    (s_setup s0 s : session) :
  app_stage s_setup = Setup ->
  s0 = state_of (perform catalog draws MolFromSmiles genai_service_available
                   generate_content lower_unicode cache_data
                   start_practice s_setup) ->
  app_stage s0 = Quiz ->
  reachable catalog draws MolFromSmiles genai_service_available
    generate_content lower_unicode s0 s ->
  0 <= current_score s <= Z.of_nat (length (quiz_problems_list s))
  /\ forall a cache_data', a <> start_practice -> enabled a s = true ->
       let o := perform catalog draws MolFromSmiles genai_service_available
                  generate_content lower_unicode cache_data' a s in
       returned o = true /\ current_score s <= current_score (state_of o).
Proof.
  intros Hsetup -> Hquiz Hreach.
  assert (Hinv : quiz_invariant s).
  { induction Hreach as [|s a cache_data' _ IH Ha Hen].
    - by apply perform_start_practice_invariant.
    - by apply perform_keeps. }
  split.
  - destruct Hinv as (Ht & H0 & Hs).
    destruct (app_stage s), (is_current_problem_answered s); lia.
  - intros a cache_data' Ha Hen o.
    destruct (perform_keeps catalog draws MolFromSmiles genai_service_available
                generate_content lower_unicode cache_data' a s Ha Hinv Hen)
      as (Hret & _ & Hscore).
    done.
Qed.

Lemma score_bounded_and_never_decreases_witness :
  0 <= current_score
         (state_of (perform practice_problems (fun i => i) (fun _ => true)
                      false (fun _ _ => inl [])
                      lower_nothing empty_cache (submitAnswer (lit "Methane"))
                      (state_of (perform practice_problems (fun i => i)
                                   (fun _ => true) false (fun _ _ => inl [])
                                   lower_nothing empty_cache
                                   start_practice
                                   (set_num_problems_requested 3 defaults)))))
  <= 3.
Proof.
  destruct (score_bounded_and_never_decreases practice_problems (fun i => i)
              (fun _ => true) false (fun _ _ => inl [])
              lower_nothing empty_cache
              (set_num_problems_requested 3 defaults)
              (state_of (perform practice_problems (fun i => i)
                           (fun _ => true) false (fun _ _ => inl [])
                           lower_nothing empty_cache
                           start_practice
                           (set_num_problems_requested 3 defaults)))
              (state_of (perform practice_problems (fun i => i) (fun _ => true)
                           false (fun _ _ => inl [])
                           lower_nothing empty_cache (submitAnswer (lit "Methane"))
                           (state_of (perform practice_problems (fun i => i)
                                        (fun _ => true) false (fun _ _ => inl [])
                                        lower_nothing empty_cache
                                        start_practice
                                        (set_num_problems_requested 3 defaults))))))
    as [Hbounds _].
  - reflexivity.
  - reflexivity.
  - vm_compute. reflexivity.
  - apply reachable_step; [apply reachable_here|discriminate|].
    vm_compute. reflexivity.
  - replace 3 with
      (Z.of_nat (length (quiz_problems_list
         (state_of (perform practice_problems (fun i => i) (fun _ => true)
                      false (fun _ _ => inl [])
                      lower_nothing empty_cache (submitAnswer (lit "Methane"))
                      (state_of (perform practice_problems (fun i => i)
                                   (fun _ => true) false (fun _ _ => inl [])
                                   lower_nothing empty_cache
                                   start_practice
                                   (set_num_problems_requested 3 defaults))))))))
      by (vm_compute; reflexivity).
    exact Hbounds.
Defined.

(** The scenario of the specification on the shipped bank: three problems
    are drawn, the first is answered with its name in another case, and
    the quiz is walked to its end. *)
Example three_problem_quiz :
  let run := perform practice_problems (fun i => i) (fun _ => true)
               false (fun _ _ => inl []) lower_nothing empty_cache in
  let s0 := state_of (run start_practice (set_num_problems_requested 3 defaults)) in
  let s1 := state_of (run (submitAnswer (lit "Methane")) s0) in
  let s2 := state_of (run advance s1) in
  let s3 := state_of (run (submitAnswer (lit "propane")) s2) in
  let s4 := state_of (run advance s3) in
  let s5 := state_of (run (submitAnswer (lit "prop ane")) s4) in
  let s6 := state_of (run advance s5) in
  name <$> quiz_problems_list s0 = [lit "methane"; lit "ethane"; lit "propane"]
  /\ (current_score s1, is_current_problem_correct s1) = (1, true)
  /\ (problem_index s2, is_current_problem_answered s2) = (1, false)
  /\ (current_score s3, is_current_problem_correct s3) = (1, false)
  /\ (current_score s5, is_current_problem_correct s5) = (2, true)
  /\ (app_stage s6, current_score s6) = (Results, 2).
Proof. vm_compute. repeat split. Qed.

(** ** The text of the generated explanation *)

Local Open Scope N_scope.

Lemma foldl_extract_line (lines : list (list N)) (acc : list (list N)) (b : bool) :
  (foldl extract_line (acc, b) lines).1
  = acc ++ retained b (processed_line_content <$> lines).
Proof.
  revert acc b. induction lines as [|line lines IH]; intros acc b; cbn.
  - by rewrite app_nil_r.
  - destruct (is_error_step _); [by rewrite IH, <- app_assoc|].
    destruct (is_step _); [done|].
    destruct (is_comment _ && b); [by rewrite IH, <- app_assoc|done].
Qed.

Lemma result_lines_retained (text_block : list N) :
  result_lines text_block
  = retained false (processed_line_content <$> lines_of text_block).
Proof. unfold result_lines. by rewrite foldl_extract_line. Qed.

Lemma is_comment_not_step (p : list N) : is_comment p = true -> is_step p = false.
Proof.
  unfold is_comment, is_step, startswith.
  rewrite bool_decide_eq_true, bool_decide_eq_false.
  intros [k ->] [k' Hk']. vm_compute in Hk'. discriminate.
Qed.

Lemma is_error_step_is_step (p : list N) : is_error_step p = true -> is_step p = true.
Proof. unfold is_error_step, is_step. by intros [? _]%andb_true_iff. Qed.

Lemma is_comment_not_error_step (p : list N) :
  is_comment p = true -> is_error_step p = false.
Proof.
  intros Hc. apply is_comment_not_step in Hc.
  destruct (is_error_step p) eqn:E; [|done].
  apply is_error_step_is_step in E. congruence.
Qed.

Lemma retained_sublist (b : bool) (ps : list (list N)) :
  retained b ps `sublist_of` ps.
Proof.
  revert b. induction ps as [|p ps IH]; intros b; cbn; [done|].
  destruct (is_error_step p); [by apply sublist_skip|].
  destruct (is_step p); [by apply sublist_cons|].
  destruct (is_comment p && b); [by apply sublist_skip|by apply sublist_cons].
Qed.

Lemma retained_kinds (b : bool) (ps : list (list N)) (r : list N) :
  r ∈ retained b ps -> is_error_step r = true \/ is_comment r = true.
Proof.
  revert b. induction ps as [|p ps IH]; intros b; cbn; [by intros ?%elem_of_nil|].
  destruct (is_error_step p) eqn:E.
  { intros [->|?]%elem_of_cons; eauto. }
  destruct (is_step p); [by eauto|].
  destruct (is_comment p) eqn:Ec; cbn; [|by eauto].
  destruct b; [|by eauto].
  intros [->|?]%elem_of_cons; eauto.
Qed.

Lemma retained_error_steps (b : bool) (ps : list (list N)) :
  filter (fun p => is_error_step p = true) (retained b ps)
  = filter (fun p => is_error_step p = true) ps.
Proof.
  revert b. induction ps as [|p ps IH]; intros b; cbn [retained]; [done|].
  rewrite (filter_cons _ p ps).
  destruct (is_error_step p) eqn:E.
  { rewrite filter_cons, !decide_True by done. by rewrite IH. }
  rewrite decide_False by congruence.
  destruct (is_step p); [done|].
  destruct (is_comment p && b); [|done].
  rewrite filter_cons, decide_False by congruence. done.
Qed.

Lemma retained_comment_follows (b : bool) (ps before : list (list N))
    (c : list N) (after : list (list N)) :
  retained b ps = before ++ c :: after ->
  is_comment c = true ->
  (exists before' e comments,
      before = before' ++ e :: comments
      /\ is_error_step e = true
      /\ Forall (fun x => is_comment x = true) comments)
  \/ (b = true /\ Forall (fun x => is_comment x = true) before).
Proof.
  intros Hsplit Hc. revert b before Hsplit.
  induction ps as [|p ps IH]; intros b before; cbn.
  { by destruct before. }
  destruct (is_error_step p) eqn:E.
  { destruct before as [|p' before]; cbn; intros [= <- H].
    - apply is_comment_not_error_step in Hc. congruence.
    - left. destruct (IH _ _ H) as [(b' & e & cs & -> & He & Hcs)|[_ Hall]].
      + exists (p :: b'), e, cs. done.
      + exists [], p, before. done. }
  destruct (is_step p).
  { intros H. destruct (IH _ _ H) as [?|[? _]]; [by left|done]. }
  destruct (is_comment p) eqn:Ec; cbn; [|by apply IH].
  destruct b; [|by apply IH].
  destruct before as [|p' before]; cbn; intros [= <- H].
  - right. done.
  - destruct (IH _ _ H) as [(b' & e & cs & -> & He & Hcs)|[_ Hall]].
    + left. exists (p :: b'), e, cs. done.
    + right. split; [done|]. by constructor.
Qed.

Lemma retained_keeps_comment (b : bool) (before : list (list N)) (e : list N)
    (between : list (list N)) (c : list N) (after : list (list N)) :
  is_error_step e = true ->
  Forall (fun x => is_step x = false) between ->
  is_comment c = true ->
  c ∈ retained b (before ++ e :: between ++ c :: after).
Proof.
  intros He Hbetween Hc.
  assert (Htail : c ∈ retained true (between ++ c :: after)).
  { induction Hbetween as [|m between Hm _ IH]; cbn.
    - rewrite (is_comment_not_error_step c Hc), (is_comment_not_step c Hc), Hc.
      cbn. left.
    - assert (is_error_step m = false) as ->.
      { destruct (is_error_step m) eqn:E; [|done].
        apply is_error_step_is_step in E. congruence. }
      rewrite Hm. destruct (is_comment m && true); [by right|done]. }
  revert b. induction before as [|p before IH]; intros b; cbn.
  - rewrite He. by right.
  - destruct (is_error_step p); [right; apply IH|].
    destruct (is_step p); [apply IH|].
    destruct (is_comment p && b); [right; apply IH|apply IH].
Qed.


(** *** The lines of a block and their classification *)

Lemma join_split (sep : N) (s : list N) :
  join [sep] (split sep s) = s
  /\ Forall (fun line => sep ∉ line) (split sep s)
  /\ split sep s <> [].
Proof.
  induction s as [|c s (Hjoin & Hlines & Hne)]; cbn [split].
  - split; [done|]. split; [|done]. repeat constructor. by intros ?%elem_of_nil.
  - destruct (N.eqb_spec c sep) as [->|Hc].
    + split; [|split; [|done]].
      * cbn [join]. destruct (split sep s) as [|l ls]; [done|].
        cbn [app]. by rewrite Hjoin.
      * constructor; [by intros ?%elem_of_nil|done].
    + destruct (split sep s) as [|l ls]; [done|].
      apply Forall_cons in Hlines as [Hl Hls].
      split; [|split; [|done]].
      * rewrite <- Hjoin. cbn [join]. by destruct ls.
      * constructor; [|done]. intros [->|?]%elem_of_cons; done.
Qed.

Lemma lines_of_spec (text_block : list N) :
  join [Char.newline] (lines_of text_block) = strip text_block
  /\ Forall (fun line => Char.newline ∉ line) (lines_of text_block).
Proof.
  unfold lines_of.
  destruct (join_split Char.newline (strip text_block)) as (? & ? & _). done.
Qed.

Lemma is_step_spec (p : list N) :
  is_step p = true <-> lit "Step " `prefix_of` p.
Proof. unfold is_step, startswith. apply bool_decide_eq_true. Qed.

Lemma is_error_step_spec (p : list N) :
  is_error_step p = true
  <-> lit "Step " `prefix_of` p /\ [Char.cross_mark] `suffix_of` p.
Proof.
  unfold is_error_step, startswith, endswith.
  by rewrite andb_true_iff, !bool_decide_eq_true.
Qed.

Lemma is_comment_spec (p : list N) :
  is_comment p = true <-> lit "Comment:" `prefix_of` p.
Proof. unfold is_comment, startswith. apply bool_decide_eq_true. Qed.

Lemma processed_line_content_spec (line : list N) :
  (forall bullet rest,
      strip line = bullet :: rest ->
      bullet = Char.asterisk \/ bullet = Char.hyphen ->
      exists w, rest = w ++ processed_line_content line
                /\ Forall (fun c => is_space c = true) w
                /\ forall c, head (processed_line_content line) = Some c ->
                             is_space c = false)
  /\ ((forall bullet rest,
         strip line = bullet :: rest ->
         bullet <> Char.asterisk /\ bullet <> Char.hyphen) ->
      processed_line_content line = strip line).
Proof.
  unfold processed_line_content, re_sub_bullet. split.
  - intros bullet rest -> Hb.
    assert ((bullet =? Char.asterisk) || (bullet =? Char.hyphen) = true) as ->
      by (by destruct Hb as [->| ->]).
    apply drop_while_split.
  - intros Hplain. destruct (strip line) as [|c rest]; [done|].
    destruct (Hplain c rest eq_refl) as [H1 H2].
    apply N.eqb_neq in H1, H2. by rewrite H1, H2.
Qed.

(** *** The flag and the look back *)

Lemma most_recent_step_snoc (before : list (list N)) (p : list N) :
  most_recent_step (before ++ [p])
  = if is_step p then Some p else most_recent_step before.
Proof.
  unfold most_recent_step. rewrite filter_app.
  destruct (is_step p) eqn:E.
  - rewrite filter_cons_True by done. cbn. by rewrite last_snoc.
  - rewrite filter_cons_False by congruence. cbn. by rewrite app_nil_r.
Qed.

Lemma retained_kept_from (before ps : list (list N)) :
  retained (match most_recent_step before with
            | Some step => is_error_step step
            | None => false
            end) ps
  = kept_from before ps.
Proof.
  revert before. induction ps as [|p ps IH]; intros before; [done|].
  cbn [retained kept_from]. unfold keeps_line.
  rewrite <- IH, most_recent_step_snoc.
  destruct (is_error_step p) eqn:Eerr.
  { rewrite (is_error_step_is_step p Eerr). cbn. by rewrite Eerr. }
  destruct (is_step p) eqn:Estep.
  { assert (is_comment p = false) as ->
      by (destruct (is_comment p) eqn:Ec; [|done];
          apply is_comment_not_step in Ec; congruence).
    cbn. by rewrite Eerr. }
  cbn [orb]. by destruct (is_comment p && _).
Qed.

Local Open Scope N_scope.

(** C4 as stated fails: the flag is not cleared by a comment, so a second
    comment after an incorrect step is kept although the line kept just
    before it is a comment, not an incorrect step. *)
Lemma second_comment_is_retained :
  let step := lit "Step 3: Number the parent chain. " ++ [Char.cross_mark] in
  let text := step ++ [Char.newline] ++ lit "Comment: You numbered from the wrong end."
                   ++ [Char.newline] ++ lit "Comment: The OH group has priority." in
  result_lines text
  = [step; lit "Comment: You numbered from the wrong end.";
     lit "Comment: The OH group has priority."]
  /\ is_comment (lit "Comment: The OH group has priority.") = true
  /\ is_error_step (lit "Comment: You numbered from the wrong end.") = false
  /\ extract_error_steps_and_comments text
     = lit "<ul><li>Step 3: Number the parent chain. " ++ [Char.cross_mark]
       ++ lit " (Incorrect)</li><li>Comment: You numbered from the wrong end.</li><li>Comment: The OH group has priority.</li></ul>".
Proof. vm_compute. repeat split. Qed.

(** C4, amended: the lines kept are, in their original order, exactly the
    incorrect-step lines and the comment lines whose most recent step line
    is an incorrect step; every other line is dropped, also a comment under
    a correct step or before the first step.  So every comment kept is
    preceded, in the output, by an incorrect step with only comments
    between the two (several comments may follow one incorrect step); the
    value returned is the HTML list of the lines kept, or the empty string
    when none is kept.  The
    lines are those of the stripped block between its newlines, each
    stripped and relieved of one leading bullet with the whitespace after
    it; a step line starts with "Step ", an incorrect step also ends with
    the cross mark, a comment starts with "Comment:". *)
Theorem explanation_keeps_error_steps_and_their_comments (text_block : list N) :
  let processed := processed_line_content <$> lines_of text_block in
  let kept := result_lines text_block in
  kept = kept_by_rule processed
  /\ (join [Char.newline] (lines_of text_block) = strip text_block
      /\ Forall (fun line => Char.newline ∉ line) (lines_of text_block))
  /\ (forall line : list N,
        (forall bullet rest,
            strip line = bullet :: rest ->
            bullet = Char.asterisk \/ bullet = Char.hyphen ->
            exists w, rest = w ++ processed_line_content line
                      /\ Forall (fun c => is_space c = true) w
                      /\ forall c, head (processed_line_content line) = Some c ->
                                   is_space c = false)
        /\ ((forall bullet rest,
               strip line = bullet :: rest ->
               bullet <> Char.asterisk /\ bullet <> Char.hyphen) ->
            processed_line_content line = strip line))
  /\ (forall s : list N,
        exists leading trailing,
          s = leading ++ strip s ++ trailing
          /\ Forall (fun c => is_space c = true) leading
          /\ Forall (fun c => is_space c = true) trailing
          /\ (forall c, head (strip s) = Some c -> is_space c = false)
          /\ (forall c, last (strip s) = Some c -> is_space c = false))
  /\ (forall p,
        (is_step p = true <-> lit "Step " `prefix_of` p)
        /\ (is_error_step p = true
            <-> lit "Step " `prefix_of` p /\ [Char.cross_mark] `suffix_of` p)
        /\ (is_comment p = true <-> lit "Comment:" `prefix_of` p))
  /\ kept `sublist_of` processed
  /\ filter (fun p => is_error_step p = true) kept
     = filter (fun p => is_error_step p = true) processed
  /\ (forall r, r ∈ kept -> is_error_step r = true \/ is_comment r = true)
  /\ (forall before e between c after,
        processed = before ++ e :: between ++ c :: after ->
        is_error_step e = true ->
        Forall (fun x => is_step x = false) between ->
        is_comment c = true ->
        c ∈ kept)
  /\ (forall before c after,
        kept = before ++ c :: after ->
        is_comment c = true ->
        exists before' e comments,
          before = before' ++ e :: comments
          /\ is_error_step e = true
          /\ Forall (fun x => is_comment x = true) comments)
  /\ extract_error_steps_and_comments text_block
     = match kept with
       | [] => []
       | _ => lit "<ul>" ++ join [] (html_list_item <$> kept) ++ lit "</ul>"
       end.
Proof.
  intros processed kept. subst kept.
  assert (Hout : extract_error_steps_and_comments text_block
                 = match result_lines text_block with
                   | [] => []
                   | _ => lit "<ul>"
                          ++ join [] (html_list_item <$> result_lines text_block)
                          ++ lit "</ul>"
                   end).
  { unfold extract_error_steps_and_comments.
    by destruct (result_lines text_block). }
  rewrite Hout. clear Hout. rewrite result_lines_retained.
  fold processed.
  split; [apply (retained_kept_from [])|].
  split; [apply lines_of_spec|].
  split; [exact processed_line_content_spec|].
  split; [exact strip_spec|].
  split; [intros p; split; [apply is_step_spec|];
          split; [apply is_error_step_spec|apply is_comment_spec]|].
  split; [apply retained_sublist|].
  split; [apply retained_error_steps|].
  split; [apply retained_kinds|]. split; [|split; [|done]].
  - intros before e between c after -> He Hbetween Hc.
    by apply retained_keeps_comment.
  - intros before c after Hsplit Hc.
    destruct (retained_comment_follows false processed before c after Hsplit Hc)
      as [?|[? _]]; done.
Qed.

(** A comment under a correct step is dropped, though an incorrect step
    came before. *)
Example comment_under_correct_step_is_dropped :
  result_lines
    (lit "Step 1: Find the chain. " ++ [Char.cross_mark; Char.newline]
     ++ lit "Comment: It has three carbons." ++ [Char.newline]
     ++ lit "Step 2: Number it. " ++ [Char.check_mark; Char.newline]
     ++ lit "Comment: Well numbered.")
  = [lit "Step 1: Find the chain. " ++ [Char.cross_mark];
     lit "Comment: It has three carbons."].
Proof. vm_compute. reflexivity. Qed.

Lemma explanation_keeps_error_steps_and_their_comments_witness :
  lit "Comment: b" ∈
    result_lines (lit "Step 1 " ++ [Char.cross_mark; Char.newline]
                  ++ lit "so far so good" ++ [Char.newline] ++ lit "Comment: b").
Proof.
  destruct (explanation_keeps_error_steps_and_their_comments
              (lit "Step 1 " ++ [Char.cross_mark; Char.newline]
               ++ lit "so far so good" ++ [Char.newline] ++ lit "Comment: b"))
    as (_ & _ & _ & _ & _ & _ & _ & _ & Hkeep & _).
  apply (Hkeep [] (lit "Step 1 " ++ [Char.cross_mark]) [lit "so far so good"]
           (lit "Comment: b") []).
  - vm_compute. reflexivity.
  - vm_compute. reflexivity.
  - repeat constructor.
  - vm_compute. reflexivity.
Defined.

(** ** Bullets *)





(** A bulleted block, from the text to the HTML. *)
Example bulleted_block :
  extract_error_steps_and_comments
    (lit "Good try." ++ [Char.newline]
     ++ lit "* Step 1: Identify the principal group. " ++ [Char.check_mark; Char.newline]
     ++ lit "* Comment:" ++ [Char.newline]
     ++ lit "  - Step 2: Number the chain. " ++ [Char.cross_mark; Char.newline]
     ++ lit "  - Comment: You numbered from the wrong end." ++ [Char.newline])
  = lit "<ul><li>Step 2: Number the chain. " ++ [Char.cross_mark]
    ++ lit " (Incorrect)</li><li>Comment: You numbered from the wrong end.</li></ul>".
Proof. vm_compute. reflexivity. Qed.

(** * Further properties *)

(** ** The outcomes of a quiz set-up *)

Local Open Scope Z_scope.

Lemma sample_pool_all {A} (draws : nat -> nat) (i : nat) (pool : list A) :
  sample_pool draws i pool (length pool) ≡ₚ pool.
Proof.
  destruct (sample_pool_permutation draws (length pool) i pool) as [rest Hp];
    [done|].
  assert (Hlen : length rest = O).
  { apply Permutation_length in Hp.
    rewrite length_app, sample_pool_length in Hp by done. lia. }
  destruct rest; [|done]. by rewrite app_nil_r in Hp.
Qed.

(** X1: a set-up has five outcomes.  Nothing eligible under a selection, an
    empty bank, a request of zero problems: an error message and the
    session as it was; a negative request: [ValueError] out of
    [random.sample], the session as it was; otherwise the quiz starts.  So
    from the setup page the quiz stage is reached exactly when a problem is
    eligible and at least one is requested. *)
Theorem setup_new_quiz_st_outcomes
    (catalog : list problem) (draws : nat -> nat)
    (MolFromSmiles : list N -> bool) (s : session) :
  let eligible := filtered_problems catalog (selected_categories s)
                    (selected_difficulties s) in
  let o := setup_new_quiz_st catalog draws MolFromSmiles s in
  (eligible = [] ->
   selected_categories s <> [] \/ selected_difficulties s <> [] ->
   o = Returned () s [st_warning NoProblemsFoundForCriteria;
                      st_error NoProblemsMatchCombination])
  /\ (eligible = [] ->
      selected_categories s = [] -> selected_difficulties s = [] ->
      catalog = []
      /\ o = Returned () s [st_warning NoProblemsFoundForCriteria;
                            st_error NoPracticeProblemsAtAll])
  /\ (eligible <> [] -> num_problems_requested s = 0 ->
      o = Returned () s [st_error NotEnoughProblems])
  /\ (eligible <> [] -> num_problems_requested s < 0 ->
      o = Raised ValueError s [])
  /\ (eligible <> [] -> 1 <= num_problems_requested s ->
      returned o = true /\ app_stage (state_of o) = Quiz)
  /\ (app_stage s = Setup ->
      (app_stage (state_of o) = Quiz
       <-> eligible <> [] /\ 1 <= num_problems_requested s)).
Proof.
  intros eligible o.
  assert (Hsuccess : eligible <> [] -> 1 <= num_problems_requested s ->
                     returned o = true /\ app_stage (state_of o) = Quiz).
  { intros Hne Hr.
    destruct (setup_new_quiz_st_success catalog draws MolFromSmiles s)
      as (first & _ & Hret & Hstage & _); [|done|done].
    fold eligible. destruct eligible; [done|cbn; lia]. }
  assert (Hfail : ~ (eligible <> [] /\ 1 <= num_problems_requested s) ->
                  state_of o = s).
  { intros Hnot. apply setup_new_quiz_st_failure. fold eligible.
    intros [Hn Hr]. apply Hnot. split; [|done]. intros E. rewrite E in Hn.
    cbn in Hn. lia. }
  split; [|split; [|split; [|split; [|split]]]].
  - intros Hnone Hsel. subst o eligible. destruct_session s.
    cbn [selected_categories selected_difficulties] in *.
    unfold setup_new_quiz_st. unfold_session. cbv zeta. rewrite Hnone.
    cbn [nonempty negb].
    assert (nonempty cats0 || nonempty diffs0 = true) as ->; [|done].
    apply orb_true_iff. by rewrite !nonempty_true.
  - intros Hnone Hcats Hdiffs. subst o eligible. destruct_session s.
    cbn [selected_categories selected_difficulties] in *. subst.
    change (filtered_problems catalog [] []) with catalog in Hnone.
    split; [done|].
    unfold setup_new_quiz_st. unfold_session. cbv zeta.
    change (filtered_problems catalog [] []) with catalog.
    rewrite Hnone. done.
  - intros Hne Hzero. subst o eligible. destruct_session s.
    cbn [selected_categories selected_difficulties num_problems_requested] in *.
    subst. unfold setup_new_quiz_st. unfold_session. cbv zeta.
    apply nonempty_true in Hne. rewrite Hne. cbn [negb].
    unfold start_quiz. unfold_session. cbv zeta.
    rewrite Z.min_l by lia. done.
  - intros Hne Hneg. subst o eligible. destruct_session s.
    cbn [selected_categories selected_difficulties num_problems_requested] in *.
    unfold setup_new_quiz_st. unfold_session. cbv zeta.
    apply nonempty_true in Hne. rewrite Hne. cbn [negb].
    unfold start_quiz. unfold_session. cbv zeta.
    rewrite Z.min_l by lia.
    assert ((requested0 =? 0) = false) as -> by (apply Z.eqb_neq; lia).
    unfold random_sample.
    assert ((0 <=? requested0) = false) as -> by (apply Z.leb_gt; lia).
    done.
  - exact Hsuccess.
  - intros Hsetup. split.
    + intros Hquiz.
      destruct (decide (eligible <> [] /\ 1 <= num_problems_requested s))
        as [?|Hnot]; [done|].
      rewrite (Hfail Hnot) in Hquiz. congruence.
    + intros [Hne Hr]. by apply Hsuccess.
Qed.

Lemma setup_new_quiz_st_outcomes_witness :
  setup_new_quiz_st practice_problems (fun i => i) (fun _ => true)
    (set_num_problems_requested (-1) defaults)
  = Raised ValueError (set_num_problems_requested (-1) defaults) [].
Proof.
  destruct (setup_new_quiz_st_outcomes practice_problems (fun i => i)
              (fun _ => true) (set_num_problems_requested (-1) defaults))
    as (_ & _ & _ & Hnegative & _).
  apply Hnegative; [discriminate|reflexivity].
Defined.

(** X2: when at least as many problems are requested as are eligible, the
    quiz holds every eligible problem, each as often as the eligible list
    does, in the order the generator gives. *)
Theorem full_request_takes_every_eligible_problem
    (catalog : list problem) (draws : nat -> nat)
    (MolFromSmiles : list N -> bool) (s : session) :
  let eligible := filtered_problems catalog (selected_categories s)
                    (selected_difficulties s) in
  eligible <> [] ->
  Z.of_nat (length eligible) <= num_problems_requested s ->
  quiz_problems_list (state_of (setup_new_quiz_st catalog draws MolFromSmiles s))
  ≡ₚ eligible.
Proof.
  intros eligible Hne Hr.
  assert (Hn : (1 <= length eligible)%nat) by (destruct eligible; [done|cbn; lia]).
  destruct (setup_new_quiz_st_success catalog draws MolFromSmiles s)
    as (first & _ & _ & _ & Hlist & _); [done|lia|].
  rewrite Hlist. fold eligible. rewrite Z.min_r by done.
  rewrite Nat2Z.id. apply sample_pool_all.
Qed.

Lemma full_request_takes_every_eligible_problem_witness :
  quiz_problems_list
    (state_of (setup_new_quiz_st practice_problems (fun i => (7 * i)%nat)
                 (fun _ => true)
                 (set_selected_categories [lit "Alkanol"]
                    (set_num_problems_requested 10 defaults))))
  ≡ₚ filtered_problems practice_problems [lit "Alkanol"] [].
Proof.
  apply (full_request_takes_every_eligible_problem practice_problems
           (fun i => (7 * i)%nat) (fun _ => true)
           (set_selected_categories [lit "Alkanol"]
              (set_num_problems_requested 10 defaults))).
  - vm_compute. discriminate.
  - vm_compute. discriminate.
Defined.

(** X3: a set-up that starts a quiz overwrites every key of the running
    quiz: two sessions with the same selections, requested number and view
    give the same outcome, whatever else they held. *)
Theorem setup_new_quiz_st_forgets_previous_quiz
    (catalog : list problem) (draws : nat -> nat)
    (MolFromSmiles : list N -> bool) (s1 s2 : session) :
  selected_categories s1 = selected_categories s2 ->
  selected_difficulties s1 = selected_difficulties s2 ->
  num_problems_requested s1 = num_problems_requested s2 ->
  last_selected_formula_type s1 = last_selected_formula_type s2 ->
  filtered_problems catalog (selected_categories s1) (selected_difficulties s1)
  <> [] ->
  1 <= num_problems_requested s1 ->
  setup_new_quiz_st catalog draws MolFromSmiles s1
  = setup_new_quiz_st catalog draws MolFromSmiles s2.
Proof.
  intros Hc Hd Hr Hv Hne H1.
  destruct (setup_new_quiz_st_success catalog draws MolFromSmiles s1)
    as (first & Hfirst & _ & _ & Hlist & _);
    [destruct (filtered_problems _ _ _); [done|cbn; lia]|done|].
  rewrite Hlist in Hfirst. clear Hlist. revert Hfirst.
  destruct_session s1.
  destruct s2 as [stage' cats' diffs' requested' problems' index' total' score'
                  smiles' correct_name' alt_names' answer' answered' correct'
                  feedback' ai' formula' input_off' dropdown_off'].
  cbn [selected_categories selected_difficulties num_problems_requested
       last_selected_formula_type] in *. subst cats' diffs' requested' formula'.
  set (eligible := filtered_problems catalog cats0 diffs0) in *.
  assert (Hn : (1 <= length eligible)%nat) by (destruct eligible; [done|cbn; lia]).
  intros Hfirst.
  unfold setup_new_quiz_st. unfold_session. cbv zeta. fold eligible.
  apply nonempty_true in Hne. rewrite Hne. cbn [negb].
  unfold start_quiz. unfold_session. cbv zeta.
  assert ((Z.min requested0 (Z.of_nat (length eligible)) =? 0) = false) as ->
    by (apply Z.eqb_neq; lia).
  rewrite random_sample_Some by lia.
  unfold load_current_problem_details. unfold_session.
  assert ((0 <? Z.min requested0 (Z.of_nat (length eligible))) = true) as ->
    by (apply Z.ltb_lt; lia).
  unfold_session. rewrite getitem_lookup by done.
  change (Z.to_nat 0) with 0%nat. rewrite Hfirst. unfold_session.
  by destruct (MolFromSmiles (smiles first)).
Qed.

Lemma setup_new_quiz_st_forgets_previous_quiz_witness :
  setup_new_quiz_st practice_problems (fun i => i) (fun _ => true)
    (set_num_problems_requested 2 defaults)
  = setup_new_quiz_st practice_problems (fun i => i) (fun _ => true)
      (set_num_problems_requested 2
         (set_current_score 7 (waiting_session propan_2_ol "x"))).
Proof.
  apply (setup_new_quiz_st_forgets_previous_quiz practice_problems (fun i => i)
           (fun _ => true)); try reflexivity.
  - vm_compute. discriminate.
  - discriminate.
Defined.

(** ** The handler and the generation service *)

Lemma scan_common_errors_found (lower_unicode : list N -> list N)
    (answer : list N) (entries : list common_error) (parts : list (list N)) :
  (scan_common_errors lower_unicode answer entries parts).2 = false
  <-> Forall (fun e => answer <> normalize lower_unicode (incorrect_name e))
        entries.
Proof.
  induction entries as [|e entries IH]; cbn.
  - split; [constructor|done].
  - case_bool_decide as He; cbn.
    + split; [done|]. intros H. apply Forall_cons in H as [H _]. done.
    + rewrite IH. split; [by constructor|]. by intros [_ ?]%Forall_cons.
Qed.

(** The handler, run: what it returns in each of its branches. *)
Lemma handle_answer_submission_st_run
    (genai_service_available : bool)
    (generate_content : list N -> list N -> list N + list N)
    (lower_unicode : list N -> list N) (cache_data : explanation_cache)
    (s : session) :
  let answer := normalize lower_unicode (student_answer s) in
  let is_correct :=
    bool_decide (answer = normalize lower_unicode (current_correct_name s))
    || bool_decide (answer
                    ∈ normalize lower_unicode <$> current_alternative_names s) in
  let answered := set_disable_formula_dropdown true
                    (set_disable_answer_input true
                       (set_is_current_problem_answered true s)) in
  let o := handle_answer_submission_st genai_service_available
             generate_content lower_unicode cache_data s in
  if is_current_problem_answered s then o = Returned () s []
  else if is_correct then
    o = Returned ()
          (set_feedback_message
             (lit "<p style='color:green; font-weight:bold; font-size:1.1em;'>Correct! The name is "
              ++ current_correct_name s ++ lit ".</p>")
             (set_current_score (current_score s + 1)
                (set_is_current_problem_correct true answered)))
          [st_balloons]
  else
    match getitem (quiz_problems_list s) (problem_index s) with
    | None => o = Raised IndexError (set_is_current_problem_correct false answered) []
    | Some problem_spec =>
        let scanned :=
          match common_errors problem_spec with
          | Some entries =>
              scan_common_errors lower_unicode answer entries
                (incorrect_feedback_parts (student_answer s)
                   (current_correct_name s) (current_alternative_names s))
          | None =>
              (incorrect_feedback_parts (student_answer s)
                 (current_correct_name s) (current_alternative_names s), false)
          end in
        let judged := set_feedback_message (join (lit "<br>") scanned.1)
                        (set_is_current_problem_correct false answered) in
        if negb scanned.2 && genai_service_available then
          match cache_data (student_answer s) (current_correct_name s)
                  (current_mol_smiles s) with
          | Some entry =>
              o = Returned () (set_ai_explanation (cached_value entry) judged)
                    (st_error <$> cached_messages entry)
          | None =>
              match generate_content (student_answer s) (current_correct_name s)
              with
              | inl text =>
                  o = Returned ()
                        (set_ai_explanation
                           (extract_error_steps_and_comments text) judged)
                        [generate_content_request (student_answer s)
                           (current_correct_name s)]
              | inr e =>
                  o = Returned ()
                        (set_ai_explanation
                           (lit "Error calling Gemini API: " ++ e) judged)
                        [generate_content_request (student_answer s)
                           (current_correct_name s);
                         st_error (ErrorCallingGemini e)]
              end
          end
        else o = Returned () (set_ai_explanation [] judged) []
    end.
Proof.
  destruct_session s. unfold handle_answer_submission_st. unfold_session.
  cbv zeta. destruct answered0; [done|].
  destruct (bool_decide _ || _); [done|].
  destruct (getitem _ _) as [problem_spec|]; [|done].
  destruct (match common_errors problem_spec with Some _ => _ | None => _ end)
    as [parts found].
  unfold get_ai_nomenclature_explanation_st, replay. unfold_session.
  cbn [fst snd].
  destruct (negb found && genai_service_available) eqn:E; [|done].
  destruct (cache_data _ _ _) as [entry|].
  { cbn [app]. by rewrite !app_nil_r. }
  apply andb_true_iff in E as [_ ->]. cbn [negb].
  by destruct (generate_content _ _).
Qed.

(** X4: the service cannot disturb the quiz.  Whether it is available or
    not, answers or raises, and whatever the store of [st.cache_data]
    holds, the handler leaves the same session apart from
    [ai_explanation]; it raises only when the index does not point into the
    problem list of an unanswered problem whose answer is wrong, and then
    the problem is already marked answered. *)
Theorem handler_state_independent_of_service
    (available1 available2 : bool)
    (generate1 generate2 : list N -> list N -> list N + list N)
    (lower_unicode : list N -> list N) (cache1 cache2 : explanation_cache)
    (s : session) :
  let o1 := handle_answer_submission_st available1 generate1 lower_unicode
              cache1 s in
  let o2 := handle_answer_submission_st available2 generate2 lower_unicode
              cache2 s in
  set_ai_explanation [] (state_of o1) = set_ai_explanation [] (state_of o2)
  /\ returned o1 = returned o2
  /\ (returned o1 = false
      <-> is_current_problem_answered s = false
          /\ normalize lower_unicode (student_answer s)
             <> normalize lower_unicode (current_correct_name s)
          /\ (normalize lower_unicode (student_answer s)
              ∉ normalize lower_unicode <$> current_alternative_names s)
          /\ getitem (quiz_problems_list s) (problem_index s) = None)
  /\ (returned o1 = false -> is_current_problem_answered (state_of o1) = true).
Proof.
  intros o1 o2.
  pose proof (handle_answer_submission_st_run available1 generate1
                lower_unicode cache1 s) as H1.
  pose proof (handle_answer_submission_st_run available2 generate2
                lower_unicode cache2 s) as H2.
  cbv zeta in H1, H2. fold o1 in H1. fold o2 in H2.
  destruct (is_current_problem_answered s) eqn:Ea.
  { rewrite H1, H2. cbn. repeat split; try done. by intros (? & _). }
  destruct (bool_decide (normalize lower_unicode (student_answer s)
                         = normalize lower_unicode (current_correct_name s))) eqn:E1.
  { cbn [orb] in H1, H2. rewrite H1, H2. cbn.
    apply bool_decide_eq_true in E1. repeat split; try done.
    by intros (_ & ? & _). }
  destruct (bool_decide (normalize lower_unicode (student_answer s)
                         ∈ (normalize lower_unicode <$> current_alternative_names s))) eqn:E2.
  { cbn [orb] in H1, H2. rewrite H1, H2. cbn.
    apply bool_decide_eq_true in E2. repeat split; try done.
    by intros (_ & _ & ? & _). }
  cbn [orb] in H1, H2.
  apply bool_decide_eq_false in E1, E2.
  destruct (getitem _ _) as [p|] eqn:Eg.
  - cbv zeta in H1, H2.
    assert (Hr1 : returned o1 = true
                  /\ set_ai_explanation [] (state_of o1)
                     = set_ai_explanation []
                         (set_feedback_message
                            (join (lit "<br>")
                               (match common_errors p with
                                | Some entries =>
                                    scan_common_errors lower_unicode
                                      (normalize lower_unicode (student_answer s)) entries
                                      (incorrect_feedback_parts (student_answer s)
                                         (current_correct_name s)
                                         (current_alternative_names s))
                                | None =>
                                    (incorrect_feedback_parts (student_answer s)
                                       (current_correct_name s)
                                       (current_alternative_names s), false)
                                end).1)
                            (set_is_current_problem_correct false
                               (set_disable_formula_dropdown true
                                  (set_disable_answer_input true
                                     (set_is_current_problem_answered true s)))))).
    { destruct (negb _ && available1);
        [destruct (cache1 _ _ _); [|destruct (generate1 _ _)]|];
        rewrite H1; split; try done; by destruct_session s. }
    assert (Hr2 : returned o2 = true
                  /\ set_ai_explanation [] (state_of o2)
                     = set_ai_explanation []
                         (set_feedback_message
                            (join (lit "<br>")
                               (match common_errors p with
                                | Some entries =>
                                    scan_common_errors lower_unicode
                                      (normalize lower_unicode (student_answer s)) entries
                                      (incorrect_feedback_parts (student_answer s)
                                         (current_correct_name s)
                                         (current_alternative_names s))
                                | None =>
                                    (incorrect_feedback_parts (student_answer s)
                                       (current_correct_name s)
                                       (current_alternative_names s), false)
                                end).1)
                            (set_is_current_problem_correct false
                               (set_disable_formula_dropdown true
                                  (set_disable_answer_input true
                                     (set_is_current_problem_answered true s)))))).
    { destruct (negb _ && available2);
        [destruct (cache2 _ _ _); [|destruct (generate2 _ _)]|];
        rewrite H2; split; try done; by destruct_session s. }
    destruct Hr1 as [Hret1 Hs1], Hr2 as [Hret2 Hs2].
    rewrite Hs1, Hs2, Hret1, Hret2. repeat split; try done.
    by intros (_ & _ & _ & ?).
  - rewrite H1, H2. cbn. repeat split; try done. by destruct_session s.
Qed.

(** X5: the generation service is asked exactly when it is available,
    the store of [st.cache_data] has no entry for the answer, the correct
    name and the SMILES string of the session, and an unanswered problem
    gets a wrong answer that matches no common-error key of the problem
    under the index; it is asked once, before anything else is shown, with
    the answer as typed and the correct name.  With an entry in the store
    the service is not asked. *)
Theorem service_asked_only_without_curated_explanation
    (genai_service_available : bool)
    (generate_content : list N -> list N -> list N + list N)
    (lower_unicode : list N -> list N) (cache_data : explanation_cache)
    (s : session) (asked_answer asked_name : list N) :
  let o := handle_answer_submission_st genai_service_available
             generate_content lower_unicode cache_data s in
  (generate_content_request asked_answer asked_name ∈ events_of o
   <-> genai_service_available = true
       /\ cache_data (student_answer s) (current_correct_name s)
            (current_mol_smiles s) = None
       /\ asked_answer = student_answer s
       /\ asked_name = current_correct_name s
       /\ is_current_problem_answered s = false
       /\ normalize lower_unicode (student_answer s)
          <> normalize lower_unicode (current_correct_name s)
       /\ (normalize lower_unicode (student_answer s)
           ∉ normalize lower_unicode <$> current_alternative_names s)
       /\ exists problem_spec,
            getitem (quiz_problems_list s) (problem_index s) = Some problem_spec
            /\ forall entries, common_errors problem_spec = Some entries ->
                 Forall (fun e => normalize lower_unicode (student_answer s)
                                  <> normalize lower_unicode (incorrect_name e))
                   entries)
  /\ (forall before after,
        events_of o
        = before ++ generate_content_request asked_answer asked_name :: after ->
        before = []
        /\ forall a c, generate_content_request a c ∉ after)
  /\ (forall entry,
        cache_data (student_answer s) (current_correct_name s)
          (current_mol_smiles s) = Some entry ->
        forall a c, generate_content_request a c ∉ events_of o).
Proof.
  intros o.
  pose proof (handle_answer_submission_st_run genai_service_available
                generate_content lower_unicode cache_data s) as H.
  cbv zeta in H. fold o in H.
  assert (Hreplay : forall (msgs : list message) a c,
             generate_content_request a c ∉ st_error <$> msgs).
  { intros msgs a c (m & ? & _)%list_elem_of_fmap. done. }
  destruct (is_current_problem_answered s) eqn:Ea.
  { rewrite H. cbn. split; [|split].
    - split; [by intros ?%elem_of_nil|]. by intros (_ & _ & _ & _ & ? & _).
    - intros [|??] ?; done.
    - intros _ _ a c ?%elem_of_nil. done. }
  destruct (bool_decide (normalize lower_unicode (student_answer s)
                         = normalize lower_unicode (current_correct_name s)))
    eqn:E1.
  { cbn [orb] in H. rewrite H. cbn. apply bool_decide_eq_true in E1.
    split; [|split].
    - split; [|by intros (_ & _ & _ & _ & _ & ? & _)].
      intros [?|?%elem_of_nil]%elem_of_cons; done.
    - intros [|? [|??]] ?; done.
    - intros _ _ a c [?|?%elem_of_nil]%elem_of_cons; done. }
  destruct (bool_decide (normalize lower_unicode (student_answer s)
                         ∈ (normalize lower_unicode
                              <$> current_alternative_names s))) eqn:E2.
  { cbn [orb] in H. rewrite H. cbn. apply bool_decide_eq_true in E2.
    split; [|split].
    - split; [|by intros (_ & _ & _ & _ & _ & _ & ? & _)].
      intros [?|?%elem_of_nil]%elem_of_cons; done.
    - intros [|? [|??]] ?; done.
    - intros _ _ a c [?|?%elem_of_nil]%elem_of_cons; done. }
  cbn [orb] in H. apply bool_decide_eq_false in E1, E2.
  destruct (getitem _ _) as [p|] eqn:Eg.
  2:{ rewrite H. cbn. split; [|split].
      - split; [by intros ?%elem_of_nil|].
        by intros (_ & _ & _ & _ & _ & _ & _ & ? & ? & _).
      - intros [|??] ?; done.
      - intros _ _ a c ?%elem_of_nil. done. }
  cbv zeta in H.
  assert (Hscan : (match common_errors p with
                   | Some entries =>
                       scan_common_errors lower_unicode
                         (normalize lower_unicode (student_answer s)) entries
                         (incorrect_feedback_parts (student_answer s)
                            (current_correct_name s)
                            (current_alternative_names s))
                   | None =>
                       (incorrect_feedback_parts (student_answer s)
                          (current_correct_name s)
                          (current_alternative_names s), false)
                   end).2 = false
                  <-> forall entries, common_errors p = Some entries ->
                        Forall (fun e => normalize lower_unicode (student_answer s)
                                         <> normalize lower_unicode
                                              (incorrect_name e)) entries).
  { destruct (common_errors p) as [entries|]; cbn [snd].
    - rewrite scan_common_errors_found. split; [by intros ? ? [= <-]|eauto].
    - split; [done|done]. }
  destruct (match common_errors p with Some _ => _ | None => _ end) as [parts found].
  cbn [fst snd] in *.
  destruct found; cbn [negb andb] in H.
  { rewrite H. cbn. split; [|split].
    - split; [by intros ?%elem_of_nil|].
      intros (_ & _ & _ & _ & _ & _ & _ & p' & [= <-] & Hall).
      apply Hscan in Hall. done.
    - intros [|??] ?; done.
    - intros _ _ a c ?%elem_of_nil. done. }
  destruct genai_service_available.
  2:{ rewrite H. cbn. split; [|split].
      - split; [by intros ?%elem_of_nil|]. by intros (? & _).
      - intros [|??] ?; done.
      - intros _ _ a c ?%elem_of_nil. done. }
  assert (Hall := proj1 Hscan eq_refl).
  destruct (cache_data _ _ _) as [entry|] eqn:Ecache.
  { rewrite H. cbn [events_of]. split; [|split].
    - split; [by intros ?%Hreplay|]. by intros (_ & ? & _).
    - intros before after Heq. exfalso.
      apply (Hreplay (cached_messages entry) asked_answer asked_name).
      rewrite Heq. apply elem_of_app. right. left.
    - intros _ _ a c. apply Hreplay. }
  destruct (generate_content _ _) as [text|e]; rewrite H; cbn;
    (split; [|split; [|by intros ? [=]]]).
  - split.
    + intros [[= -> ->]|?%elem_of_nil]%elem_of_cons; [|done].
      repeat split; try done. eauto.
    + intros (_ & _ & -> & -> & _). left.
  - intros [|? [|??]] after [= ? ?]; subst; [|done..].
    split; [done|]. intros a c ?%elem_of_nil. done.
  - split.
    + intros [[= -> ->]|[?|?%elem_of_nil]%elem_of_cons]%elem_of_cons; [|done..].
      repeat split; try done. eauto.
    + intros (_ & _ & -> & -> & _). left.
  - intros [|? [|? [|??]]] after [= ? ?]; subst; try done.
    split; [done|]. intros a c [?|?%elem_of_nil]%elem_of_cons; done.
Qed.

(** ** The problem on the quiz page *)

Lemma load_current_problem_details_flags
    (MolFromSmiles : list N -> bool) (s : session) (problem_spec : problem) :
  problem_index s < total_problems_in_quiz s ->
  getitem (quiz_problems_list s) (problem_index s) = Some problem_spec ->
  let o := load_current_problem_details MolFromSmiles s in
  disable_answer_input (state_of o)
  = disable_answer_input s || negb (MolFromSmiles (smiles problem_spec))
  /\ is_current_problem_correct (state_of o) = is_current_problem_correct s
  /\ student_answer (state_of o) = student_answer s.
Proof.
  intros Hlt Hget. destruct_session s; cbn in Hlt, Hget.
  unfold load_current_problem_details. unfold_session.
  rewrite (proj2 (Z.ltb_lt _ _) Hlt), Hget.
  destruct (MolFromSmiles _); cbn [negb app];
    rewrite ?orb_true_r, ?orb_false_r; done.
Qed.

Lemma load_current_problem_details_shows
    (MolFromSmiles : list N -> bool) (s : session) :
  quiz_invariant s -> app_stage s = Quiz ->
  (disable_answer_input s = true -> is_current_problem_answered s = true) ->
  (forall p, getitem (quiz_problems_list s) (problem_index s) = Some p ->
             MolFromSmiles (smiles p) = false ->
             is_current_problem_correct s = false) ->
  keeps_shown MolFromSmiles (load_current_problem_details MolFromSmiles s).
Proof.
  intros Hinv Hquiz Hoff Hcorrect.
  destruct (quiz_invariant_lookup s Hinv Hquiz) as (p & Hp & _ & _ & Hlt).
  apply Z.ltb_lt in Hlt.
  destruct (load_current_problem_details_keeps MolFromSmiles s Hinv Hquiz)
    as (Hret & Hinv' & _).
  destruct (load_current_problem_details_fields MolFromSmiles s p Hlt Hp)
    as (_ & Hname & Halts & Hans & _ & Hlist & Hidx & _ & Hstage & Hsmiles & _).
  destruct (load_current_problem_details_flags MolFromSmiles s p Hlt Hp)
    as (Hdis & Hcor & _).
  split; [done|]. split; [done|]. split.
  - rewrite Hdis, Hans. destruct (MolFromSmiles _); cbn;
      rewrite ?orb_true_r, ?orb_false_r; [done|done].
  - intros _. exists p. rewrite Hlist, Hidx, Hname, Halts, Hsmiles, Hans, Hcor.
    repeat split; try done.
    destruct (MolFromSmiles (smiles p)) eqn:E; [done|].
    rewrite orb_true_r. repeat split. by eapply Hcorrect.
Qed.

Lemma keeps_shown_bind (MolFromSmiles : list N -> bool) (m k : M unit) (s : session) :
  keeps_shown MolFromSmiles (m s) ->
  (forall s1, shows_current_problem MolFromSmiles s1 ->
              keeps_shown MolFromSmiles (k s1)) ->
  keeps_shown MolFromSmiles ((m ≫= fun _ => k) s).
Proof.
  intros (Hret & Hshows) Hk. unfold mbind, M_bind.
  destruct (m s) as [[] s1 out|]; cbn in Hret, Hshows; [|done].
  destruct (Hk s1 Hshows) as (Hret' & Hshows').
  destruct (k s1); cbn in Hret', Hshows'; [|done].
  split; done.
Qed.

Lemma keeps_shown_pass (MolFromSmiles : list N -> bool) (s : session) :
  shows_current_problem MolFromSmiles s -> keeps_shown MolFromSmiles (pass s).
Proof. by split. Qed.

Lemma display_quiz_page_st_shows (MolFromSmiles : list N -> bool) (s : session) :
  shows_current_problem MolFromSmiles s -> app_stage s = Quiz ->
  keeps_shown MolFromSmiles (display_quiz_page_st MolFromSmiles s).
Proof.
  intros Hshows Hquiz. unfold display_quiz_page_st.
  rewrite !gets_bind. apply keeps_shown_bind.
  - destruct (_ && _); [|by apply keeps_shown_pass].
    destruct Hshows as (Hinv & Hoff & Hp). apply load_current_problem_details_shows;
      [done..|].
    intros p Hget Hmol. destruct (Hp Hquiz) as (p' & Hget' & _ & _ & Hcase).
    rewrite Hget in Hget'. injection Hget' as <-. rewrite Hmol in Hcase.
    by destruct Hcase as (_ & _ & ?).
  - intros s1 Hshows1. rewrite gets_bind.
    destruct (_ && _); [|by apply keeps_shown_pass].
    rewrite gets_bind. apply keeps_shown_bind.
    + destruct (nonempty _); by split.
    + intros s2 (Hinv & Hoff & Hp).
      destruct (set_answered_keeps s2 Hinv) as (Hret & Hinv' & _).
      split; [done|]. split; [done|].
      destruct_session s2. unfold_session. cbn in *. split; [done|].
      intros Hstage. destruct (Hp Hstage) as (p & ? & ? & ? & Hcase).
      exists p. repeat split; try done.
      destruct (MolFromSmiles (smiles p)); [done|]. by destruct Hcase as (? & _ & ?).
Qed.

Lemma run_script_shows (MolFromSmiles : list N -> bool) (s : session) :
  shows_current_problem MolFromSmiles s ->
  keeps_shown MolFromSmiles (run_script MolFromSmiles s).
Proof.
  intros Hshows. unfold run_script. rewrite gets_bind.
  destruct (app_stage s) eqn:Hstage;
    [by apply keeps_shown_pass| |by apply keeps_shown_pass].
  rewrite !gets_bind.
  destruct (quiz_invariant_lookup s (proj1 Hshows) Hstage) as (_ & _ & -> & -> & _).
  cbn [negb orb]. by apply display_quiz_page_st_shows.
Qed.

Lemma handle_answer_submission_st_shows
    (MolFromSmiles : list N -> bool) (genai_service_available : bool)
    (generate_content : list N -> list N -> list N + list N)
    (lower_unicode : list N -> list N) (cache_data : explanation_cache)
    (s : session) :
  shows_current_problem MolFromSmiles s -> app_stage s = Quiz ->
  keeps_shown MolFromSmiles
    (handle_answer_submission_st genai_service_available generate_content
    lower_unicode cache_data s).
Proof.
  intros (Hinv & Hoff & Hp) Hquiz.
  destruct (handle_answer_submission_st_keeps genai_service_available
              generate_content
              lower_unicode cache_data s Hinv Hquiz) as (Hret & Hinv' & _).
  split; [done|]. split; [done|].
  destruct (Hp Hquiz) as (p & Hget & Hname & Halts & Hcase).
  pose proof (handle_answer_submission_st_run genai_service_available
                generate_content lower_unicode cache_data s) as Hrun.
  cbv zeta in Hrun. rewrite Hget in Hrun.
  destruct (is_current_problem_answered s) eqn:Ea.
  { rewrite Hrun. cbn. split; [by rewrite Ea|]. intros _. exists p.
    by rewrite Ea. }
  assert (Hmol : MolFromSmiles (smiles p) = true).
  { destruct (MolFromSmiles (smiles p)); [done|]. by destruct Hcase as (_ & ? & _). }
  rewrite Hmol in Hcase.
  assert (Hgoal : forall s',
            is_current_problem_answered s' = true ->
            app_stage s' = app_stage s ->
            quiz_problems_list s' = quiz_problems_list s ->
            problem_index s' = problem_index s ->
            current_correct_name s' = current_correct_name s ->
            current_alternative_names s' = current_alternative_names s ->
            current_mol_smiles s' = current_mol_smiles s ->
            (disable_answer_input s' = true -> is_current_problem_answered s' = true)
            /\ (app_stage s' = Quiz ->
                exists problem_spec,
                  getitem (quiz_problems_list s') (problem_index s')
                  = Some problem_spec
                  /\ current_correct_name s' = name problem_spec
                  /\ current_alternative_names s'
                     = alternative_names_list problem_spec
                  /\ if MolFromSmiles (smiles problem_spec)
                     then current_mol_smiles s' = Some (smiles problem_spec)
                     else current_mol_smiles s' = None
                          /\ is_current_problem_answered s' = true
                          /\ is_current_problem_correct s' = false)).
  { intros s' Hans' -> -> -> -> -> ->. split; [done|]. intros _. exists p.
    by rewrite Hmol. }
  destruct (bool_decide _ || _).
  { rewrite Hrun. apply Hgoal; by destruct_session s. }
  cbv zeta in Hrun.
  destruct (negb _ && genai_service_available);
    [destruct (cache_data _ _ _); [|destruct (generate_content _ _)]|];
    rewrite Hrun; apply Hgoal; by destruct_session s.
Qed.

Lemma go_to_next_problem_callback_shows
    (MolFromSmiles : list N -> bool) (s : session) :
  shows_current_problem MolFromSmiles s -> app_stage s = Quiz ->
  keeps_shown MolFromSmiles (go_to_next_problem_callback MolFromSmiles s).
Proof.
  intros (Hinv & _) Hquiz.
  destruct (go_to_next_problem_callback_keeps MolFromSmiles s Hinv Hquiz)
    as (Hret & Hinv' & _).
  revert Hret Hinv'. destruct Hinv as (Ht & H0 & Hs). rewrite Hquiz in Hs.
  unfold go_to_next_problem_callback.
  rewrite !modify_bind, !gets_bind.
  destruct_session s. cbn in Ht, H0, Hs, Hquiz. subst stage0.
  unfold_session.
  destruct (Z.leb_spec total0 (index0 + 1)) as [Hend|Hmore].
  - intros Hret Hinv'. split; [done|]. split; [done|]. cbn. by split.
  - intros _ _. apply load_current_problem_details_shows; [|done..].
    unfold quiz_invariant. cbn. destruct answered0; repeat split; lia.
Qed.

Lemma perform_shows
    (catalog : list problem) (draws : nat -> nat)
    (MolFromSmiles : list N -> bool) (genai_service_available : bool)
    (generate_content : list N -> list N -> list N + list N)
    (lower_unicode : list N -> list N) (cache_data : explanation_cache)
    (a : action) (s : session) :
  a <> start_practice -> shows_current_problem MolFromSmiles s ->
  enabled a s = true ->
  keeps_shown MolFromSmiles
    (perform catalog draws MolFromSmiles genai_service_available
       generate_content lower_unicode cache_data a s).
Proof.
  intros Ha Hshows Hen. destruct a as [|text|]; [done| |]; cbn [perform enabled] in *.
  - rewrite gets_bind. apply keeps_shown_bind.
    { destruct (disable_answer_input s || _); [by apply keeps_shown_pass|].
      split; [done|]. destruct Hshows as (Hinv & Hoff & Hp).
      destruct (set_student_answer_keeps text s Hinv) as (_ & Hinv' & _).
      split; [done|]. by destruct_session s. }
    intros s1 Hshows1. apply keeps_shown_bind; [by apply run_script_shows|].
    intros s2 Hshows2. rewrite gets_bind.
    destruct (bool_decide (app_stage s2 = Quiz)) eqn:Hstage.
    + apply bool_decide_eq_true in Hstage.
      apply keeps_shown_bind; [by apply handle_answer_submission_st_shows|].
      intros s3 Hshows3. by apply run_script_shows.
    + by apply keeps_shown_pass.
  - apply andb_true_iff in Hen as [Hstage _].
    apply bool_decide_eq_true in Hstage.
    apply keeps_shown_bind; [by apply go_to_next_problem_callback_shows|].
    intros s1 Hshows1. by apply run_script_shows.
Qed.

(** ** Keys a function does not touch *)

Lemma field_kept_bind {A B C} (f : session -> A) (m : M B) (k : B -> M C) :
  field_kept f m -> (forall b, field_kept f (k b)) -> field_kept f (m ≫= k).
Proof.
  intros Hm Hk s. unfold mbind, M_bind. specialize (Hm s).
  destruct (m s) as [b s1 out|]; cbn in Hm; [|done].
  specialize (Hk b s1). destruct (k b s1); cbn in *; congruence.
Qed.

Lemma field_kept_gets {A B C} (f : session -> A) (g : session -> B) (k : B -> M C) :
  (forall b, field_kept f (k b)) -> field_kept f (gets g ≫= k).
Proof. intros Hk. apply field_kept_bind; [done|done]. Qed.

Lemma field_kept_modify {A} (f : session -> A) (g : session -> session) :
  (forall s, f (g s) = f s) -> field_kept f (modify g).
Proof. intros Hg s. apply Hg. Qed.

Lemma field_kept_emit {A} (f : session -> A) (e : event) : field_kept f (emit e).
Proof. done. Qed.

Lemma field_kept_pass {A} (f : session -> A) : field_kept f pass.
Proof. done. Qed.

Lemma field_kept_raise {A B} (f : session -> A) (e : exn) :
  field_kept f (raise (A := B) e).
Proof. done. Qed.

Lemma field_kept_if {A B} (f : session -> A) (b : bool) (m1 m2 : M B) :
  field_kept f m1 -> field_kept f m2 -> field_kept f (if b then m1 else m2).
Proof. by destruct b. Qed.

(** Closes a goal [field_kept f m] for a function [m] written with the
    operations of the monad, when no assignment in [m] changes [f]. *)
Ltac field_kept :=
  repeat first
    [ apply field_kept_pass
    | apply field_kept_emit
    | apply field_kept_raise
    | apply field_kept_modify; intros s'; by destruct_session s'
    | apply field_kept_if
    | apply field_kept_bind; [|intros ?]
    | progress cbv beta
    | match goal with
      | |- field_kept _ (match ?x with _ => _ end) => destruct x
      end ].

Lemma load_current_problem_details_keeps_quiz_keys
    (MolFromSmiles : list N -> bool) :
  field_kept current_score (load_current_problem_details MolFromSmiles)
  /\ field_kept problem_index (load_current_problem_details MolFromSmiles)
  /\ field_kept app_stage (load_current_problem_details MolFromSmiles)
  /\ field_kept quiz_problems_list (load_current_problem_details MolFromSmiles)
  /\ field_kept total_problems_in_quiz (load_current_problem_details MolFromSmiles).
Proof.
  unfold load_current_problem_details. repeat split; field_kept; done.
Qed.

Lemma display_quiz_page_st_keeps_quiz_keys (MolFromSmiles : list N -> bool) :
  field_kept current_score (display_quiz_page_st MolFromSmiles)
  /\ field_kept problem_index (display_quiz_page_st MolFromSmiles)
  /\ field_kept app_stage (display_quiz_page_st MolFromSmiles)
  /\ field_kept quiz_problems_list (display_quiz_page_st MolFromSmiles)
  /\ field_kept total_problems_in_quiz (display_quiz_page_st MolFromSmiles).
Proof.
  destruct (load_current_problem_details_keeps_quiz_keys MolFromSmiles)
    as (? & ? & ? & ? & ?).
  unfold display_quiz_page_st. repeat split; field_kept; done.
Qed.

Lemma run_script_keeps_quiz_keys (MolFromSmiles : list N -> bool) :
  field_kept current_score (run_script MolFromSmiles)
  /\ field_kept problem_index (run_script MolFromSmiles)
  /\ field_kept quiz_problems_list (run_script MolFromSmiles)
  /\ field_kept total_problems_in_quiz (run_script MolFromSmiles).
Proof.
  destruct (display_quiz_page_st_keeps_quiz_keys MolFromSmiles)
    as (? & ? & ? & ? & ?).
  unfold run_script. repeat split; field_kept; done.
Qed.

(** ** From the start of a quiz on *)

Lemma setup_new_quiz_st_shows
    (catalog : list problem) (draws : nat -> nat)
    (MolFromSmiles : list N -> bool) (s : session) :
  filtered_problems catalog (selected_categories s) (selected_difficulties s)
  <> [] ->
  1 <= num_problems_requested s ->
  keeps_shown MolFromSmiles (setup_new_quiz_st catalog draws MolFromSmiles s).
Proof.
  intros Hne Hr. unfold setup_new_quiz_st. rewrite !gets_bind. cbv zeta.
  set (eligible := filtered_problems catalog (selected_categories s)
                     (selected_difficulties s)) in *.
  assert (Hn : (1 <= length eligible)%nat) by (destruct eligible; [done|cbn; lia]).
  apply nonempty_true in Hne. rewrite Hne. cbn [negb].
  unfold start_quiz. rewrite gets_bind. cbv zeta.
  assert ((Z.min (num_problems_requested s) (Z.of_nat (length eligible)) =? 0)
          = false) as -> by (apply Z.eqb_neq; lia).
  rewrite random_sample_Some by lia. rewrite !modify_bind.
  assert (Hlen : length (sample_pool draws 0 eligible
                           (Z.to_nat (Z.min (num_problems_requested s)
                                        (Z.of_nat (length eligible)))))
                 = Z.to_nat (Z.min (num_problems_requested s)
                               (Z.of_nat (length eligible))))
    by (apply sample_pool_length; lia).
  apply load_current_problem_details_shows.
  - unfold quiz_invariant. destruct_session s. unfold_session.
    cbn [num_problems_requested] in *. rewrite Hlen. repeat split; lia.
  - by destruct_session s.
  - by destruct_session s.
  - by destruct_session s.
Qed.

Lemma perform_start_practice_shows
    (catalog : list problem) (draws : nat -> nat)
    (MolFromSmiles : list N -> bool) (genai_service_available : bool)
    (generate_content : list N -> list N -> list N + list N)
    (lower_unicode : list N -> list N) (cache_data : explanation_cache)
    (s : session) :
  app_stage s = Setup ->
  app_stage (state_of (perform catalog draws MolFromSmiles
                         genai_service_available generate_content
                         lower_unicode cache_data
                         start_practice s)) = Quiz ->
  shows_current_problem MolFromSmiles
    (state_of (perform catalog draws MolFromSmiles genai_service_available
                 generate_content lower_unicode cache_data start_practice s)).
Proof.
  intros Hsetup. cbn [perform].
  match goal with |- app_stage ?x = _ -> _ => remember x as s' eqn:Hs' end.
  destruct (decide (filtered_problems catalog (selected_categories s)
                      (selected_difficulties s) <> []
                    /\ 1 <= num_problems_requested s)) as [[Hn Hr]|Hfail].
  - destruct (setup_new_quiz_st_shows catalog draws MolFromSmiles s Hn Hr)
      as (Hret & Hshows).
    unfold mbind at 1, M_bind in Hs'.
    destruct (setup_new_quiz_st catalog draws MolFromSmiles s)
      as [[] s1 out|]; cbn in Hret, Hshows; [|done].
    rewrite gets_bind in Hs'. intros Hquiz.
    destruct (bool_decide (app_stage s1 = Quiz)) eqn:E.
    + destruct (run_script_shows MolFromSmiles s1 Hshows) as (_ & Hshows').
      subst s'. by destruct (run_script MolFromSmiles s1).
    + cbn in Hs'. by subst s'.
  - assert (Hsame : state_of (setup_new_quiz_st catalog draws MolFromSmiles s) = s).
    { apply setup_new_quiz_st_failure. intros [Hn Hr]. apply Hfail.
      split; [|done]. intros E. rewrite E in Hn. cbn in Hn. lia. }
    unfold mbind at 1, M_bind in Hs'.
    destruct (setup_new_quiz_st catalog draws MolFromSmiles s)
      as [[] s1 out|e s1 out]; cbn in Hsame; subst s1.
    + rewrite gets_bind, Hsetup in Hs'.
      rewrite bool_decide_eq_false_2 in Hs' by done.
      cbn in Hs'. subst s'. congruence.
    + cbn in Hs'. subst s'. congruence.
Qed.

Lemma in_started_quiz_shows
    (catalog : list problem) (draws : nat -> nat)
    (MolFromSmiles : list N -> bool) (genai_service_available : bool)
    (generate_content : list N -> list N -> list N + list N)
    (lower_unicode : list N -> list N) (s : session) :
  in_started_quiz catalog draws MolFromSmiles genai_service_available
    generate_content lower_unicode s ->
  shows_current_problem MolFromSmiles s.
Proof.
  intros (s_setup & cache_data & Hsetup & Hquiz & Hreach).
  induction Hreach as [|s a cache_data' _ IH Ha Hen].
  - by apply perform_start_practice_shows.
  - by apply perform_shows.
Qed.

(** X6: all through a started quiz, on the quiz page, the correct name and
    the alternative names held in the session are those of the problem
    under the index, the index points into the problem list, whose length
    is the total, and a molecule that does not load leaves no SMILES string
    in the session and the problem answered and not correct. *)
Theorem quiz_page_shows_problem_under_index
    (catalog : list problem) (draws : nat -> nat)
    (MolFromSmiles : list N -> bool) (genai_service_available : bool)
    (generate_content : list N -> list N -> list N + list N)
    (lower_unicode : list N -> list N) (s : session) :
  in_started_quiz catalog draws MolFromSmiles genai_service_available
    generate_content lower_unicode s ->
  app_stage s = Quiz ->
  total_problems_in_quiz s = Z.of_nat (length (quiz_problems_list s))
  /\ 0 <= problem_index s < total_problems_in_quiz s
  /\ exists problem_spec,
       getitem (quiz_problems_list s) (problem_index s) = Some problem_spec
       /\ current_correct_name s = name problem_spec
       /\ current_alternative_names s = alternative_names_list problem_spec
       /\ (MolFromSmiles (smiles problem_spec) = true ->
           current_mol_smiles s = Some (smiles problem_spec))
       /\ (MolFromSmiles (smiles problem_spec) = false ->
           current_mol_smiles s = None
           /\ is_current_problem_answered s = true
           /\ is_current_problem_correct s = false).
Proof.
  intros Hin Hquiz.
  destruct (in_started_quiz_shows _ _ _ _ _ _ _ Hin) as ((Ht & _ & Hs) & _ & Hp).
  rewrite Hquiz in Hs. split; [done|]. split; [tauto|].
  destruct (Hp Hquiz) as (p & ? & ? & ? & Hcase). exists p.
  destruct (MolFromSmiles (smiles p)); repeat split; try done; tauto.
Qed.

Lemma bind_unit_state {B} (m : M unit) (k : M B) (s : session) :
  returned (m s) = true ->
  state_of ((m ≫= fun _ => k) s) = state_of (k (state_of (m s)))
  /\ returned ((m ≫= fun _ => k) s) = returned (k (state_of (m s))).
Proof.
  intros Hret. unfold mbind, M_bind.
  destruct (m s) as [[] s1 out|]; [|done]. cbn. by destruct (k s1).
Qed.

Lemma bind_Returned_nil {A B} (m : M A) (k : A -> M B) (s : session) a s1 :
  m s = Returned a s1 [] -> (m ≫= k) s = k a s1.
Proof. intros H. unfold mbind, M_bind. rewrite H. by destruct (k a s1). Qed.

Lemma run_script_loaded (MolFromSmiles : list N -> bool) (s : session) :
  app_stage s = Quiz ->
  quiz_problems_list s <> [] ->
  total_problems_in_quiz s <> 0 ->
  truthy (current_mol_smiles s) = true ->
  run_script MolFromSmiles s = Returned () s [].
Proof.
  intros Hquiz Hlist Htotal Hsmiles. unfold run_script.
  rewrite gets_bind, Hquiz, !gets_bind.
  apply nonempty_true in Hlist. apply Z.eqb_neq in Htotal.
  rewrite Hlist, Htotal. cbn [negb orb].
  unfold display_quiz_page_st. rewrite !gets_bind, Hsmiles. cbn [negb andb].
  unfold mbind, M_bind, pass, mret, M_ret, gets. by rewrite Hsmiles.
Qed.

Lemma handle_answer_submission_st_keeps_keys
    (genai_service_available : bool)
    (generate_content : list N -> list N -> list N + list N)
    (lower_unicode : list N -> list N) (cache_data : explanation_cache) :
  let handle := handle_answer_submission_st genai_service_available
                  generate_content lower_unicode cache_data in
  field_kept app_stage handle
  /\ field_kept quiz_problems_list handle
  /\ field_kept total_problems_in_quiz handle
  /\ field_kept problem_index handle
  /\ field_kept current_mol_smiles handle
  /\ field_kept student_answer handle
  /\ field_kept current_correct_name handle
  /\ field_kept current_alternative_names handle.
Proof.
  cbv zeta. unfold handle_answer_submission_st, get_ai_nomenclature_explanation_st.
  repeat split; field_kept; done.
Qed.

Lemma handle_answer_submission_st_unanswered
    (genai_service_available : bool)
    (generate_content : list N -> list N -> list N + list N)
    (lower_unicode : list N -> list N) (cache_data : explanation_cache)
    (s : session) (problem_spec : problem) :
  is_current_problem_answered s = false ->
  getitem (quiz_problems_list s) (problem_index s) = Some problem_spec ->
  let o := handle_answer_submission_st genai_service_available
             generate_content lower_unicode cache_data s in
  returned o = true
  /\ is_current_problem_answered (state_of o) = true
  /\ current_score (state_of o)
     = current_score s + (if is_current_problem_correct (state_of o) then 1 else 0).
Proof.
  intros Ha Hget o.
  pose proof (handle_answer_submission_st_run genai_service_available
                generate_content lower_unicode cache_data s) as Hrun.
  cbv zeta in Hrun. fold o in Hrun. rewrite Ha, Hget in Hrun.
  destruct (bool_decide _ || _).
  { rewrite Hrun. by destruct_session s. }
  cbv zeta in Hrun.
  destruct (negb _ && genai_service_available);
    [destruct (cache_data _ _ _); [|destruct (generate_content _ _)]|];
    rewrite Hrun; destruct_session s; cbn; repeat split; lia.
Qed.

(** X7: in a started quiz, an answer submitted on the quiz page is judged
    against the problem under the index: it is correct exactly when it
    normalises to the name or to an alternative name of that problem; the
    problem is then answered, the score is one higher for a correct answer
    and unchanged otherwise, the index stays, and the way on is open.  This
    holds whatever the store of [st.cache_data] holds. *)
Theorem answer_judged_against_problem_under_index
    (catalog : list problem) (draws : nat -> nat)
    (MolFromSmiles : list N -> bool) (genai_service_available : bool)
    (generate_content : list N -> list N -> list N + list N)
    (lower_unicode : list N -> list N) (cache_data : explanation_cache)
    (s : session) (text : list N) :
  in_started_quiz catalog draws MolFromSmiles genai_service_available
    generate_content lower_unicode s ->
  enabled (submitAnswer text) s = true ->
  let o := perform catalog draws MolFromSmiles genai_service_available
             generate_content lower_unicode cache_data (submitAnswer text) s in
  exists problem_spec,
    getitem (quiz_problems_list s) (problem_index s) = Some problem_spec
    /\ returned o = true
    /\ is_current_problem_answered (state_of o) = true
    /\ (is_current_problem_correct (state_of o) = true
        <-> normalize lower_unicode text
            = normalize lower_unicode (name problem_spec)
            \/ exists alt, alt ∈ alternative_names_list problem_spec
                           /\ normalize lower_unicode text
                              = normalize lower_unicode alt)
    /\ current_score (state_of o)
       = current_score s
         + (if is_current_problem_correct (state_of o) then 1 else 0)
    /\ problem_index (state_of o) = problem_index s
    /\ enabled advance (state_of o) = true.
Proof.
  intros Hin Hen o.
  destruct (in_started_quiz_shows _ _ _ _ _ _ _ Hin) as (Hinv & Hoff & Hp).
  cbn [enabled] in Hen. apply andb_true_iff in Hen as [Hquiz Hen].
  apply bool_decide_eq_true in Hquiz. apply negb_true_iff in Hen.
  apply orb_false_iff in Hen as [Hans Hsmiles]. apply negb_false_iff in Hsmiles.
  destruct (Hp Hquiz) as (p & Hget & Hname & Halts & _). exists p.
  destruct (quiz_invariant_lookup s Hinv Hquiz) as (_ & _ & Hlist & Htotal & _).
  apply nonempty_true in Hlist. apply Z.eqb_neq in Htotal.
  assert (Hdis : disable_answer_input s = false).
  { destruct (disable_answer_input s); [|done]. rewrite Hoff in Hans; done. }
  destruct (handle_answer_submission_st_keeps_keys genai_service_available
              generate_content lower_unicode cache_data)
    as (Kstage & Klist & Ktotal & Kindex & Ksmiles & Kanswer & Kname & Kalts).
  set (s1 := set_student_answer text s).
  assert (Hs1 : app_stage s1 = Quiz /\ quiz_problems_list s1 = quiz_problems_list s
                /\ total_problems_in_quiz s1 = total_problems_in_quiz s
                /\ current_mol_smiles s1 = current_mol_smiles s
                /\ problem_index s1 = problem_index s
                /\ is_current_problem_answered s1 = false
                /\ student_answer s1 = text
                /\ current_correct_name s1 = name p
                /\ current_alternative_names s1 = alternative_names_list p
                /\ current_score s1 = current_score s).
  { subst s1. by destruct_session s. }
  destruct Hs1 as (Hq1 & Hl1 & Ht1 & Hm1 & Hi1 & Ha1 & Hx1 & Hn1 & Hal1 & Hsc1).
  destruct (handle_answer_submission_st_unanswered genai_service_available
              generate_content lower_unicode cache_data s1 p)
    as (Hret2 & Hans2 & Hscore2);
    [done|by rewrite Hl1, Hi1|].
  set (o2 := handle_answer_submission_st genai_service_available
               generate_content lower_unicode cache_data s1) in *.
  assert (Ho : o = (handle_answer_submission_st genai_service_available
                      generate_content lower_unicode cache_data
                    ≫= fun _ => run_script MolFromSmiles) s1).
  { subst o. cbn [perform]. rewrite gets_bind, Hdis, Hsmiles. cbn [orb negb].
    rewrite modify_bind. fold s1.
    rewrite (bind_Returned_nil _ _ s1 () s1)
      by (apply run_script_loaded; congruence).
    by rewrite gets_bind, Hq1, bool_decide_eq_true_2. }
  destruct (bind_unit_state
              (handle_answer_submission_st genai_service_available
                 generate_content lower_unicode cache_data)
              (run_script MolFromSmiles) s1 Hret2) as [Hstate Hret].
  fold o2 in Hstate, Hret.
  assert (Hrun : run_script MolFromSmiles (state_of o2)
                 = Returned () (state_of o2) []).
  { apply run_script_loaded.
    - unfold o2. by rewrite Kstage.
    - unfold o2. rewrite Klist. congruence.
    - unfold o2. rewrite Ktotal. congruence.
    - unfold o2. rewrite Ksmiles. congruence. }
  rewrite Hrun in Hstate, Hret. cbn in Hstate, Hret.
  rewrite Ho, Hstate, Hret. split; [done|]. split; [done|].
  split; [done|]. split.
  - unfold o2. rewrite handle_correct_flag by done.
    rewrite is_correct_iff, Hx1, Hn1, Hal1. done.
  - split; [by rewrite Hscore2, Hsc1|].
    split; [unfold o2; by rewrite Kindex|].
    assert (Hq2 : app_stage (state_of o2) = Quiz)
      by (unfold o2; by rewrite Kstage).
    cbn [enabled]. by rewrite Hq2, Hans2.
Qed.

Lemma started_three_problem_quiz :
  in_started_quiz practice_problems (fun i => i) (fun _ => true) false
    (fun _ _ => inl []) lower_nothing
    (state_of (perform practice_problems (fun i => i) (fun _ => true) false
                 (fun _ _ => inl []) lower_nothing empty_cache start_practice
                 (set_num_problems_requested 3 defaults))).
Proof.
  exists (set_num_problems_requested 3 defaults), empty_cache.
  split; [reflexivity|]. split; [vm_compute; reflexivity|]. apply reachable_here.
Qed.

Lemma quiz_page_shows_problem_under_index_witness :
  total_problems_in_quiz
    (state_of (perform practice_problems (fun i => i) (fun _ => true) false
                 (fun _ _ => inl []) lower_nothing empty_cache start_practice
                 (set_num_problems_requested 3 defaults)))
  = 3.
Proof.
  destruct (quiz_page_shows_problem_under_index practice_problems (fun i => i)
              (fun _ => true) false (fun _ _ => inl []) lower_nothing _
              started_three_problem_quiz) as (Htotal & _).
  - vm_compute. reflexivity.
  - rewrite Htotal. vm_compute. reflexivity.
Defined.

Lemma answer_judged_against_problem_under_index_witness :
  current_score
    (state_of (perform practice_problems (fun i => i) (fun _ => true) false
                 (fun _ _ => inl []) lower_nothing empty_cache
                 (submitAnswer (lit "METHANE"))
                 (state_of (perform practice_problems (fun i => i)
                              (fun _ => true) false (fun _ _ => inl [])
                              lower_nothing empty_cache start_practice
                              (set_num_problems_requested 3 defaults)))))
  = 1.
Proof.
  destruct (answer_judged_against_problem_under_index practice_problems
              (fun i => i) (fun _ => true) false (fun _ _ => inl [])
              lower_nothing empty_cache _
              (lit "METHANE") started_three_problem_quiz)
    as (p & _ & _ & _ & _ & Hscore & _).
  - vm_compute. reflexivity.
  - rewrite Hscore. vm_compute. reflexivity.
Defined.

(** ** Moving on *)

Lemma go_to_next_problem_callback_keeps_quiz_keys
    (MolFromSmiles : list N -> bool) :
  field_kept current_score (go_to_next_problem_callback MolFromSmiles)
  /\ field_kept quiz_problems_list (go_to_next_problem_callback MolFromSmiles)
  /\ field_kept total_problems_in_quiz (go_to_next_problem_callback MolFromSmiles).
Proof.
  destruct (load_current_problem_details_keeps_quiz_keys MolFromSmiles)
    as (? & ? & ? & ? & ?).
  unfold go_to_next_problem_callback. repeat split; field_kept; done.
Qed.

Lemma go_to_next_problem_callback_moves
    (MolFromSmiles : list N -> bool) (s : session) :
  let s' := state_of (go_to_next_problem_callback MolFromSmiles s) in
  problem_index s' = problem_index s + 1
  /\ app_stage s'
     = (if total_problems_in_quiz s <=? problem_index s + 1
        then Results else app_stage s).
Proof.
  destruct (load_current_problem_details_keeps_quiz_keys MolFromSmiles)
    as (_ & Kindex & Kstage & _).
  unfold go_to_next_problem_callback. rewrite !modify_bind, !gets_bind.
  cbv beta zeta.
  remember (set_disable_formula_dropdown false _) as s8 eqn:Hs8.
  assert (H8 : problem_index s8 = problem_index s + 1
               /\ total_problems_in_quiz s8 = total_problems_in_quiz s
               /\ app_stage s8 = app_stage s)
    by (subst s8; by destruct_session s).
  destruct H8 as (H8i & H8t & H8s). rewrite H8i, H8t. clear Hs8.
  destruct (total_problems_in_quiz s <=? problem_index s + 1).
  - rewrite <- H8i. by destruct_session s8.
  - by rewrite Kindex, Kstage.
Qed.

Lemma run_script_results (MolFromSmiles : list N -> bool) (s : session) :
  app_stage (state_of (run_script MolFromSmiles s)) = Results
  <-> app_stage s = Results.
Proof.
  destruct (display_quiz_page_st_keeps_quiz_keys MolFromSmiles)
    as (_ & _ & Kstage & _).
  unfold run_script. rewrite gets_bind.
  destruct (app_stage s) eqn:Hstage; cbn; rewrite ?Hstage; [done| |done].
  rewrite !gets_bind. destruct (_ || _).
  - by destruct_session s.
  - by rewrite Kstage, Hstage.
Qed.

Lemma perform_advance_score
    (catalog : list problem) (draws : nat -> nat)
    (MolFromSmiles : list N -> bool) (genai_service_available : bool)
    (generate_content : list N -> list N -> list N + list N)
    (lower_unicode : list N -> list N) (cache_data : explanation_cache)
    (s : session) :
  current_score (state_of (perform catalog draws MolFromSmiles
                             genai_service_available generate_content
                             lower_unicode cache_data advance s))
  = current_score s.
Proof.
  destruct (go_to_next_problem_callback_keeps_quiz_keys MolFromSmiles)
    as (Gscore & _).
  destruct (run_script_keeps_quiz_keys MolFromSmiles) as (Rscore & _).
  cbn [perform]. apply (field_kept_bind current_score); [done|by intros []].
Qed.

(** X8: pressing the button that moves on never changes the score, the
    problem list or the total, moves the index up by one, and ends the quiz
    exactly when the button reads "Finish Practice". *)
Theorem advance_ends_quiz_when_button_says_finish
    (catalog : list problem) (draws : nat -> nat)
    (MolFromSmiles : list N -> bool) (genai_service_available : bool)
    (generate_content : list N -> list N -> list N + list N)
    (lower_unicode : list N -> list N) (cache_data : explanation_cache)
    (s : session) :
  enabled advance s = true ->
  let s' := state_of (perform catalog draws MolFromSmiles
                        genai_service_available generate_content
                        lower_unicode cache_data advance s) in
  current_score s' = current_score s
  /\ quiz_problems_list s' = quiz_problems_list s
  /\ total_problems_in_quiz s' = total_problems_in_quiz s
  /\ problem_index s' = problem_index s + 1
  /\ (app_stage s' = Results <-> next_button_text s = FinishPractice).
Proof.
  intros Hen. cbn [enabled] in Hen. apply andb_true_iff in Hen as [Hquiz _].
  apply bool_decide_eq_true in Hquiz. cbn [perform].
  destruct (go_to_next_problem_callback_keeps_quiz_keys MolFromSmiles)
    as (Gscore & Glist & Gtotal).
  destruct (run_script_keeps_quiz_keys MolFromSmiles)
    as (Rscore & Rindex & Rlist & Rtotal).
  destruct (go_to_next_problem_callback_moves MolFromSmiles s) as [Hindex Hstage].
  split; [|split; [|split; [|split]]].
  - apply (field_kept_bind current_score); [done|by intros []].
  - apply (field_kept_bind quiz_problems_list); [done|by intros []].
  - apply (field_kept_bind total_problems_in_quiz); [done|by intros []].
  - unfold mbind, M_bind.
    destruct (go_to_next_problem_callback MolFromSmiles s) as [[] s1 out|e s1 out];
      cbn in Hindex; [|done].
    specialize (Rindex s1). destruct (run_script MolFromSmiles s1); cbn in *; lia.
  - unfold next_button_text.
    assert (Hres : app_stage (state_of ((go_to_next_problem_callback MolFromSmiles
                                           ≫= fun _ => run_script MolFromSmiles) s))
                   = Results
                   <-> app_stage (state_of (go_to_next_problem_callback
                                              MolFromSmiles s)) = Results).
    { unfold mbind, M_bind.
      destruct (go_to_next_problem_callback MolFromSmiles s) as [[] s1 out|e s1 out];
        [|done].
      pose proof (run_script_results MolFromSmiles s1) as Hr.
      by destruct (run_script MolFromSmiles s1). }
    rewrite Hres, Hstage, Hquiz.
    by destruct (total_problems_in_quiz s <=? problem_index s + 1).
Qed.

Lemma advance_ends_quiz_when_button_says_finish_witness :
  app_stage
    (state_of (perform [] (fun i => i) (fun _ => true) false (fun _ _ => inl [])
    lower_nothing empty_cache
                 advance
                 (set_is_current_problem_answered true
                    (waiting_session propan_2_ol "propan-2-ol"))))
  = Results.
Proof.
  destruct (advance_ends_quiz_when_button_says_finish [] (fun i => i)
              (fun _ => true) false (fun _ _ => inl [])
              lower_nothing empty_cache
              (set_is_current_problem_answered true
                 (waiting_session propan_2_ol "propan-2-ol")))
    as (_ & _ & _ & _ & Hfinish).
  - reflexivity.
  - apply Hfinish. reflexivity.
Defined.

(** X9: in a started quiz, a problem whose molecule does not load can only
    be passed over: no answer can be submitted for it, the button that
    moves on is enabled, the problem is not marked correct, and moving on
    leaves the score as it is. *)
Theorem unloadable_problem_can_only_be_skipped
    (catalog : list problem) (draws : nat -> nat)
    (MolFromSmiles : list N -> bool) (genai_service_available : bool)
    (generate_content : list N -> list N -> list N + list N)
    (lower_unicode : list N -> list N) (cache_data : explanation_cache)
    (s : session) (problem_spec : problem) :
  in_started_quiz catalog draws MolFromSmiles genai_service_available
    generate_content lower_unicode s ->
  app_stage s = Quiz ->
  getitem (quiz_problems_list s) (problem_index s) = Some problem_spec ->
  MolFromSmiles (smiles problem_spec) = false ->
  (forall text, enabled (submitAnswer text) s = false)
  /\ enabled advance s = true
  /\ is_current_problem_correct s = false
  /\ current_score (state_of (perform catalog draws MolFromSmiles
                                genai_service_available generate_content
                                lower_unicode cache_data
                                advance s))
     = current_score s.
Proof.
  intros Hin Hquiz Hget Hmol.
  destruct (in_started_quiz_shows _ _ _ _ _ _ _ Hin) as (_ & _ & Hp).
  destruct (Hp Hquiz) as (p & Hget' & _ & _ & Hcase).
  rewrite Hget in Hget'. injection Hget' as <-. rewrite Hmol in Hcase.
  destruct Hcase as (Hsmiles & Hans & Hcorrect).
  assert (Hen : enabled advance s = true).
  { cbn [enabled]. rewrite Hans. by rewrite bool_decide_eq_true_2. }
  split; [|split; [done|split; [done|]]].
  - intros text. cbn [enabled]. rewrite Hans. cbn. apply andb_false_r.
  - apply perform_advance_score.
Qed.


Lemma started_quiz_without_molecules :
  in_started_quiz practice_problems (fun i => i) (fun _ => false) false
    (fun _ _ => inl []) lower_nothing
    (state_of (perform practice_problems (fun i => i) (fun _ => false) false
                 (fun _ _ => inl []) lower_nothing empty_cache start_practice
                 (set_num_problems_requested 3 defaults))).
Proof.
  exists (set_num_problems_requested 3 defaults), empty_cache.
  split; [reflexivity|]. split; [vm_compute; reflexivity|]. apply reachable_here.
Qed.

Lemma unloadable_problem_can_only_be_skipped_witness :
  enabled advance
    (state_of (perform practice_problems (fun i => i) (fun _ => false) false
                 (fun _ _ => inl []) lower_nothing empty_cache start_practice
                 (set_num_problems_requested 3 defaults)))
  = true.
Proof.
  destruct (unloadable_problem_can_only_be_skipped practice_problems
              (fun i => i) (fun _ => false) false (fun _ _ => inl [])
              lower_nothing empty_cache _
              (mk_problem "C" "methane" "CH4" "Straight-chain Alkane" "Easy")
              started_quiz_without_molecules) as (_ & Hadvance & _).
  - vm_compute. reflexivity.
  - vm_compute. reflexivity.
  - reflexivity.
  - exact Hadvance.
Defined.

(** ** The choices of the setup page *)

Lemma ordered_options_spec (tags : list (option (list N))) (seen : list (list N))
    (c : list N) :
  c ∈ ordered_options tags seen <-> c <> [] /\ Some c ∈ tags /\ c ∉ seen.
Proof.
  revert seen. induction tags as [|tag tags IH]; intros seen; cbn.
  - split; [by intros ?%elem_of_nil|]. by intros (_ & ?%elem_of_nil & _).
  - destruct tag as [[|c0 t0]|].
    + rewrite IH, elem_of_cons. split; [tauto|].
      intros (? & [[= ->]|?] & ?); done.
    + case_bool_decide as Hseen.
      * rewrite IH, elem_of_cons. split; [tauto|].
        intros (? & [[= ->]|?] & ?); done.
      * rewrite elem_of_cons, IH, !elem_of_cons. split.
        -- intros [->|(? & ? & ?)]; [|tauto]. split; [done|]. split; [by left|done].
        -- intros (? & [[= ->]|?] & ?); [by left|].
           destruct (decide (c = c0 :: t0)) as [->|Hne]; [by left|]. right. tauto.
    + rewrite IH, elem_of_cons. split; [tauto|].
      intros (? & [[=]|?] & ?); done.
Qed.

Lemma ordered_options_NoDup (tags : list (option (list N))) (seen : list (list N)) :
  NoDup (ordered_options tags seen).
Proof.
  revert seen. induction tags as [|tag tags IH]; intros seen; cbn;
    [constructor|].
  destruct tag as [[|c0 t0]|]; [done| |done].
  case_bool_decide; [done|]. constructor; [|done].
  rewrite ordered_options_spec, elem_of_cons. tauto.
Qed.

Lemma ordered_options_sublist (tags : list (option (list N))) (seen : list (list N)) :
  ordered_options tags seen `sublist_of` omap id tags.
Proof.
  revert seen. induction tags as [|tag tags IH]; intros seen; cbn; [done|].
  destruct tag as [[|c0 t0]|]; cbn; [by apply sublist_cons| |done].
  case_bool_decide; [by apply sublist_cons|by apply sublist_skip].
Qed.

Lemma ordered_options_order (tags : list (option (list N)))
    (seen : list (list N)) (i j : nat) (c d : list N) :
  (i < j)%nat ->
  ordered_options tags seen !! i = Some c ->
  ordered_options tags seen !! j = Some d ->
  exists k, tags !! k = Some (Some c)
            /\ forall m, tags !! m = Some (Some d) -> (k < m)%nat.
Proof.
  revert seen i j. induction tags as [|tag tags IH]; intros seen i j Hij;
    [done|].
  assert (Hskip : forall seen' i' j',
             (i' < j')%nat ->
             (Some d = tag -> d ∈ ordered_options tags seen' -> False) ->
             ordered_options tags seen' !! i' = Some c ->
             ordered_options tags seen' !! j' = Some d ->
             exists k, (tag :: tags) !! k = Some (Some c)
                       /\ forall m, (tag :: tags) !! m = Some (Some d) ->
                                    (k < m)%nat).
  { intros seen' i' j' Hij' Hnot Hc Hd.
    destruct (IH seen' i' j' Hij' Hc Hd) as (k & Hk & Hfirst).
    exists (S k). split; [done|]. intros [|m] Hm.
    - exfalso. cbn in Hm. injection Hm as ->.
      eapply Hnot; [done|]. by eapply list_elem_of_lookup_2.
    - apply Hfirst in Hm. lia. }
  cbn [ordered_options]. destruct tag as [[|c0 t0]|].
  - apply Hskip; [done|]. intros [= ->] Hd%ordered_options_spec. by destruct Hd.
  - case_bool_decide as Hseen.
    + apply Hskip; [done|]. intros [= ->] Hd%ordered_options_spec. tauto.
    + destruct i as [|i], j as [|j]; try lia; cbn [lookup list_lookup].
      * intros [= <-] Hd. exists 0%nat. split; [done|]. intros [|m] Hm; [|lia].
        exfalso. cbn in Hm. injection Hm as <-.
        apply list_elem_of_lookup_2, ordered_options_spec in Hd.
        destruct Hd as (_ & _ & Hd). apply Hd. left.
      * apply Hskip; [lia|].
        intros [= ->] Hd%ordered_options_spec.
        destruct Hd as (_ & _ & Hd). apply Hd. left.
  - apply Hskip; [done|]. by intros [=].
Qed.

(** X10: the setup page offers each non-empty category of the bank once,
    in the order of its first appearance, and nothing else: of two values
    offered, the one offered first has a problem in the bank before every
    problem with the other value.  A non-empty selection made from the
    values offered, the difficulties left open, always has an eligible
    problem.  The same holds for the difficulties. *)
Theorem setup_page_offers_effective_choices (catalog : list problem) :
  NoDup (ordered_categories_options catalog)
  /\ ordered_categories_options catalog `sublist_of` omap category catalog
  /\ (forall c, c ∈ ordered_categories_options catalog
                <-> c <> [] /\ exists p, p ∈ catalog /\ category p = Some c)
  /\ (forall i j c d,
        (i < j)%nat ->
        ordered_categories_options catalog !! i = Some c ->
        ordered_categories_options catalog !! j = Some d ->
        exists k p, catalog !! k = Some p /\ category p = Some c
                    /\ forall m q, catalog !! m = Some q ->
                                   category q = Some d -> (k < m)%nat)
  /\ (forall selected,
        selected <> [] ->
        (forall c, c ∈ selected -> c ∈ ordered_categories_options catalog) ->
        filtered_problems catalog selected [] <> [])
  /\ NoDup (ordered_difficulties_options catalog)
  /\ ordered_difficulties_options catalog `sublist_of` omap difficulty catalog
  /\ (forall d, d ∈ ordered_difficulties_options catalog
                <-> d <> [] /\ exists p, p ∈ catalog /\ difficulty p = Some d)
  /\ (forall i j c d,
        (i < j)%nat ->
        ordered_difficulties_options catalog !! i = Some c ->
        ordered_difficulties_options catalog !! j = Some d ->
        exists k p, catalog !! k = Some p /\ difficulty p = Some c
                    /\ forall m q, catalog !! m = Some q ->
                                   difficulty q = Some d -> (k < m)%nat)
  /\ (forall selected,
        selected <> [] ->
        (forall d, d ∈ selected -> d ∈ ordered_difficulties_options catalog) ->
        filtered_problems catalog [] selected <> []).
Proof.
  assert (Hspec : forall (key : problem -> option (list N)) c,
             c ∈ ordered_options (key <$> catalog) []
             <-> c <> [] /\ exists p, p ∈ catalog /\ key p = Some c).
  { intros key c. rewrite ordered_options_spec, list_elem_of_fmap. split.
    - intros (? & (p & ? & ?) & _). eauto.
    - intros (? & p & ? & ?). split; [done|]. split; [eauto|].
      by intros ?%elem_of_nil. }
  assert (Hsub : forall (key : problem -> option (list N)),
             ordered_options (key <$> catalog) [] `sublist_of` omap key catalog).
  { intros key. replace (omap key catalog) with (omap id (key <$> catalog)).
    - apply ordered_options_sublist.
    - clear Hspec. induction catalog as [|p ps IH]; [done|]. cbn.
      rewrite IH. by destruct (key p). }
  assert (Horder : forall (key : problem -> option (list N)) i j c d,
             (i < j)%nat ->
             ordered_options (key <$> catalog) [] !! i = Some c ->
             ordered_options (key <$> catalog) [] !! j = Some d ->
             exists k p, catalog !! k = Some p /\ key p = Some c
                         /\ forall m q, catalog !! m = Some q ->
                                        key q = Some d -> (k < m)%nat).
  { intros key i j c d Hij Hc Hd.
    destruct (ordered_options_order _ _ i j c d Hij Hc Hd) as (k & Hk & Hfirst).
    rewrite list_lookup_fmap in Hk.
    destruct (catalog !! k) as [p|] eqn:Hp; [|done]. injection Hk as Hk.
    exists k, p. split; [done|]. split; [done|]. intros m q Hq Hqd.
    apply Hfirst. by rewrite list_lookup_fmap, Hq, <- Hqd. }
  unfold ordered_categories_options, ordered_difficulties_options.
  split; [apply ordered_options_NoDup|]. split; [apply Hsub|].
  split; [apply Hspec|]. split; [apply Horder|]. split.
  { intros [|c selected] Hne Hall; [done|].
    destruct (proj1 (Hspec category c) (Hall c ltac:(left))) as (_ & p & Hp & Hc).
    intros Hnone.
    assert (Hin : p ∈ filtered_problems catalog (c :: selected) []).
    { apply elem_of_filtered_problems. split; [done|]. split; [|done].
      intros _. exists c. split; [done|left]. }
    rewrite Hnone in Hin. by apply elem_of_nil in Hin. }
  split; [apply ordered_options_NoDup|]. split; [apply Hsub|].
  split; [apply Hspec|]. split; [apply Horder|].
  intros [|d selected] Hne Hall; [done|].
  destruct (proj1 (Hspec difficulty d) (Hall d ltac:(left))) as (_ & p & Hp & Hd).
  intros Hnone.
  assert (Hin : p ∈ filtered_problems catalog [] (d :: selected)).
  { apply elem_of_filtered_problems. split; [done|]. split; [done|].
    intros _. exists d. split; [done|left]. }
  rewrite Hnone in Hin. by apply elem_of_nil in Hin.
Qed.

Lemma setup_page_offers_effective_choices_witness :
  filtered_problems practice_problems [lit "Haloalkane"; lit "Alkene"] [] <> [].
Proof.
  destruct (setup_page_offers_effective_choices practice_problems)
    as (_ & _ & _ & _ & Heffective & _).
  apply Heffective; [discriminate|].
  intros c Hc.
  apply elem_of_cons in Hc as [->|Hc]; [decide_by_computation|].
  apply list_elem_of_singleton in Hc as ->. decide_by_computation.
Defined.

(** The choices offered for the shipped bank. *)
Example choices_of_the_shipped_bank :
  ordered_categories_options practice_problems
  = [lit "Straight-chain Alkane"; lit "Branched Alkane"; lit "Alkene";
     lit "Haloalkane"; lit "Alkanol"; lit "Carboxylic Acid";
     lit "Mixed Functional Groups"]
  /\ ordered_difficulties_options practice_problems
     = [lit "Easy"; lit "Medium"; lit "Difficult"; lit "Hard"].
Proof. vm_compute. by split. Qed.

(** ** The condensed formula of a molecule *)

Lemma generate_condensed_formula_cases (catalog : list problem) (mol_smiles : list N) :
  (generate_condensed_formula catalog mol_smiles
   = lit "Condensed formula not found for SMILES: " ++ mol_smiles
   /\ forall q, q ∈ catalog -> smiles q = mol_smiles ->
                truthy (condensed q) = false)
  \/ (exists q, q ∈ catalog /\ smiles q = mol_smiles
                /\ truthy (condensed q) = true
                /\ condensed q = Some (generate_condensed_formula catalog mol_smiles)).
Proof.
  induction catalog as [|p ps IH]; cbn.
  - left. split; [done|]. by intros q ?%elem_of_nil.
  - assert (Hskip : (smiles p = mol_smiles -> truthy (condensed p) = false) ->
              (generate_condensed_formula ps mol_smiles
               = lit "Condensed formula not found for SMILES: " ++ mol_smiles
               /\ forall q, q ∈ p :: ps -> smiles q = mol_smiles ->
                            truthy (condensed q) = false)
              \/ (exists q, q ∈ p :: ps /\ smiles q = mol_smiles
                            /\ truthy (condensed q) = true
                            /\ condensed q
                               = Some (generate_condensed_formula ps mol_smiles))).
    { intros Hp. destruct IH as [[Hnot Hall]|(q & Hq & ?)].
      - left. split; [done|]. intros q [->|?]%elem_of_cons; eauto.
      - right. exists q. split; [by right|done]. }
    destruct (condensed p) as [[|c f]|] eqn:Ec; [by apply Hskip| |by apply Hskip].
    case_bool_decide as Hs; [|by apply Hskip].
    right. exists p. rewrite Ec. split; [left|done].
Qed.

(** X11: the condensed view shows, for a molecule of the bank, the formula
    of the first problem with that SMILES string that has one: the formula
    of the problem itself whenever the problems that share its SMILES
    string share its formula; and the "not found" text exactly when no
    problem with that SMILES string has a formula. *)
Theorem generate_condensed_formula_finds_formula (catalog : list problem) :
  (forall p formula,
      p ∈ catalog -> condensed p = Some formula -> formula <> [] ->
      Forall (fun q => smiles q = smiles p -> truthy (condensed q) = true ->
                       condensed q = Some formula) catalog ->
      generate_condensed_formula catalog (smiles p) = formula)
  /\ (forall mol_smiles,
        Forall (fun q => smiles q = mol_smiles -> truthy (condensed q) = false)
          catalog
        <-> generate_condensed_formula catalog mol_smiles
            = lit "Condensed formula not found for SMILES: " ++ mol_smiles
            /\ forall q, q ∈ catalog -> smiles q = mol_smiles ->
                 condensed q
                 <> Some (lit "Condensed formula not found for SMILES: "
                          ++ mol_smiles)).
Proof.
  split.
  - intros p formula Hp Hc Hne Hall. rewrite Forall_forall in Hall.
    destruct (generate_condensed_formula_cases catalog (smiles p))
      as [[_ Hnone]|(q & Hq & Hs & Ht & Hcq)].
    + specialize (Hnone p Hp eq_refl). rewrite Hc in Hnone. by destruct formula.
    + rewrite (Hall q Hq Hs Ht) in Hcq. congruence.
  - intros mol_smiles. rewrite Forall_forall. split.
    + intros Hall.
      destruct (generate_condensed_formula_cases catalog mol_smiles)
        as [[Hnot _]|(q & Hq & Hs & Ht & _)].
      * split; [done|]. intros q Hq Hs Hc. specialize (Hall q Hq Hs).
        rewrite Hc in Hall. done.
      * rewrite (Hall q Hq Hs) in Ht. done.
    + intros [Hnot Hdiff] q Hq Hs.
      destruct (generate_condensed_formula_cases catalog mol_smiles)
        as [[_ Hnone]|(q' & Hq' & Hs' & Ht' & Hcq')]; [by apply Hnone|].
      rewrite Hnot in Hcq'. by apply Hdiff in Hcq'.
Qed.

Lemma generate_condensed_formula_finds_formula_witness :
  generate_condensed_formula practice_problems (lit "CC(O)C") = lit "CH3CH(OH)CH3".
Proof.
  destruct (generate_condensed_formula_finds_formula practice_problems)
    as [Hfound _].
  apply (Hfound propan_2_ol).
  - decide_by_computation.
  - reflexivity.
  - discriminate.
  - decide_by_computation.
Defined.

(** Every problem of the shipped bank is shown with its own formula. *)
Example shipped_bank_shows_own_formulas :
  Forall (fun p => Some (generate_condensed_formula practice_problems (smiles p))
                   = condensed p) practice_problems.
Proof. decide_by_computation. Qed.

(** ** The validation of the bank *)

Section ValidationFacts.

Variable MolFromSmiles_sanitized : list N -> option Z.
Variable MolFromSmiles_unsanitized : list N -> bool.
Variable SanitizeMol_exception : list N -> option (list N).

Local Abbreviation validate_problem' :=
  (validate_problem MolFromSmiles_sanitized MolFromSmiles_unsanitized
     SanitizeMol_exception).
Local Abbreviation validate_from' :=
  (validate_from MolFromSmiles_sanitized MolFromSmiles_unsanitized
     SanitizeMol_exception).
Local Abbreviation validate' :=
  (validate_smiles_in_practice_problems MolFromSmiles_sanitized
     MolFromSmiles_unsanitized SanitizeMol_exception).
Local Abbreviation rejected := (smiles_rejected MolFromSmiles_sanitized).
Local Abbreviation describes :=
  (entry_describes MolFromSmiles_unsanitized SanitizeMol_exception).

Lemma validate_problem_cases (i : Z) (problem_spec : problem) :
  (rejected problem_spec
   /\ exists e m,
        validate_problem' i problem_spec = ([e], [m])
        /\ invalid_problem e = problem_spec /\ index e = i + 1
        /\ describes e /\ is_entry_error m = true)
  \/ (~ rejected problem_spec
      /\ exists messages,
           validate_problem' i problem_spec = ([], messages)
           /\ Forall (fun m => is_entry_line m = true /\ is_entry_error m = false)
                messages).
Proof.
  unfold validate_problem, smiles_rejected, entry_describes.
  destruct (smiles problem_spec) as [|c text] eqn:Hsmiles; cbn [nonempty negb].
  - left. split; [by left|]. eexists _, _. split; [reflexivity|]. cbn.
    rewrite Hsmiles. cbn. repeat split; try done.
  - destruct (MolFromSmiles_sanitized (c :: text)) as [atoms|] eqn:Hmol.
    + right. split; [by intros [|]|].
      destruct ((atoms =? 0) && nonempty (strip (c :: text)));
        eexists; (split; [reflexivity|]); repeat constructor.
    + left. split; [by right|]. eexists _, _. split; [reflexivity|]. cbn.
      rewrite Hsmiles. cbn.
      destruct (MolFromSmiles_unsanitized (c :: text)) eqn:Hraw; cbn;
        [destruct (SanitizeMol_exception (c :: text)) eqn:Hsan|];
        repeat split; try done; try congruence.
      all: intros ? [= <-]; done.
Qed.

Lemma validate_from_report (problems_list : list problem) (i : Z) :
  invalid_problem <$> (validate_from' i problems_list).1
  = filter rejected problems_list
  /\ Forall (fun e =>
       describes e
       /\ exists k, problems_list !! k = Some (invalid_problem e)
                    /\ index e = i + Z.of_nat k + 1)
       (validate_from' i problems_list).1
  /\ StronglySorted Z.lt (index <$> (validate_from' i problems_list).1)
  /\ Forall (fun m => is_entry_line m = true) (validate_from' i problems_list).2
  /\ length (filter (fun m => is_entry_error m = true)
               (validate_from' i problems_list).2)
     = length (validate_from' i problems_list).1.
Proof.
  revert i. induction problems_list as [|p ps IH]; intros i; cbn [validate_from].
  - cbn. repeat split; constructor.
  - specialize (IH (i + 1)).
    destruct (validate_from' (i + 1) ps) as [entries' messages'] eqn:Hrest.
    cbn [fst snd] in IH. destruct IH as (IHp & IHe & IHs & IHm & IHc).
    assert (Hshift : Forall (fun e =>
               describes e
               /\ exists k, (p :: ps) !! k = Some (invalid_problem e)
                            /\ index e = i + Z.of_nat k + 1) entries').
    { eapply Forall_impl; [exact IHe|]. intros e (? & k & ? & ?).
      split; [done|]. exists (S k). split; [done|]. lia. }
    destruct (validate_problem_cases i p)
      as [(Hbad & e & m & -> & He & Hi & Hd & Hm)
         |(Hgood & messages & -> & Hlines)]; cbn [fst snd app].
    + rewrite filter_cons_True by done. cbn [fmap list_fmap]. rewrite He, IHp.
      split; [done|]. split.
      { constructor; [|done]. split; [done|]. exists 0%nat. rewrite He.
        split; [done|]. lia. }
      split.
      { constructor; [done|]. rewrite Forall_fmap.
        eapply Forall_impl; [exact IHe|]. intros e' (_ & k & _ & ?). cbn. lia. }
      split; [constructor; [by destruct m|done]|].
      rewrite filter_cons_True by done. cbn. by rewrite IHc.
    + rewrite filter_cons_False by done. split; [done|]. split; [done|].
      split; [done|]. split.
      { apply Forall_app. split; [|done].
        eapply Forall_impl; [exact Hlines|]. by intros ? [? ?]. }
      rewrite filter_app, length_app, IHc.
      replace (filter (fun m => is_entry_error m = true) messages) with
        (@nil validation_message); [done|].
      symmetry. clear -Hlines. induction Hlines as [|m ms [_ Hm] _ IH]; [done|].
      by rewrite filter_cons_False by (rewrite Hm; done).
Qed.

(** X12: the validation reports exactly the problems without a SMILES
    string or with one the sanitizing parser rejects, in the order of the
    bank: each entry carries the position (from 1) of its own problem, the
    positions increase, and the error type tells a missing string from a
    syntax error and from a sanitization error.  A molecule with no atoms
    is only a warning. *)
Theorem validation_reports_rejected_problems (problems_list : list problem) :
  invalid_problem <$> (validate' problems_list).1
  = filter rejected problems_list
  /\ StronglySorted Z.lt (index <$> (validate' problems_list).1)
  /\ Forall (fun e =>
       1 <= index e <= Z.of_nat (length problems_list)
       /\ problems_list !! Z.to_nat (index e - 1) = Some (invalid_problem e)
       /\ describes e)
       (validate' problems_list).1.
Proof.
  unfold validate_smiles_in_practice_problems.
  destruct problems_list as [|p ps]; cbn [nonempty negb].
  { cbn. repeat split; constructor. }
  destruct (validate_from_report (p :: ps) 0) as (Hp & He & Hs & _).
  destruct (validate_from' 0 (p :: ps)) as [entries messages].
  cbn [fst snd] in *. split; [done|]. split; [done|].
  eapply Forall_impl; [exact He|]. intros e (Hd & k & Hk & Hi).
  pose proof (lookup_lt_Some _ _ _ Hk) as Hlt.
  replace (Z.to_nat (index e - 1)) with k by lia.
  split; [lia|]. by split.
Qed.

(** X13: the log of the validation.  For an empty bank it is the heading
    and "Practice problems list is empty."; otherwise it is the heading, the
    lines of the entries, one summary line and "--- Validation Complete ---",
    where the summary is "All SMILES strings are valid!" exactly when no
    problem is rejected and else gives the number of rejected problems,
    which is also the number of error lines. *)
Theorem validation_log_summarizes_report (problems_list : list problem) :
  (problems_list = [] ->
     validate' problems_list = ([], [ValidatingSmilesStrings; ProblemsListIsEmpty]))
  /\ (problems_list <> [] ->
      exists body summary,
        (validate' problems_list).2
        = ValidatingSmilesStrings :: body ++ [summary; ValidationComplete]
        /\ Forall (fun m => is_entry_line m = true) body
        /\ length (filter (fun m => is_entry_error m = true) body)
           = length (filter rejected problems_list)
        /\ summary
           = if decide (Forall (fun p => ~ rejected p) problems_list)
             then AllSmilesValid
             else FoundEntriesWithErrors
                    (Z.of_nat (length (filter rejected problems_list))))
  /\ (AllSmilesValid ∈ (validate' problems_list).2
      <-> problems_list <> [] /\ Forall (fun p => ~ rejected p) problems_list)
  /\ (forall count,
        FoundEntriesWithErrors count ∈ (validate' problems_list).2
        <-> 0 < count
            /\ count = Z.of_nat (length (filter rejected problems_list))).
Proof.
  assert (Hnone : forall l : list problem,
             Forall (fun p => ~ rejected p) l <-> filter rejected l = []).
  { intros l. induction l as [|q l IH]; [done|].
    rewrite Forall_cons, IH. destruct (decide (rejected q)).
    - rewrite filter_cons_True by done. split; [tauto|done].
    - rewrite filter_cons_False by done. tauto. }
  assert (Hbody : forall (body : list validation_message) m,
             Forall (fun m => is_entry_line m = true) body ->
             is_entry_line m = false -> m ∉ body).
  { intros body m Hall Hm Hin. rewrite Forall_forall in Hall.
    apply Hall in Hin. congruence. }
  split; [by intros ->|].
  destruct problems_list as [|p ps].
  { split; [done|]. cbn. split.
    - split; [|by intros [? _]].
      intros [?|[?|?%elem_of_nil]%elem_of_cons]%elem_of_cons; done.
    - intros count. split; [|intros [? ?]; cbn in *; lia].
      intros [?|[?|?%elem_of_nil]%elem_of_cons]%elem_of_cons; done. }
  unfold validate_smiles_in_practice_problems. cbn [nonempty negb].
  destruct (validate_from_report (p :: ps) 0) as (Hp & _ & _ & Hlines & Hcount).
  destruct (validate_from' 0 (p :: ps)) as [entries messages].
  cbn [fst snd] in *.
  assert (Hlen : length entries = length (filter rejected (p :: ps))).
  { by rewrite <- Hp, length_fmap. }
  assert (Hsummary :
            (if negb (nonempty entries) then AllSmilesValid
             else FoundEntriesWithErrors (Z.of_nat (length entries)))
            = if decide (Forall (fun p => ~ rejected p) (p :: ps))
              then AllSmilesValid
              else FoundEntriesWithErrors
                     (Z.of_nat (length (filter rejected (p :: ps))))).
  { rewrite <- Hlen. destruct (decide _) as [Hall|Hsome].
    - apply Hnone in Hall. rewrite Hall in Hlen. by destruct entries.
    - destruct entries; [|done]. exfalso. apply Hsome, Hnone.
      by destruct (filter rejected (p :: ps)). }
  rewrite Hsummary. split.
  { intros _. eexists messages, _. split; [reflexivity|]. split; [done|].
    split; [by rewrite Hcount|done]. }
  cbn [app]. split.
  - rewrite elem_of_cons, elem_of_app, elem_of_cons, list_elem_of_singleton.
    split.
    + intros [?|[Hin|[Heq|?]]]; [done|by apply Hbody in Hin| |done].
      split; [done|]. by destruct (decide _).
    + intros [_ Hall]. right. right. left. by destruct (decide _).
  - intros count.
    rewrite elem_of_cons, elem_of_app, elem_of_cons, list_elem_of_singleton.
    split.
    + intros [?|[Hin|[Heq|?]]]; [done|by apply Hbody in Hin| |done].
      destruct (decide _) as [|Hsome]; [done|]. injection Heq as ->.
      split; [|done]. rewrite Hnone in Hsome.
      destruct (filter rejected (p :: ps)); [done|cbn; lia].
    + intros [Hpos ->]. right. right. left.
      destruct (decide _) as [Hall|]; [|done].
      apply Hnone in Hall. rewrite Hall in Hpos. cbn in Hpos. lia.
Qed.

End ValidationFacts.

(** ** Spaces, hyphens and letter case in an answer *)

Lemma filter_drop_while_space (t : list N) :
  Forall (fun c => is_space c = true -> c = Char.space) t ->
  filter (fun c => c <> Char.space /\ c <> Char.hyphen) (drop_while is_space t)
  = filter (fun c => c <> Char.space /\ c <> Char.hyphen) t
  /\ Forall (fun c => is_space c = true -> c = Char.space)
       (drop_while is_space t).
Proof.
  induction 1 as [|c t Hc Ht [IHf IHd]]; [done|]. cbn [drop_while].
  destruct (is_space c) eqn:Hspace; [|split; [done|constructor; [congruence|done]]].
  split; [|done]. rewrite IHf, filter_cons_False; [done|].
  intros [Hne _]. by apply Hne, Hc.
Qed.

Lemma filter_strip_space (t : list N) :
  Forall (fun c => is_space c = true -> c = Char.space) t ->
  filter (fun c => c <> Char.space /\ c <> Char.hyphen) (strip t)
  = filter (fun c => c <> Char.space /\ c <> Char.hyphen) t.
Proof.
  intros Ht. unfold strip, rstrip, lstrip.
  destruct (filter_drop_while_space t Ht) as [Hleft Hrest].
  apply Forall_reverse in Hrest.
  destruct (filter_drop_while_space _ Hrest) as [Hright _].
  by rewrite filter_reverse, Hright, <- filter_reverse, reverse_involutive.
Qed.

Lemma plain_text_latin1 (s : list N) : plain_text s -> is_latin1 s = true.
Proof.
  intros Hs. apply is_latin1_spec. eapply Forall_impl; [exact Hs|].
  by intros c [? _].
Qed.

Lemma normalize_plain_text (lower_unicode : list N -> list N) (s : list N) :
  plain_text s ->
  normalize lower_unicode s
  = filter (fun c => c <> Char.space /\ c <> Char.hyphen) (lower_cp <$> s).
Proof.
  intros Hs. rewrite normalize_filter, lower_latin1 by (by apply plain_text_latin1).
  apply filter_strip_space.
  apply Forall_fmap. eapply Forall_impl; [exact Hs|].
  intros c [_ Hc]. cbn. rewrite is_space_lower_cp. intros Hspace.
  by rewrite (Hc Hspace).
Qed.

Lemma normalize_lower (lower_unicode : list N -> list N) (s : list N) :
  is_latin1 s = true ->
  normalize lower_unicode (lower lower_unicode s) = normalize lower_unicode s.
Proof.
  intros Hs. unfold normalize. do 3 f_equal.
  rewrite (lower_latin1 _ s) by done.
  rewrite lower_latin1.
  - apply fmap_fixed. intros c Hc.
    apply list_elem_of_fmap in Hc as (c0 & -> & _). apply lower_cp_idem.
  - apply is_latin1_spec, Forall_fmap. apply is_latin1_spec in Hs.
    eapply Forall_impl; [exact Hs|]. intros c Hc. by apply lower_cp_latin1.
Qed.

(** X14: in an answer of Latin-1 characters whose only whitespace is the
    space, a space or a hyphen more or less, wherever it stands, and the
    case of the letters do not change the normal form, so the answer is
    judged the same. *)
Theorem verdict_ignores_spaces_hyphens_and_case
    (genai_service_available : bool)
    (generate_content : list N -> list N -> list N + list N)
    (lower_unicode : list N -> list N) (cache_data : explanation_cache)
    (s : session) (before after : list N) (c : N) :
  is_current_problem_answered s = false ->
  plain_text (before ++ after) ->
  c = Char.space \/ c = Char.hyphen ->
  normalize lower_unicode (before ++ c :: after)
  = normalize lower_unicode (before ++ after)
  /\ normalize lower_unicode (lower lower_unicode (before ++ after))
     = normalize lower_unicode (before ++ after)
  /\ is_current_problem_correct
       (state_of (handle_answer_submission_st genai_service_available
                    generate_content lower_unicode cache_data
                    (set_student_answer (before ++ c :: after) s)))
     = is_current_problem_correct
         (state_of (handle_answer_submission_st genai_service_available
                      generate_content lower_unicode cache_data
                      (set_student_answer (before ++ after) s)))
  /\ is_current_problem_correct
       (state_of (handle_answer_submission_st genai_service_available
                    generate_content lower_unicode cache_data
                    (set_student_answer
                       (lower lower_unicode (before ++ after)) s)))
     = is_current_problem_correct
         (state_of (handle_answer_submission_st genai_service_available
                      generate_content lower_unicode cache_data
                      (set_student_answer (before ++ after) s))).
Proof.
  intros Hunanswered Hplain Hc.
  assert (Hinsert : normalize lower_unicode (before ++ c :: after)
                    = normalize lower_unicode (before ++ after)).
  { assert (Hplain' : plain_text (before ++ c :: after)).
    { unfold plain_text in *. apply Forall_app in Hplain as [Hb Ha].
      apply Forall_app. split; [done|]. constructor; [|done].
      destruct Hc as [-> | ->]; split; done. }
    rewrite !normalize_plain_text by done.
    rewrite !fmap_app, !filter_app, fmap_cons, filter_cons_False; [done|].
    destruct Hc as [-> | ->]; cbn; tauto. }
  pose proof (normalize_lower lower_unicode _ (plain_text_latin1 _ Hplain))
    as Hlower.
  split; [done|]. split; [done|].
  assert (Hflag : forall answer,
             is_current_problem_correct
               (state_of (handle_answer_submission_st genai_service_available
                            generate_content lower_unicode cache_data
                            (set_student_answer answer s)))
             = bool_decide (normalize lower_unicode answer
                            = normalize lower_unicode (current_correct_name s))
               || bool_decide (normalize lower_unicode answer
                               ∈ normalize lower_unicode
                                   <$> current_alternative_names s)).
  { intros answer. rewrite handle_correct_flag; by destruct_session s. }
  rewrite !Hflag, Hinsert, Hlower. done.
Qed.

Lemma verdict_ignores_spaces_hyphens_and_case_witness :
  normalize lower_nothing (lit "propan" ++ Char.hyphen :: lit "2 ol")
  = normalize lower_nothing (lit "propan" ++ lit "2 ol").
Proof.
  destruct (verdict_ignores_spaces_hyphens_and_case false (fun _ _ => inl [])
              lower_nothing empty_cache
              defaults (lit "propan") (lit "2 ol") Char.hyphen)
    as (Hsame & _).
  - reflexivity.
  - decide_by_computation.
  - by right.
  - exact Hsame.
Defined.

(** ** A quiz from its start to its end *)

Lemma run_script_stage (MolFromSmiles : list N -> bool) (s : session) :
  quiz_invariant s ->
  app_stage (state_of (run_script MolFromSmiles s)) = app_stage s.
Proof.
  intros Hinv.
  destruct (display_quiz_page_st_keeps_quiz_keys MolFromSmiles)
    as (_ & _ & Kstage & _).
  unfold run_script. rewrite gets_bind.
  destruct (app_stage s) eqn:Hstage; cbn; rewrite ?Hstage; [done| |done].
  rewrite !gets_bind.
  destruct (quiz_invariant_lookup s Hinv Hstage) as (_ & _ & -> & -> & _).
  cbn [negb orb]. by rewrite Kstage.
Qed.

Lemma quiz_under_way_bind (MolFromSmiles : list N -> bool)
    (quiz_list : list problem) (m k : M unit) (s : session) :
  returned (m s) = true /\ quiz_under_way MolFromSmiles quiz_list (state_of (m s)) ->
  (forall s1, quiz_under_way MolFromSmiles quiz_list s1 ->
              returned (k s1) = true
              /\ quiz_under_way MolFromSmiles quiz_list (state_of (k s1))) ->
  returned ((m ≫= fun _ => k) s) = true
  /\ quiz_under_way MolFromSmiles quiz_list (state_of ((m ≫= fun _ => k) s)).
Proof.
  intros (Hret & Hway) Hk. unfold mbind, M_bind.
  destruct (m s) as [[] s1 out|]; cbn in Hret, Hway; [|done].
  destruct (Hk s1 Hway) as (Hret' & Hway').
  destruct (k s1); cbn in Hret', Hway'; [|done].
  split; done.
Qed.

Lemma run_script_under_way (MolFromSmiles : list N -> bool)
    (quiz_list : list problem) (s : session) :
  quiz_under_way MolFromSmiles quiz_list s ->
  returned (run_script MolFromSmiles s) = true
  /\ quiz_under_way MolFromSmiles quiz_list (state_of (run_script MolFromSmiles s)).
Proof.
  intros (Hshows & Hlist & Hstage & Hend).
  destruct (run_script_shows MolFromSmiles s Hshows) as (Hret & Hshows').
  destruct (run_script_keeps_quiz_keys MolFromSmiles)
    as (_ & Rindex & Rlist & Rtotal).
  split; [done|]. split; [done|].
  rewrite Rlist, Rindex, Rtotal, (run_script_stage _ _ (proj1 Hshows)). done.
Qed.

Lemma perform_under_way
    (catalog : list problem) (draws : nat -> nat)
    (MolFromSmiles : list N -> bool) (genai_service_available : bool)
    (generate_content : list N -> list N -> list N + list N)
    (lower_unicode : list N -> list N) (cache_data : explanation_cache)
    (quiz_list : list problem) (a : action) (s : session) :
  a <> start_practice -> quiz_under_way MolFromSmiles quiz_list s ->
  enabled a s = true ->
  quiz_under_way MolFromSmiles quiz_list
    (state_of (perform catalog draws MolFromSmiles genai_service_available
                 generate_content lower_unicode cache_data a s)).
Proof.
  intros Ha Hway Hen.
  cut (returned (perform catalog draws MolFromSmiles genai_service_available
                   generate_content lower_unicode cache_data a s) = true
       /\ quiz_under_way MolFromSmiles quiz_list
            (state_of (perform catalog draws MolFromSmiles
                         genai_service_available generate_content
                         lower_unicode cache_data a s)));
    [by intros [_ ?]|].
  destruct a as [|text|]; [done| |]; cbn [perform enabled] in *.
  - rewrite gets_bind. apply quiz_under_way_bind.
    { destruct (disable_answer_input s || _); [by split|].
      split; [done|]. destruct Hway as ((Hinv & Hoff & Hp) & Hrest).
      destruct (set_student_answer_keeps text s Hinv) as (_ & Hinv' & _).
      split; [|by destruct_session s].
      split; [done|]. by destruct_session s. }
    intros s1 Hway1. apply quiz_under_way_bind; [by apply run_script_under_way|].
    intros s2 Hway2. rewrite gets_bind.
    destruct (bool_decide (app_stage s2 = Quiz)) eqn:Hstage; [|by split].
    apply bool_decide_eq_true in Hstage.
    apply quiz_under_way_bind; [|intros s3 Hway3; by apply run_script_under_way].
    destruct Hway2 as (Hshows2 & Hlist2 & _ & _).
    destruct (handle_answer_submission_st_shows MolFromSmiles
                genai_service_available generate_content
                lower_unicode cache_data s2 Hshows2 Hstage)
      as (Hret & Hshows3).
    destruct (handle_answer_submission_st_keeps_keys genai_service_available
                generate_content
                lower_unicode cache_data) as (Kstage & Klist & _).
    split; [done|]. split; [done|]. rewrite Kstage, Klist, Hstage. done.
  - apply andb_true_iff in Hen as [Hstage _].
    apply bool_decide_eq_true in Hstage.
    apply quiz_under_way_bind; [|intros s1 Hway1; by apply run_script_under_way].
    destruct Hway as (Hshows & Hlist & _ & _).
    destruct (go_to_next_problem_callback_shows MolFromSmiles s Hshows Hstage)
      as (Hret & Hshows').
    destruct (go_to_next_problem_callback_keeps_quiz_keys MolFromSmiles)
      as (_ & Glist & Gtotal).
    destruct (go_to_next_problem_callback_moves MolFromSmiles s) as [Hindex Hnext].
    split; [done|]. split; [done|]. rewrite Glist, Gtotal, Hindex, Hnext, Hstage.
    split; [done|].
    destruct Hshows as ((_ & _ & Hs) & _). rewrite Hstage in Hs.
    destruct (Z.leb_spec (total_problems_in_quiz s) (problem_index s + 1));
      split; try done. intros _. lia.
Qed.

Lemma perform_start_practice_begins
    (catalog : list problem) (draws : nat -> nat)
    (MolFromSmiles : list N -> bool) (genai_service_available : bool)
    (generate_content : list N -> list N -> list N + list N)
    (lower_unicode : list N -> list N) (cache_data : explanation_cache)
    (s : session) :
  app_stage s = Setup ->
  app_stage (state_of (perform catalog draws MolFromSmiles
                         genai_service_available generate_content
                         lower_unicode cache_data
                         start_practice s)) = Quiz ->
  problem_index (state_of (perform catalog draws MolFromSmiles
                             genai_service_available generate_content
                             lower_unicode cache_data
                             start_practice s)) = 0
  /\ current_score (state_of (perform catalog draws MolFromSmiles
                                genai_service_available generate_content
                                lower_unicode cache_data
                                start_practice s)) = 0.
Proof.
  intros Hsetup. cbn [perform].
  match goal with |- app_stage ?x = _ -> _ => remember x as s' eqn:Hs' end.
  destruct (run_script_keeps_quiz_keys MolFromSmiles) as (Rscore & Rindex & _).
  destruct (decide ((1 <= length (filtered_problems catalog (selected_categories s)
                                    (selected_difficulties s)))%nat
                    /\ 1 <= num_problems_requested s)) as [[Hn Hr]|Hfail].
  - destruct (setup_new_quiz_st_success catalog draws MolFromSmiles s Hn Hr)
      as (first & _ & Hret & Hquiz & _ & _ & Hindex & Hscore & _).
    unfold mbind at 1, M_bind in Hs'.
    destruct (setup_new_quiz_st catalog draws MolFromSmiles s)
      as [[] s1 out|]; cbn in Hret, Hquiz, Hindex, Hscore; [|done].
    rewrite gets_bind, Hquiz, bool_decide_eq_true_2 in Hs' by done.
    intros _. specialize (Rscore s1). specialize (Rindex s1). subst s'.
    destruct (run_script MolFromSmiles s1); cbn in *; split; congruence.
  - assert (Hsame : state_of (setup_new_quiz_st catalog draws MolFromSmiles s) = s)
      by (by apply setup_new_quiz_st_failure).
    unfold mbind at 1, M_bind in Hs'.
    destruct (setup_new_quiz_st catalog draws MolFromSmiles s)
      as [[] s1 out|e s1 out]; cbn in Hsame; subst s1.
    + rewrite gets_bind, Hsetup in Hs'.
      rewrite bool_decide_eq_false_2 in Hs' by done.
      cbn in Hs'. subst s'. congruence.
    + cbn in Hs'. subst s'. congruence.
Qed.

(** X15: a quiz that was started begins at the first problem with the
    score 0; whatever is submitted and however often the user moves on, the
    problem list and the total stay those of the start, the application
    never falls back to the setup page, and the results page is reached
    exactly when the index has reached the total. *)
Theorem started_quiz_runs_to_its_end
    (catalog : list problem) (draws : nat -> nat)
    (MolFromSmiles : list N -> bool) (genai_service_available : bool)
    (generate_content : list N -> list N -> list N + list N)
    (lower_unicode : list N -> list N) (cache_data : explanation_cache)
    (s_setup s0 s : session) :
  app_stage s_setup = Setup ->
  s0 = state_of (perform catalog draws MolFromSmiles genai_service_available
                   generate_content
                   lower_unicode cache_data start_practice s_setup) ->
  app_stage s0 = Quiz ->
  reachable catalog draws MolFromSmiles genai_service_available
    generate_content lower_unicode s0 s ->
  problem_index s0 = 0
  /\ current_score s0 = 0
  /\ quiz_problems_list s = quiz_problems_list s0
  /\ total_problems_in_quiz s = total_problems_in_quiz s0
  /\ app_stage s <> Setup
  /\ 0 <= problem_index s <= total_problems_in_quiz s
  /\ (app_stage s = Results <-> problem_index s = total_problems_in_quiz s).
Proof.
  intros Hsetup -> Hquiz Hreach.
  destruct (perform_start_practice_begins catalog draws MolFromSmiles
              genai_service_available generate_content
              lower_unicode cache_data s_setup Hsetup Hquiz)
    as [Hindex Hscore].
  split; [done|]. split; [done|].
  set (s0 := state_of (perform catalog draws MolFromSmiles
                         genai_service_available generate_content
                         lower_unicode cache_data
                         start_practice s_setup)) in *.
  assert (Hway : quiz_under_way MolFromSmiles (quiz_problems_list s0) s).
  { induction Hreach as [|s a cache_data' _ IH Ha Hen].
    - split; [by apply perform_start_practice_shows|]. split; [done|].
      fold s0. rewrite Hquiz. done.
    - by apply perform_under_way. }
  assert (Hway0 : shows_current_problem MolFromSmiles s0)
    by (by apply perform_start_practice_shows).
  destruct Hway as (((Ht & _ & Hs) & _) & Hlist & Hstage & Hend).
  destruct Hway0 as ((Ht0 & _) & _).
  split; [done|]. split; [by rewrite Ht, Ht0, Hlist|]. split; [done|].
  destruct (app_stage s) eqn:E; [done| |].
  - split; [lia|]. split; [done|lia].
  - specialize (Hend eq_refl). split; [|done].
    rewrite Hend, Ht. lia.
Qed.

Lemma started_quiz_runs_to_its_end_witness :
  app_stage
    (state_of (perform practice_problems (fun i => i) (fun _ => true) false
                 (fun _ _ => inl [])
                 lower_nothing empty_cache (submitAnswer (lit "methane"))
                 (state_of (perform practice_problems (fun i => i)
                              (fun _ => true) false (fun _ _ => inl [])
                              lower_nothing empty_cache
                              start_practice
                              (set_num_problems_requested 3 defaults)))))
  <> Setup.
Proof.
  destruct (started_quiz_runs_to_its_end practice_problems (fun i => i)
              (fun _ => true) false (fun _ _ => inl [])
              lower_nothing empty_cache
              (set_num_problems_requested 3 defaults) _
              (state_of (perform practice_problems (fun i => i)
                           (fun _ => true) false (fun _ _ => inl [])
                           lower_nothing empty_cache
                           (submitAnswer (lit "methane"))
                           (state_of (perform practice_problems (fun i => i)
                                        (fun _ => true) false (fun _ _ => inl [])
                                        lower_nothing empty_cache
                                        start_practice
                                        (set_num_problems_requested 3 defaults)))))
              eq_refl eq_refl)
    as (_ & _ & _ & _ & Hstage & _).
  - vm_compute. reflexivity.
  - apply reachable_step; [apply reachable_here|discriminate|].
    vm_compute. reflexivity.
  - exact Hstage.
Defined.
